(** * apiExcel: the schema-inference and aggregation pipeline

    A shallow embedding of the pure core of the two dashboards of the
    repository:

    - the Excel dashboard ([analyzeField], [generateBarChart],
      [processFileData], the rows of a worksheet, [toggleFileExpansion],
      the colours of the bars), and
    - the tower map ([findColumnValue], [cleanString], [processExcelData],
      [parseCSVData], the filters of the panel, [getTowerStats],
      [getUniqueRegions], the markers),

    together with the part of the JavaScript runtime these functions rely on
    (strings, numbers, property lists), followed by the properties of the
    specification that were checked against them.

    Conventions of the model.

    - A JavaScript string is a [string]: a sequence of code units below 256
      (the Latin-1 range).  Case mapping and white space are those of that
      range.
    - A JavaScript number is a [num]: a rational, or one of [Infinity],
      [-Infinity], [NaN].  The numbers that the functions read and compute
      are binary64 values: literals, sums, products, quotients and the
      numbers read from strings are rounded to the nearest value, ties to
      even, with overflow to an infinity and underflow to zero, and a
      number is printed with the least digits that read back.  The sign
      of zero is not distinguished.
    - An object used as a dictionary is a property list in insertion order;
      [own_entries] gives the enumeration order of the language (array
      indices first, ascending, then the other keys in insertion order).
      The objects of the program are ordinary objects: a property that is
      not their own is read from [Object.prototype], and an assignment to
      [__proto__] reaches the setter of the prototype.
    - Where a sort meets a comparator that is not consistent (it returns
      [NaN] between some elements and not between others), the language
      leaves the order to the implementation; [sortWith] then gives the
      order of an insertion sort. *)

From Stdlib Require Import ZArith QArith Qreduction Qround Qabs Lqa.
From Stdlib Require Import List String Ascii Bool Lia DecimalString.
From Stdlib Require Import Sorting.Sorted Sorting.Permutation.
Import ListNotations.

Set Implicit Arguments.

(* ===================================================================== *)
(** * The JavaScript runtime                                              *)
(* ===================================================================== *)

Module JS.

(** ** Strings *)

Local Open Scope string_scope.
Local Open Scope nat_scope.

(** [WhiteSpace] and [LineTerminator] code units below 256: TAB, LF, VT, FF,
    CR, SP and NBSP. *)
Definition isWhiteSpace (c : ascii) : bool :=
  let n := nat_of_ascii c in
  ((9 <=? n) && (n <=? 13)) || (n =? 32) || (n =? 160).

Definition isDigit (c : ascii) : bool :=
  let n := nat_of_ascii c in (48 <=? n) && (n <=? 57).

(** Lower-case mapping of one code unit: A-Z, and the Latin-1 capitals
    U+00C0..U+00DE except the multiplication sign U+00D7. *)
Definition lowerChar (c : ascii) : ascii :=
  let n := nat_of_ascii c in
  if ((65 <=? n) && (n <=? 90))
     || ((192 <=? n) && (n <=? 222) && negb (n =? 215))
  then ascii_of_nat (n + 32) else c.

Fixpoint toLowerCase (s : string) : string :=
  match s with
  | EmptyString => EmptyString
  | String c r => String (lowerChar c) (toLowerCase r)
  end.

Fixpoint trimStart (s : string) : string :=
  match s with
  | EmptyString => EmptyString
  | String c r => if isWhiteSpace c then trimStart r else s
  end.

Fixpoint trimEnd (s : string) : string :=
  match s with
  | EmptyString => EmptyString
  | String c r =>
      let r' := trimEnd r in
      if isWhiteSpace c
      then match r' with EmptyString => EmptyString | _ => String c r' end
      else String c r'
  end.

(** [s.trim()] *)
Definition trim (s : string) : string := trimEnd (trimStart s).

(** [s.includes(sub)] *)
Fixpoint includes (s sub : string) : bool :=
  if String.prefix sub s then true
  else match s with
       | EmptyString => false
       | String _ r => includes r sub
       end.

(** [s.replace(/[...]/g, "")] for a character class given as a predicate. *)
Fixpoint removeChars (p : ascii -> bool) (s : string) : string :=
  match s with
  | EmptyString => EmptyString
  | String c r => if p c then removeChars p r else String c (removeChars p r)
  end.

(** The class [[$,%]]. *)
Definition isCurrencyMark (c : ascii) : bool :=
  Ascii.eqb c "$" || Ascii.eqb c "," || Ascii.eqb c "%".

Definition isComma (c : ascii) : bool := Ascii.eqb c ",".

(** [s.replace(/[$,%]/g, "")] *)
Definition stripMarks (s : string) : string := removeChars isCurrencyMark s.

(** [s.replace(/,/g, "")] *)
Definition stripCommas (s : string) : string := removeChars isComma s.

(** [s.replace(/[^0-9]/g, "")] *)
Definition keepDigits (s : string) : string :=
  removeChars (fun c => negb (isDigit c)) s.

(** [s.replace(",", ".")]: a string pattern replaces the first occurrence
    only. *)
Fixpoint replaceFirstComma (s : string) : string :=
  match s with
  | EmptyString => EmptyString
  | String c r => if isComma c then String "." r
                  else String c (replaceFirstComma r)
  end.

(** [s.replace(/,+/g, ",")]: every maximal run of commas becomes one. *)
Fixpoint collapseCommas (s : string) : string :=
  match s with
  | EmptyString => EmptyString
  | String c r =>
      if isComma c
      then match r with
           | String c' _ => if isComma c' then collapseCommas r
                            else String c (collapseCommas r)
           | EmptyString => String c EmptyString
           end
      else String c (collapseCommas r)
  end.

(** Removal of a comma standing at the very end ([/,$/]). *)
Fixpoint dropLastComma (s : string) : string :=
  match s with
  | EmptyString => EmptyString
  | String c EmptyString => if isComma c then EmptyString else s
  | String c r => String c (dropLastComma r)
  end.

(** [s.replace(/^,|,$/g, "")]: the global search first tries position 0
    (alternative [^,]), and after a match resumes behind it; the alternative
    [,$] then matches a comma that is the last character. *)
Definition stripEdgeCommas (s : string) : string :=
  match s with
  | String c r => if isComma c then dropLastComma r else dropLastComma s
  | EmptyString => EmptyString
  end.

(** [s.split(",")]: never empty; the empty string splits into [[""]]. *)
Fixpoint splitComma (s : string) : list string :=
  match s with
  | EmptyString => [EmptyString]
  | String c r =>
      if isComma c then EmptyString :: splitComma r
      else match splitComma r with
           | h :: t => String c h :: t
           | [] => [String c EmptyString]
           end
  end.

(** [s.substring(0, n)] for an integer [n] already clamped at 0. *)
Fixpoint takeChars (n : nat) (s : string) : string :=
  match n, s with
  | S k, String c r => String c (takeChars k r)
  | _, _ => EmptyString
  end.

Fixpoint dropChars (n : nat) (s : string) : string :=
  match n, s with
  | S k, String _ r => dropChars k r
  | _, _ => s
  end.

Definition isEmpty (s : string) : bool :=
  match s with EmptyString => true | _ => false end.

(** The test [/^\$?\d+(\.\d{2})?$/]. *)
Fixpoint skipDigits (s : string) : string :=
  match s with
  | String c r => if isDigit c then skipDigits r else s
  | EmptyString => s
  end.

Definition matchesCurrency (s : string) : bool :=
  let body := match s with
              | String c r => if Ascii.eqb c "$" then r else s
              | EmptyString => s
              end in
  match body with
  | String c _ =>
      isDigit c &&
      match skipDigits body with
      | EmptyString => true
      | String d (String a (String b EmptyString)) =>
          Ascii.eqb d "." && isDigit a && isDigit b
      | _ => false
      end
  | EmptyString => false
  end.

(** ** Numbers *)

Inductive num : Type :=
| Fin (q : Q)
| PInf
| NInf
| NaN.

Definition zero : num := Fin 0.

Definition ofZ (z : Z) : num := Fin (inject_Z z).
Definition ofNat (n : nat) : num := ofZ (Z.of_nat n).

Definition isNaN (x : num) : bool :=
  match x with NaN => true | _ => false end.

Definition isFinite (x : num) : bool :=
  match x with Fin _ => true | _ => false end.

Definition neg (x : num) : num :=
  match x with
  | Fin q => Fin (Qred (- q))
  | PInf => NInf
  | NInf => PInf
  | NaN => NaN
  end.

Definition Qsign (q : Q) : comparison := (q ?= 0)%Q.

(** *** Rounding to binary64

    The exact result of an operation is rounded to the nearest binary64
    value, ties to even: 53 significant bits, exponents from [-1022] to
    [1023], subnormal values below, an infinity from [2 ^ 1024] on. *)

Definition pow2 (e : Z) : Q :=
  if (0 <=? e)%Z then inject_Z (2 ^ e) else 1 # Z.to_pos (2 ^ (- e)).

(** The exponent [e] of a positive rational: [2 ^ e <= q < 2 ^ (e + 1)]. *)
Definition floorLog2 (q : Q) : Z :=
  let e := (Z.log2 (Qnum q) - Z.log2 (Zpos (Qden q)))%Z in
  if Qle_bool (pow2 e) q then e else (e - 1)%Z.

(** The nearest integer, a tie going to the even one. *)
Definition nearestEven (m : Q) : Z :=
  let f := Qfloor m in
  match (m - inject_Z f ?= 1 # 2)%Q with
  | Lt => f
  | Gt => (f + 1)%Z
  | Eq => if Z.even f then f else (f + 1)%Z
  end.

(** [least] is the least number of units in the last place of the result:
    [0] where a result may vanish (a product, a quotient, a literal), [1]
    for a sum, which is a multiple of the least subnormal value when its
    terms are binary64 values, and does not vanish unless it is zero. *)
Definition roundPositive (least : Z) (q : Q) : num :=
  let e := Z.max (-1022) (floorLog2 q) in
  let ulp := pow2 (e - 52) in
  let v := (inject_Z (Z.max least (nearestEven (q / ulp))) * ulp)%Q in
  if Qle_bool (pow2 1024) v then PInf else Fin (Qred v).

Definition roundFrom (least : Z) (q : Q) : num :=
  let r := Qred q in
  match Qsign r with
  | Eq => zero
  | Gt => roundPositive least r
  | Lt => neg (roundPositive least (Qred (- r)))
  end.

Definition round (q : Q) : num := roundFrom 0 q.

(** [x + y] *)
Definition add (x y : num) : num :=
  match x, y with
  | NaN, _ => NaN
  | _, NaN => NaN
  | Fin a, Fin b => roundFrom 1 (a + b)
  | PInf, NInf => NaN
  | NInf, PInf => NaN
  | PInf, _ => PInf
  | _, PInf => PInf
  | NInf, _ => NInf
  | _, NInf => NInf
  end.

(** [x - y] *)
Definition sub (x y : num) : num := add x (neg y).

(** [x * y] *)
Definition mul (x y : num) : num :=
  match x, y with
  | NaN, _ => NaN
  | _, NaN => NaN
  | Fin a, Fin b => round (a * b)
  | Fin a, PInf => match Qsign a with Eq => NaN | Lt => NInf | Gt => PInf end
  | PInf, Fin a => match Qsign a with Eq => NaN | Lt => NInf | Gt => PInf end
  | Fin a, NInf => match Qsign a with Eq => NaN | Lt => PInf | Gt => NInf end
  | NInf, Fin a => match Qsign a with Eq => NaN | Lt => PInf | Gt => NInf end
  | PInf, PInf => PInf
  | NInf, NInf => PInf
  | PInf, NInf => NInf
  | NInf, PInf => NInf
  end.

(** [x / y].  A finite quotient by zero is an infinity of the sign of the
    dividend (the zero of the model is the positive one). *)
Definition div (x y : num) : num :=
  match x, y with
  | NaN, _ => NaN
  | _, NaN => NaN
  | Fin a, Fin b =>
      match Qsign b with
      | Eq => match Qsign a with Eq => NaN | Lt => NInf | Gt => PInf end
      | _ => round (a / b)
      end
  | Fin _, PInf => zero
  | Fin _, NInf => zero
  | PInf, Fin b => match Qsign b with Lt => NInf | _ => PInf end
  | NInf, Fin b => match Qsign b with Lt => PInf | _ => NInf end
  | PInf, PInf => NaN
  | PInf, NInf => NaN
  | NInf, PInf => NaN
  | NInf, NInf => NaN
  end.

(** [x < y]; false as soon as one side is [NaN]. *)
Definition lt (x y : num) : bool :=
  match x, y with
  | NaN, _ => false
  | _, NaN => false
  | Fin a, Fin b => negb (Qle_bool b a)
  | _, NInf => false
  | PInf, _ => false
  | NInf, _ => true
  | Fin _, PInf => true
  end.

Definition gt (x y : num) : bool := lt y x.

(** [x === y] on numbers; [NaN] differs from itself. *)
Definition eqNum (x y : num) : bool :=
  match x, y with
  | Fin a, Fin b => Qeq_bool a b
  | PInf, PInf | NInf, NInf => true
  | _, _ => false
  end.

(** [x <= y] *)
Definition le (x y : num) : bool := lt x y || eqNum x y.

(** [x >= y] *)
Definition ge (x y : num) : bool := le y x.

(** [Math.abs] *)
Definition abs (x : num) : num :=
  match x with
  | Fin q => Fin (Qred (Qabs q))
  | PInf | NInf => PInf
  | NaN => NaN
  end.

(** [Math.max(x, y)] and [Math.min(x, y)] *)
Definition max2 (x y : num) : num :=
  if isNaN x || isNaN y then NaN else if lt x y then y else x.

Definition min2 (x y : num) : num :=
  if isNaN x || isNaN y then NaN else if lt y x then y else x.

(** [Math.max(...l)] and [Math.min(...l)]: the identities are
    [-Infinity] and [Infinity]. *)
Definition maxList (l : list num) : num := fold_left max2 l NInf.
Definition minList (l : list num) : num := fold_left min2 l PInf.

(** Truthiness of a number: every number but zero and [NaN]. *)
Definition truthyNum (x : num) : bool :=
  match x with
  | Fin q => negb (Qeq_bool q 0)
  | NaN => false
  | _ => true
  end.

(** [x || 0] on a number. *)
Definition orZero (x : num) : num := if truthyNum x then x else zero.

(** *** Reading numbers

    [StrDecimalLiteral]: an optional sign, then [Infinity], or digits with
    an optional fraction and an optional exponent.  [scanDecimal] returns
    the value of the longest prefix that is such a literal and the rest of
    the string. *)

Definition digitVal (c : ascii) : Z := Z.of_nat (nat_of_ascii c) - 48.

Fixpoint scanDigits (acc : Z) (cnt : nat) (s : string) : Z * nat * string :=
  match s with
  | String c r =>
      if isDigit c then scanDigits (10 * acc + digitVal c) (S cnt) r
      else (acc, cnt, s)
  | EmptyString => (acc, cnt, s)
  end.

(** [m * 10 ^ e] *)
Definition decimal (m e : Z) : num :=
  if (0 <=? e)%Z then round (inject_Z (m * 10 ^ e))
  else round (m # Z.to_pos (10 ^ (- e))).

(** An [ExponentPart] is read only when complete: [e] or [E], an optional
    sign and at least one digit. *)
Definition scanExponent (s : string) : Z * string :=
  match s with
  | String c r =>
      if Ascii.eqb c "e" || Ascii.eqb c "E" then
        let '(sg, r1) :=
          match r with
          | String d r' =>
              if Ascii.eqb d "+" then (1%Z, r')
              else if Ascii.eqb d "-" then ((-1)%Z, r')
              else (1%Z, r)
          | EmptyString => (1%Z, r)
          end in
        let '(v, n, r2) := scanDigits 0 0 r1 in
        match n with
        | O => (0%Z, s)
        | S _ => ((sg * v)%Z, r2)
        end
      else (0%Z, s)
  | EmptyString => (0%Z, s)
  end.

Definition scanUnsigned (s : string) : option (num * string) :=
  if String.prefix "Infinity" s then Some (PInf, dropChars 8 s)
  else
    let '(ip, n1, r1) := scanDigits 0 0 s in
    let fraction :=
      match r1 with
      | String c r2 => if Ascii.eqb c "." then Some r2 else None
      | EmptyString => None
      end in
    match fraction with
    | Some r2 =>
        let '(m, n2, r3) := scanDigits ip 0 r2 in
        match n1, n2 with
        | O, O => None
        | _, _ =>
            let '(e, r4) := scanExponent r3 in
            Some (decimal m (e - Z.of_nat n2), r4)
        end
    | None =>
        match n1 with
        | O => None
        | S _ => let '(e, r4) := scanExponent r1 in Some (decimal ip e, r4)
        end
    end.

Definition scanDecimal (s : string) : option (num * string) :=
  match s with
  | String c r =>
      if Ascii.eqb c "-" then
        match scanUnsigned r with
        | Some (x, rest) => Some (neg x, rest)
        | None => None
        end
      else if Ascii.eqb c "+" then scanUnsigned r
      else scanUnsigned s
  | EmptyString => None
  end.

(** Digits of a radix up to 16. *)
Definition radixDigit (radix : Z) (c : ascii) : option Z :=
  let n := Z.of_nat (nat_of_ascii c) in
  let v := if ((48 <=? n) && (n <=? 57))%Z then (n - 48)%Z
           else if ((97 <=? n) && (n <=? 102))%Z then (n - 87)%Z
           else if ((65 <=? n) && (n <=? 70))%Z then (n - 55)%Z
           else 16%Z in
  if (v <? radix)%Z then Some v else None.

Fixpoint scanRadix (radix acc : Z) (cnt : nat) (s : string)
  : Z * nat * string :=
  match s with
  | String c r =>
      match radixDigit radix c with
      | Some v => scanRadix radix (radix * acc + v) (S cnt) r
      | None => (acc, cnt, s)
      end
  | EmptyString => (acc, cnt, s)
  end.

(** [NonDecimalIntegerLiteral]: [0x], [0o] or [0b] and at least one digit,
    with nothing behind. *)
Definition radixLiteral (s : string) : option num :=
  match s with
  | String z (String p r) =>
      if Ascii.eqb z "0" then
        let radix :=
          if Ascii.eqb p "x" || Ascii.eqb p "X" then Some 16%Z
          else if Ascii.eqb p "o" || Ascii.eqb p "O" then Some 8%Z
          else if Ascii.eqb p "b" || Ascii.eqb p "B" then Some 2%Z
          else None in
        match radix with
        | Some b =>
            match scanRadix b 0 0 r with
            | (v, S _, EmptyString) => Some (round (inject_Z v))
            | _ => None
            end
        | None => None
        end
      else None
  | _ => None
  end.

(** [Number(s)] on a string: white space is trimmed; the empty string is
    [0]; the whole of what remains must be a numeric literal. *)
Definition Number (s : string) : num :=
  let t := trim s in
  match t with
  | EmptyString => zero
  | _ =>
      match radixLiteral t with
      | Some x => x
      | None =>
          match scanDecimal t with
          | Some (x, EmptyString) => x
          | _ => NaN
          end
      end
  end.

(** [parseFloat(s)]: leading white space is skipped and the longest prefix
    that is a decimal literal is read; what follows is ignored. *)
Definition parseFloat (s : string) : num :=
  match scanDecimal (trimStart s) with
  | Some (x, _) => x
  | None => NaN
  end.

(** [parseInt(s)] without radix: leading white space, a sign, then radix 16
    after [0x], radix 10 otherwise; the longest prefix of digits. *)
Definition parseInt (s : string) : num :=
  let t := trimStart s in
  let '(negative, u) :=
    match t with
    | String c r =>
        if Ascii.eqb c "-" then (true, r)
        else if Ascii.eqb c "+" then (false, r)
        else (false, t)
    | EmptyString => (false, t)
    end in
  let '(radix, body) :=
    match u with
    | String z (String p r) =>
        if Ascii.eqb z "0" && (Ascii.eqb p "x" || Ascii.eqb p "X")
        then (16%Z, r) else (10%Z, u)
    | _ => (10%Z, u)
    end in
  match scanRadix radix 0 0 body with
  | (_, O, _) => NaN
  | (v, S _, _) =>
      if negative then neg (round (inject_Z v)) else round (inject_Z v)
  end.

(** *** Printing numbers

    [Number::toString]: the least number [k] of digits [s] such that
    [s * 10 ^ (n - k)] reads back as the number, the closest such [s], and
    the position [n] of the decimal point, with
    [10 ^ (n - 1) <= x < 10 ^ n]; then the four layouts of the language. *)

Definition pow10 (e : Z) : Q :=
  if (0 <=? e)%Z then inject_Z (10 ^ e) else 1 # Z.to_pos (10 ^ (- e)).

Fixpoint countDigits (fuel : nat) (z : Z) : Z :=
  match fuel with
  | O => 1
  | S f => if (z <? 10)%Z then 1 else (1 + countDigits f (z / 10))%Z
  end.

Fixpoint leadingShift (fuel : nat) (q : Q) : Z :=
  match fuel with
  | O => 1
  | S f => if Qle_bool 1 (q * 10) then 1
           else (1 + leadingShift f (q * 10))%Z
  end.

Definition magnitude (q : Q) : Z :=
  if Qle_bool 1 q
  then countDigits (S (Z.to_nat (Z.log2 (Qfloor q)))) (Qfloor q)
  else (1 - leadingShift (Pos.to_nat (Pos.size (Qden q))) q)%Z.

Fixpoint stripZeros (fuel : nat) (s k : Z) : Z * Z :=
  match fuel with
  | O => (s, k)
  | S f => if (s mod 10 =? 0)%Z then stripZeros f (s / 10)%Z (k - 1)%Z
           else (s, k)
  end.

Definition digitsOfZ (z : Z) : string :=
  NilZero.string_of_uint (N.to_uint (Z.to_N z)).

Definition digitsOfNat (n : nat) : string :=
  NilZero.string_of_uint (Nat.to_uint n).

Fixpoint zeros (n : nat) : string :=
  match n with O => EmptyString | S k => String "0" (zeros k) end.

(** [s * 10 ^ e] is read as the binary64 value [q]. *)
Definition readsBack (q : Q) (s e : Z) : bool :=
  match round (inject_Z s * pow10 e) with
  | Fin r => Qeq_bool r q
  | _ => false
  end.

(** The digits of [k] places next to [q], below or above, that read back
    as [q]: the closer of the two, the even one when they are as close. *)
Definition digitsAt (q : Q) (n k : Z) : option Z :=
  let scaled := (q * pow10 (k - n))%Q in
  let below := Qfloor scaled in
  let above := (below + 1)%Z in
  match readsBack q below (n - k), readsBack q above (n - k) with
  | true, true =>
      match (scaled - inject_Z below ?= inject_Z above - scaled)%Q with
      | Lt => Some below
      | Gt => Some above
      | Eq => Some (if Z.even below then below else above)
      end
  | true, false => Some below
  | false, true => Some above
  | false, false => None
  end.

(** The search for the least [k]; 17 digits always read back. *)
Fixpoint shortestDigits (fuel : nat) (q : Q) (n k : Z) : Z * Z :=
  match fuel with
  | O => (Qfloor (q * pow10 (k - n)), k)
  | S f =>
      match digitsAt q n k with
      | Some s => (s, k)
      | None => shortestDigits f q n (k + 1)
      end
  end.

Definition printPositive (q : Q) : string :=
  let n0 := magnitude q in
  let '(s0, k0) := shortestDigits 17 q n0 1 in
  (* the digits above may be a power of ten, one place longer *)
  let carried := (s0 =? 10 ^ k0)%Z in
  let n := if carried then (n0 + 1)%Z else n0 in
  let '(s, k) := stripZeros 17 s0 (if carried then k0 + 1 else k0)%Z in
  let ds := digitsOfZ s in
  if ((k <=? n) && (n <=? 21))%Z then
    ds ++ zeros (Z.to_nat (n - k))
  else if ((0 <? n) && (n <=? 21))%Z then
    takeChars (Z.to_nat n) ds ++ "." ++ dropChars (Z.to_nat n) ds
  else if ((-6 <? n) && (n <=? 0))%Z then
    "0." ++ zeros (Z.to_nat (- n)) ++ ds
  else
    let e := (n - 1)%Z in
    let mantissa :=
      if (k =? 1)%Z then ds
      else takeChars 1 ds ++ "." ++ dropChars 1 ds in
    mantissa ++ "e" ++ (if (0 <=? e)%Z then "+" else "-")
             ++ digitsOfZ (Z.abs e).

(** A number that is not a binary64 value is printed as the value it
    rounds to. *)
Definition printNum (x : num) : string :=
  match x with
  | NaN => "NaN"
  | PInf => "Infinity"
  | NInf => "-Infinity"
  | Fin q =>
      match round q with
      | Fin r =>
          match Qsign r with
          | Eq => "0"
          | Gt => printPositive r
          | Lt => "-" ++ printPositive (Qred (- r))
          end
      | PInf => "Infinity"
      | NInf => "-Infinity"
      | NaN => "NaN"
      end
  end.

(** ** Values *)

(** The primitive values, and [VObject text]: an object or a function,
    known by the string it is converted to.  The objects that the program
    meets as values are the members of [Object.prototype]. *)
Inductive value : Type :=
| VUndefined
| VNull
| VBool (b : bool)
| VNum (x : num)
| VStr (s : string)
| VObject (text : string).

(** [String(v)], and [v.toString()] where [v] is neither [null] nor
    [undefined]. *)
Definition ToString (v : value) : string :=
  match v with
  | VUndefined => "undefined"
  | VNull => "null"
  | VBool true => "true"
  | VBool false => "false"
  | VNum x => printNum x
  | VStr s => s
  | VObject text => text
  end.

Definition truthy (v : value) : bool :=
  match v with
  | VUndefined | VNull => false
  | VBool b => b
  | VNum x => truthyNum x
  | VStr s => negb (isEmpty s)
  | VObject _ => true
  end.

(** [a === b]; two objects are the same when their texts are. *)
Definition strictEq (a b : value) : bool :=
  match a, b with
  | VUndefined, VUndefined => true
  | VNull, VNull => true
  | VBool x, VBool y => Bool.eqb x y
  | VNum x, VNum y => eqNum x y
  | VStr x, VStr y => String.eqb x y
  | VObject x, VObject y => String.eqb x y
  | _, _ => false
  end.

(** [SameValueZero], the equality of the elements of a [Set]: as [===],
    but [NaN] is the same as [NaN]. *)
Definition sameValueZero (a b : value) : bool :=
  match a, b with
  | VNum NaN, VNum NaN => true
  | _, _ => strictEq a b
  end.

Definition isString (v : value) : bool :=
  match v with VStr _ => true | _ => false end.

(** [Array.from(new Set(l))]: the distinct elements in order of first
    occurrence. *)
Fixpoint distinctFrom (seen l : list value) : list value :=
  match l with
  | [] => []
  | v :: t =>
      if existsb (sameValueZero v) seen then distinctFrom seen t
      else v :: distinctFrom (v :: seen) t
  end.

Definition distinct (l : list value) : list value := distinctFrom [] l.

(** ** Objects as dictionaries *)

Section Objects.

Variable A : Type.

Definition obj : Type := list (string * A).

(** [o[k]]; [None] stands for [undefined]. *)
Fixpoint lookup (o : obj) (k : string) : option A :=
  match o with
  | [] => None
  | (k', v) :: t => if String.eqb k' k then Some v else lookup t k
  end.

(** [o[k] = v]: an existing property keeps its place. *)
Fixpoint assign (o : obj) (k : string) (v : A) : obj :=
  match o with
  | [] => [(k, v)]
  | (k', v') :: t =>
      if String.eqb k' k then (k', v) :: t else (k', v') :: assign t k v
  end.

(** Stable insertion sort; [before x y] says that [x] may stay in front
    of [y]. *)
Variable before : A -> A -> bool.

Fixpoint insertSorted (x : A) (l : list A) : list A :=
  match l with
  | [] => [x]
  | y :: t => if before x y then x :: l else y :: insertSorted x t
  end.

Definition insertionSort (l : list A) : list A :=
  fold_right insertSorted [] l.

End Objects.

(** An array index is a canonical numeric string below [2 ^ 32 - 1]. *)
Definition arrayIndex (k : string) : option Z :=
  match scanDigits 0 0 k with
  | (v, S n, EmptyString) =>
      let canonical :=
        match k with
        | String c (String _ _) => negb (Ascii.eqb c "0")
        | _ => true
        end in
      if canonical && (v <? 4294967295)%Z then Some v else None
  | _ => None
  end.

Definition isIndexKey (k : string) : bool :=
  match arrayIndex k with Some _ => true | None => false end.

Definition indexOf (k : string) : Z :=
  match arrayIndex k with Some i => i | None => 0%Z end.

(** [Object.entries(o)]: array indices in ascending order, then the other
    keys in insertion order. *)
Definition own_entries (A : Type) (o : obj A) : list (string * A) :=
  insertionSort (fun x y => (indexOf (fst x) <=? indexOf (fst y))%Z)
                (filter (fun e => isIndexKey (fst e)) o)
  ++ filter (fun e => negb (isIndexKey (fst e))) o.

(** [Object.keys(o)] *)
Definition own_keys (A : Type) (o : obj A) : list string :=
  map fst (own_entries o).

(** [l.sort(cmp)]: stable; [x] stays in front of [y] unless [cmp x y] is
    positive (a [NaN] counts as zero).  With a consistent comparator this
    is the sorted order of the language; with another, the order is the
    implementation's, and this is one such order. *)
Definition sortWith (A : Type) (cmp : A -> A -> num) (l : list A) : list A :=
  insertionSort (fun x y => negb (gt (cmp x y) zero)) l.

(** *** Ordinary objects

    The objects that the program builds with [{}] or an object literal
    have [Object.prototype] as prototype.  A property list holds their own
    properties. *)

(** The text of a built-in function (as V8 prints it). *)
Definition nativeFunction (name : string) : value :=
  VObject ("function " ++ name ++ "() { [native code] }").

(** The members of [Object.prototype]: eleven functions, and the accessor
    [__proto__], which reads as the prototype itself. *)
Definition prototypeMember (key : string) : option value :=
  if String.eqb key "constructor" then Some (nativeFunction "Object")
  else if String.eqb key "__proto__" then Some (VObject "[object Object]")
  else if existsb (String.eqb key)
                  ["hasOwnProperty"; "isPrototypeOf"; "propertyIsEnumerable";
                   "toLocaleString"; "toString"; "valueOf";
                   "__defineGetter__"; "__defineSetter__";
                   "__lookupGetter__"; "__lookupSetter__"]
  then Some (nativeFunction key)
  else None.

(** [row[key]]: an own property, else a member of the prototype, else
    [undefined]. *)
Definition get (row : obj value) (key : string) : value :=
  match lookup row key with
  | Some v => v
  | None =>
      match prototypeMember key with
      | Some member => member
      | None => VUndefined
      end
  end.

(** [o[k] = v] for a value that is neither [null] nor an object: the key
    [__proto__] reaches the setter of the prototype, which ignores such a
    value; every other key becomes or stays an own property. *)
Definition put (o : obj value) (k : string) (v : value) : obj value :=
  if String.eqb k "__proto__" then o else assign o k v.

(** [o[k] = v] for any value, on the own properties of [o] and the flag
    [plain]: the prototype is still reached.  Through the setter, [null]
    removes the prototype, and with it the setter. *)
Definition putAny (state : obj value * bool) (k : string) (v : value)
  : obj value * bool :=
  let '(o, plain) := state in
  if plain && String.eqb k "__proto__" then (o, negb (strictEq v VNull))
  else (assign o k v, plain).

(** [ToPrimitive]: an object gives its text. *)
Definition ToPrimitive (v : value) : value :=
  match v with
  | VObject text => VStr text
  | _ => v
  end.

(** [ToNumber] *)
Definition ToNumber (v : value) : num :=
  match v with
  | VUndefined => NaN
  | VNull => zero
  | VBool true => Fin 1
  | VBool false => zero
  | VNum x => x
  | VStr s => Number s
  | VObject text => Number text
  end.

(** [a + b]: a concatenation as soon as one side is a string, the sum of
    two numbers otherwise. *)
Definition plus (a b : value) : value :=
  let a := ToPrimitive a in
  let b := ToPrimitive b in
  if isString a || isString b then VStr (ToString a ++ ToString b)
  else VNum (add (ToNumber a) (ToNumber b)).

End JS.

(* ===================================================================== *)
(** * The Excel dashboard: field analysis and the bar chart               *)
(* ===================================================================== *)

Module Dashboard.

Import JS.
Local Open Scope string_scope.

(** [DataItem]: one row, from column name to cell. *)
Definition DataItem : Type := obj value.

Inductive FieldType : Type := number | currency | category | text.

Record FieldInfo : Type := mkFieldInfo {
  name : string;
  type : FieldType;
  isMetric : bool;
  isDimension : bool;
  uniqueValues : nat;
  sampleValues : list string;
  total : option num;
  average : option num;
  min : option num;
  max : option num
}.

(** The assignments to the local variables of [analyzeField]. *)
Definition setType (t : FieldType) (f : FieldInfo) : FieldInfo :=
  mkFieldInfo (name f) t (isMetric f) (isDimension f) (uniqueValues f)
              (sampleValues f) (total f) (average f) (min f) (max f).

Definition setMetric (b : bool) (f : FieldInfo) : FieldInfo :=
  mkFieldInfo (name f) (type f) b (isDimension f) (uniqueValues f)
              (sampleValues f) (total f) (average f) (min f) (max f).

Definition setDimension (b : bool) (f : FieldInfo) : FieldInfo :=
  mkFieldInfo (name f) (type f) (isMetric f) b (uniqueValues f)
              (sampleValues f) (total f) (average f) (min f) (max f).

(** [numericValues.reduce((sum, val) => sum + val, 0)] *)
Definition sum (l : list num) : num := fold_left add l zero.

(** The block guarded by [numericValues.length > 0]. *)
Definition setStatistics (numericValues : list num) (f : FieldInfo)
  : FieldInfo :=
  if (0 <? List.length numericValues)%nat then
    let t := sum numericValues in
    mkFieldInfo (name f) (type f) (isMetric f) (isDimension f)
                (uniqueValues f) (sampleValues f)
                (Some t)
                (Some (div t (ofNat (List.length numericValues))))
                (Some (minList numericValues))
                (Some (maxList numericValues))
  else f.

(** [v !== null && v !== undefined && v !== "" && v !== "N/A"] *)
Definition isNonNull (v : value) : bool :=
  negb (strictEq v VNull) && negb (strictEq v VUndefined)
  && negb (strictEq v (VStr "")) && negb (strictEq v (VStr "N/A")).

(** [v.toString().replace(/[$,%]/g, "")] *)
Definition numStr (v : value) : string := stripMarks (ToString v).

(** [!isNaN(Number(numStr)) && numStr.trim() !== ""] *)
Definition parsesAsNumber (v : value) : bool :=
  negb (isNaN (Number (numStr v))) && negb (isEmpty (trim (numStr v))).

Definition nonNullValuesOf (values : list value) : list value :=
  filter isNonNull values.

Definition numericValuesOf (values : list value) : list num :=
  map (fun v => Number (numStr v))
      (filter parsesAsNumber (nonNullValuesOf values)).

(** [typeof v === "string" &&
     /^\$?\d+(\.\d{2})?$/.test(v.toString().replace(/,/g, ""))] *)
Definition looksLikeCurrency (v : value) : bool :=
  match v with
  | VStr s => matchesCurrency (stripCommas s)
  | _ => false
  end.

Definition dimensionKeywords : list string :=
  ["name"; "mesin"; "category"; "type"; "status"; "department"].

Definition metricKeywords : list string :=
  ["total"; "amount"; "jam"; "hour"; "count"; "sum"; "qty"; "quantity";
   "price"; "cost"].

Definition moneyKeywords : list string := ["price"; "cost"].

(** [lower.includes(k1) || lower.includes(k2) || ...] *)
Definition includesAny (lower : string) (keywords : list string) : bool :=
  existsb (includes lower) keywords.

Definition analyzeField (values : list value) (fieldName : string)
  : FieldInfo :=
  let nonNullValues := nonNullValuesOf values in
  let uniqueValues := List.length (distinct nonNullValues) in
  let sampleValues := map ToString (distinct (firstn 5 nonNullValues)) in
  if (List.length nonNullValues =? 0)%nat then
    mkFieldInfo fieldName text false false 0 [] None None None None
  else
    let numericValues := numericValuesOf values in
    let nNumeric := ofNat (List.length numericValues) in
    let nNonNull := ofNat (List.length nonNullValues) in
    let f0 := mkFieldInfo fieldName text false false uniqueValues
                          sampleValues None None None None in
    (* statistical tests *)
    let f1 :=
      if existsb looksLikeCurrency nonNullValues then
        setStatistics numericValues (setMetric true (setType currency f0))
      else if ge nNumeric (mul nNonNull (round (8 # 10))) then
        setStatistics numericValues (setMetric true (setType number f0))
      else if (1 <? uniqueValues)%nat
              && le (ofNat uniqueValues)
                    (max2 (Fin 20) (mul nNonNull (round (7 # 10))))
              && lt nNumeric (mul nNonNull (round (5 # 10))) then
        setDimension true (setType category f0)
      else f0 in
    (* special handling for common field names *)
    let lowerFieldName := toLowerCase fieldName in
    let f2 :=
      if includesAny lowerFieldName dimensionKeywords then
        setMetric false (setDimension true (setType category f1))
      else f1 in
    let f3 :=
      if includesAny lowerFieldName metricKeywords then
        if (0 <? List.length numericValues)%nat then
          setDimension false
            (setMetric true
               (setType (if includesAny lowerFieldName moneyKeywords
                         then currency else number) f2))
        else f2
      else f2 in
    f3.

(** ** The bar chart *)

Record ChartConfig : Type := mkChartConfig {
  id : string;
  fileId : string;
  chartType : string;
  title : string;
  xAxis : string;
  yAxis : string;
  data : list (obj value);
  dataTotal : num
}.

(** [(row[dimension.name] as string) || "Unknown"] *)
Definition categoryOf (dimension : FieldInfo) (row : DataItem) : value :=
  let c := get row (name dimension) in
  if truthy c then c else VStr "Unknown".

(** [parseFloat(String(row[metric.name]).replace(/[$,%]/g, "")) || 0] *)
Definition metricOf (metric : FieldInfo) (row : DataItem) : num :=
  orZero (parseFloat (stripMarks (ToString (get row (name metric))))).

(** [aggregated[cat] || 0]: the property is read through the prototype;
    what is stored is a number, or a string once a member of the prototype
    was read. *)
Definition running (aggregated : obj value) (key : string) : value :=
  let stored := get aggregated key in
  if truthy stored then stored else VNum zero.

(** The body of [data.forEach]: the state is [(aggregated, dataTotal)];
    the category is turned into a property key by [ToString].  The value
    assigned is a number or a string. *)
Definition aggregateRow (metric dimension : FieldInfo)
           (state : obj value * num) (row : DataItem) : obj value * num :=
  let '(aggregated, dataTotal) := state in
  let cat := ToString (categoryOf dimension row) in
  let val := metricOf metric row in
  (put aggregated cat (plus (running aggregated cat) (VNum val)),
   add dataTotal val).

(** [{ [dimension.name]: name, [metric.name]: value }]: the computed keys
    of an object literal define own properties, whatever the key. *)
Definition point (metric dimension : FieldInfo) (entry : string * value)
  : obj value :=
  assign (assign [] (name dimension) (VStr (fst entry)))
         (name metric) (snd entry).

(** [(a, b) => b[metric.name] - a[metric.name]] *)
Definition byMetricDescending (metric : FieldInfo) (a b : obj value) : num :=
  sub (ToNumber (get b (name metric))) (ToNumber (get a (name metric))).

(** [data.forEach(...)] from [aggregated = {}] and [dataTotal = 0]. *)
Definition aggregate (metric dimension : FieldInfo) (data : list DataItem)
  : obj value * num :=
  fold_left (aggregateRow metric dimension) data ([], zero).

(** What [generateBarChart] does once [metric] and [dimension] are
    chosen. *)
Definition chartOf (metric dimension : FieldInfo) (data : list DataItem)
           (fileId : string) : ChartConfig :=
  let '(aggregated, dataTotal) := aggregate metric dimension data in
  let chartData :=
    firstn 10
      (sortWith (byMetricDescending metric)
                (map (point metric dimension) (own_entries aggregated))) in
  mkChartConfig (fileId ++ "-bar") fileId "bar"
                (name metric ++ " by " ++ name dimension)
                (name dimension) (name metric)
                chartData dataTotal.

(** [fileName] is only logged. *)
Definition generateBarChart (data : list DataItem) (fields : list FieldInfo)
           (fileName fileId : string) : option ChartConfig :=
  let metrics := filter isMetric fields in
  let dimensions := filter isDimension fields in
  if (List.length metrics =? 0)%nat || (List.length dimensions =? 0)%nat
  then None
  else
    match metrics, dimensions with
    | metric :: _, dimension :: _ => Some (chartOf metric dimension data fileId)
    | _, _ => None
    end.

End Dashboard.

(* ===================================================================== *)
(** * The tower map: column lookup, string cleaning, record validation    *)
(* ===================================================================== *)

Module TowerMap.

Import JS.
Local Open Scope string_scope.

(** [row[k] !== undefined && row[k] !== null &&
     String(row[k]).trim() !== ""] *)
Definition present (v : value) : bool :=
  negb (strictEq v VUndefined) && negb (strictEq v VNull)
  && negb (isEmpty (trim (ToString v))).

(** The first loop of [findColumnValue]: exact matches. *)
Fixpoint exactMatch (row : obj value) (possibleNames : list string)
  : option string :=
  match possibleNames with
  | [] => None
  | name :: rest =>
      if present (get row name) then Some (trim (ToString (get row name)))
      else exactMatch row rest
  end.

(** [key.toLowerCase().includes(name.toLowerCase()) ||
     name.toLowerCase().includes(key.toLowerCase())] *)
Definition overlaps (key name : string) : bool :=
  includes (toLowerCase key) (toLowerCase name)
  || includes (toLowerCase name) (toLowerCase key).

(** The inner loop of the second pass, over [Object.keys(row)]. *)
Fixpoint partialMatchKeys (row : obj value) (name : string)
         (keys : list string) : option string :=
  match keys with
  | [] => None
  | key :: rest =>
      if overlaps key name && present (get row key)
      then Some (trim (ToString (get row key)))
      else partialMatchKeys row name rest
  end.

(** The outer loop of the second pass. *)
Fixpoint partialMatch (row : obj value) (possibleNames : list string)
  : option string :=
  match possibleNames with
  | [] => None
  | name :: rest =>
      match partialMatchKeys row name (own_keys row) with
      | Some found => Some found
      | None => partialMatch row rest
      end
  end.

Definition findColumnValue (row : obj value) (possibleNames : list string)
  : string :=
  match exactMatch row possibleNames with
  | Some found => found
  | None =>
      match partialMatch row possibleNames with
      | Some found => found
      | None => ""
      end
  end.

(** ** [cleanString] *)

Definition lengthOf (s : string) : num := ofNat (String.length s).

(** The upper bound of [s.substring(0, n)]: [NaN] and negative numbers
    count as 0, a fraction is cut, and [takeChars] stops at the end of the
    string. *)
Definition substringEnd (s : string) (n : num) : nat :=
  match n with
  | Fin q => Z.to_nat (Qfloor q)
  | PInf => String.length s
  | NInf | NaN => O
  end.

(** The loop over the parts: the first part that is long enough and short
    enough, trimmed. *)
Fixpoint firstMeaningful (parts : list string) (maxLength : num)
  : option string :=
  match parts with
  | [] => None
  | part :: rest =>
      let trimmed := trim part in
      if negb (isEmpty trimmed)
         && gt (lengthOf trimmed) (Fin 3)
         && lt (lengthOf trimmed) maxLength
      then Some trimmed
      else firstMeaningful rest maxLength
  end.

Definition cleanString (value : string) (maxLength : num) : string :=
  if isEmpty value then ""
  else
    let cleaned := stripEdgeCommas (collapseCommas value) in
    if gt (lengthOf cleaned) maxLength && includes cleaned "," then
      let parts := splitComma cleaned in
      match firstMeaningful parts maxLength with
      | Some trimmed => trimmed
      | None => trim (hd "" parts)
      end
    else if gt (lengthOf cleaned) maxLength
         then takeChars (substringEnd cleaned maxLength) cleaned ++ "..."
         else cleaned.

(** The default value of the parameter [maxLength]. *)
Definition defaultMaxLength : num := Fin 50.

(** ** [processExcelData] *)

Record TowerData : Type := mkTowerData {
  id : string;
  unitName : string;
  latitude : num;
  longitude : num;
  towerType : string;
  voltage : num;
  operationYear : num;
  locationName : string;
  substation : string;
  region : string;
  status : string
}.

Definition latitudeNames : list string :=
  ["LOCK LAT"; "Latitude"; "LAT"; "Lock Lat"].
Definition longitudeNames : list string :=
  ["LOCK LONG"; "LOCK LON"; "Longitude"; "LONG"; "LON"; "Lock Long"].
Definition locationNames : list string :=
  ["Nama Lokasi"; "NAMA LOKASI"; "Location"; "LOKASI"].
Definition voltageNames : list string :=
  ["Tegangan"; "TEGANGAN"; "Voltage"; "KV"].
Definition towerTypeNames : list string :=
  ["TIPE"; "TIPE TOWER"; "Type"; "Tower Type"].
Definition unitNames : list string := ["Unit"; "UNIT"; "Unit Name"; "No"].
Definition substationNames : list string :=
  ["Gardu Induk"; "GARDU INDUK"; "Substation"; "GI"].
Definition regionNames : list string :=
  ["KOTA/KAB"; "KOTA"; "Region"; "Wilayah"; "KAB"; "KABUPATEN"].
Definition statusNames : list string :=
  ["Status Operasi"; "STATUS"; "Status"; "Operasi"].
Definition functlocNames : list string :=
  ["IdFunctloc"; "FUNCTLOC"; "ID"; "Functloc"].

(** [s || fallback] on strings. *)
Definition orElse (s fallback : string) : string :=
  if isEmpty s then fallback else s.

(** The first filter: [lat && lng && location]. *)
Definition hasValidData (row : obj value) : bool :=
  negb (isEmpty (findColumnValue row latitudeNames))
  && negb (isEmpty (findColumnValue row longitudeNames))
  && negb (isEmpty (findColumnValue row locationNames)).

(** [parseFloat(s.replace(",", ".")) || 0] *)
Definition parseCoordinate (s : string) : num :=
  orZero (parseFloat (replaceFirstComma s)).

(** The body of [map]. *)
Definition toTower (row : obj value) (index : nat) : TowerData :=
  let latStr := findColumnValue row latitudeNames in
  let lngStr := findColumnValue row longitudeNames in
  let location := findColumnValue row locationNames in
  let voltage := findColumnValue row voltageNames in
  let towerType := findColumnValue row towerTypeNames in
  let unit := findColumnValue row unitNames in
  let substation := findColumnValue row substationNames in
  let region := findColumnValue row regionNames in
  let status := findColumnValue row statusNames in
  let functloc := findColumnValue row functlocNames in
  let latitude := parseCoordinate latStr in
  let longitude := parseCoordinate lngStr in
  let voltageNum := orZero (parseInt (keepDigits voltage)) in
  mkTowerData
    (orElse functloc ("tower-" ++ digitsOfNat index))
    (cleanString (orElse unit "Unknown Unit") defaultMaxLength)
    latitude
    longitude
    (cleanString (orElse towerType "Unknown") defaultMaxLength)
    voltageNum
    zero
    (cleanString (orElse location "Unknown Location") defaultMaxLength)
    (cleanString (orElse substation "Unknown Substation") (Fin 80))
    (cleanString (orElse region "Unknown Region") defaultMaxLength)
    (cleanString (orElse status "Unknown Status") defaultMaxLength).

(** The last filter: [isValidCoords]. *)
Definition isValidCoords (tower : TowerData) : bool :=
  negb (eqNum (latitude tower) zero)
  && negb (eqNum (longitude tower) zero)
  && negb (isNaN (latitude tower))
  && negb (isNaN (longitude tower))
  && gt (abs (latitude tower)) (round (1 # 10))
  && gt (abs (longitude tower)) (round (1 # 10))
  && ge (latitude tower) (Fin (-90))
  && le (latitude tower) (Fin 90)
  && ge (longitude tower) (Fin (-180))
  && le (longitude tower) (Fin 180).

(** [l.map((x, index) => f(x, index))] *)
Fixpoint mapIndexed (A B : Type) (f : A -> nat -> B) (i : nat) (l : list A)
  : list B :=
  match l with
  | [] => []
  | x :: t => f x i :: mapIndexed f (S i) t
  end.

Definition processExcelData (rawData : list (obj value)) : list TowerData :=
  filter isValidCoords (mapIndexed toTower 0 (filter hasValidData rawData)).

(** [getMarkerColor] and [getMarkerSize] *)
Definition getMarkerColor (voltage : num) : string :=
  if ge voltage (Fin 500) then "#DC2626"
  else if ge voltage (Fin 150) then "#EA580C"
  else if ge voltage (Fin 70) then "#CA8A04"
  else "#059669".

Definition getMarkerSize (voltage : num) : num :=
  if ge voltage (Fin 500) then Fin 28
  else if ge voltage (Fin 150) then Fin 24
  else if ge voltage (Fin 70) then Fin 20
  else Fin 16.

End TowerMap.

(* ===================================================================== *)
(** * Vocabulary of the specification                                     *)
(* ===================================================================== *)

Module Spec.

Import JS.
Local Open Scope string_scope.

(** Two numbers denote the same quantity. *)
Definition sameNumber (x y : num) : Prop :=
  match x, y with
  | Fin a, Fin b => (a == b)%Q
  | PInf, PInf => True
  | NInf, NInf => True
  | NaN, NaN => True
  | _, _ => False
  end.

(** ** Chart series *)

(** The points of a series as the renderer reads them: the category under
    the key [xAxis], the value under the key [yAxis]. *)
Definition pointsOf (chart : Dashboard.ChartConfig) : list (value * value) :=
  map (fun p => (get p (Dashboard.xAxis chart), get p (Dashboard.yAxis chart)))
      (Dashboard.data chart).

(** The group of a row: the property key made from its category. *)
Definition groupKey (dimension : Dashboard.FieldInfo) (row : Dashboard.DataItem)
  : string :=
  ToString (Dashboard.categoryOf dimension row).

Definition inGroup (dimension : Dashboard.FieldInfo) (k : string)
           (row : Dashboard.DataItem) : bool :=
  String.eqb (groupKey dimension row) k.

(** The sum of the metric over the rows of group [k], in row order. *)
Definition groupSum (metric dimension : Dashboard.FieldInfo)
           (rows : list Dashboard.DataItem) (k : string) : num :=
  Dashboard.sum (map (Dashboard.metricOf metric)
                     (filter (inGroup dimension k) rows)).

(** The sum of the metric over all the rows. *)
Definition grandTotal (metric : Dashboard.FieldInfo)
           (rows : list Dashboard.DataItem) : num :=
  Dashboard.sum (map (Dashboard.metricOf metric) rows).

(** A point of group [k] with sum [v]. *)
Definition asPoint (entry : string * num) : value * value :=
  (VStr (fst entry), VNum (snd entry)).

(** [x] is at least [y], as numbers. *)
Definition atLeast (x y : num) : Prop := le y x = true.

(** Descending order of the second components. *)
Definition descending (l : list (string * num)) : Prop :=
  StronglySorted (fun p q => atLeast (snd p) (snd q)) l.

(** The groups of the rows: the distinct keys, in order of appearance. *)
Definition groupKeys (dimension : Dashboard.FieldInfo)
           (rows : list Dashboard.DataItem) : list string :=
  nodup string_dec (map (groupKey dimension) rows).

(** [entries] are the [n] best groups of the rows: at most [n] distinct
    groups, each with the sum of its rows, in descending order, and no
    group left out has a larger sum than a group kept. *)
Definition ranked (metric dimension : Dashboard.FieldInfo)
           (rows : list Dashboard.DataItem) (n : nat)
           (entries : list (string * num)) : Prop :=
  List.length entries = Nat.min n (List.length (groupKeys dimension rows))
  /\ NoDup (map fst entries)
  /\ (forall k v, In (k, v) entries ->
        In k (groupKeys dimension rows)
        /\ v = groupSum metric dimension rows k)
  /\ descending entries
  /\ (forall k', In k' (groupKeys dimension rows) ->
        ~ In k' (map fst entries) ->
        forall k v, In (k, v) entries ->
          atLeast v (groupSum metric dimension rows k')).

(** ** Geo records *)

(** The invariant of a record: both coordinates are finite, within range,
    farther than 0.1 from zero, and not zero. *)
Definition validCoordinate (bound : Q) (x : num) : Prop :=
  exists q : Q,
    x = Fin q /\ (- bound <= q)%Q /\ (q <= bound)%Q
    /\ (1 # 10 < Qabs q)%Q /\ ~ (q == 0)%Q.

Definition geoInvariant (tower : TowerMap.TowerData) : Prop :=
  validCoordinate 90 (TowerMap.latitude tower)
  /\ validCoordinate 180 (TowerMap.longitude tower).

(** The coordinates a row stands for do not depend on its position. *)
Definition rowAccepted (row : obj value) : bool :=
  TowerMap.hasValidData row
  && TowerMap.isValidCoords (TowerMap.toTower row 0).

(** ** The value cleaner, in the words of the specification *)

(** "Collapse runs of commas into one": a comma that follows a comma is
    dropped. *)
Fixpoint collapseRuns (afterComma : bool) (s : string) : string :=
  match s with
  | EmptyString => EmptyString
  | String c r =>
      if isComma c
      then if afterComma then collapseRuns true r
           else String c (collapseRuns true r)
      else String c (collapseRuns false r)
  end.

(** "Strip leading/trailing commas": one at the front, one at the end. *)
Definition stripLeading (s : string) : string :=
  match s with
  | String c r => if isComma c then r else s
  | EmptyString => s
  end.

Definition endsWithComma (s : string) : bool :=
  String.eqb (dropChars (String.length s - 1) s) ",".

Definition stripTrailing (s : string) : string :=
  if endsWithComma s then takeChars (String.length s - 1) s else s.

Definition cleaned (value : string) : string :=
  stripTrailing (stripLeading (collapseRuns false value)).

Fixpoint containsComma (s : string) : bool :=
  match s with
  | EmptyString => false
  | String c r => isComma c || containsComma r
  end.

(** The trimmed length is in the open interval [(3, maxLength)]. *)
Definition qualifies (maxLength : num) (segment : string) : bool :=
  lt (Fin 3) (TowerMap.lengthOf (trim segment))
  && lt (TowerMap.lengthOf (trim segment)) maxLength.

Definition exceeds (s : string) (maxLength : num) : bool :=
  lt maxLength (TowerMap.lengthOf s).

Definition ellipsis : string := "...".

(** The specification with the qualifying segment returned trimmed. *)
Definition clean (value : string) (maxLength : num) : string :=
  let c := cleaned value in
  if exceeds c maxLength && containsComma c then
    match find (qualifies maxLength) (splitComma c) with
    | Some segment => trim segment
    | None => trim (hd "" (splitComma c))
    end
  else if exceeds c maxLength
       then takeChars (TowerMap.substringEnd c maxLength) c ++ ellipsis
       else c.

(** The specification read to the letter: the qualifying segment is
    returned as it stands, only the fallback is trimmed. *)
Definition cleanToTheLetter (value : string) (maxLength : num) : string :=
  let c := cleaned value in
  if exceeds c maxLength && containsComma c then
    match find (qualifies maxLength) (splitComma c) with
    | Some segment => segment
    | None => trim (hd "" (splitComma c))
    end
  else if exceeds c maxLength
       then takeChars (TowerMap.substringEnd c maxLength) c ++ ellipsis
       else c.

(** ** The column resolver *)

(** Case apart, one of the two strings contains the other. *)
Definition overlap (key name : string) : Prop :=
  includes (toLowerCase key) (toLowerCase name) = true
  \/ includes (toLowerCase name) (toLowerCase key) = true.

(** A cell that is neither missing nor blank. *)
Definition nonBlank (v : value) : Prop :=
  v <> VUndefined /\ v <> VNull /\ trim (ToString v) <> "".

(** The row has the cell [v] under [key], [key] overlaps an alias of the
    list, and [v] is not blank. *)
Definition matchingCell (row : obj value) (possibleNames : list string)
           (key : string) (v : value) : Prop :=
  lookup row key = Some v
  /\ (exists name, In name possibleNames /\ overlap key name)
  /\ nonBlank v.

(** An alias that the row does not have as a key, and that names the
    member [member] of [Object.prototype]. *)
Definition inheritedCell (row : obj value) (possibleNames : list string)
           (name : string) (member : value) : Prop :=
  In name possibleNames
  /\ lookup row name = None
  /\ prototypeMember name = Some member.

(** ** Auxiliary notions of the proofs about the series *)

(** No row is grouped under the name of a member of [Object.prototype]
    ([constructor], [toString], [__proto__], ...). *)
Definition plainKeys (dimension : Dashboard.FieldInfo)
           (rows : list Dashboard.DataItem) : Prop :=
  forall row, In row rows -> prototypeMember (groupKey dimension row) = None.

(** The dictionary of the sums as numbers: what [aggregated] holds when
    the keys are plain. *)
Definition tallyRow (metric dimension : Dashboard.FieldInfo)
           (sums : obj num) (row : Dashboard.DataItem) : obj num :=
  let key := groupKey dimension row in
  let before :=
    match lookup sums key with
    | Some x => orZero x
    | None => zero
    end in
  assign sums key (add before (Dashboard.metricOf metric row)).

Definition tally (metric dimension : Dashboard.FieldInfo)
           (rows : list Dashboard.DataItem) : obj num :=
  fold_left (tallyRow metric dimension) rows [].

(** A sum as it is stored in the dictionary. *)
Definition stored (entry : string * num) : string * value :=
  (fst entry, VNum (snd entry)).

(** The comparator of the sort, read on the entries of the dictionary. *)
Definition inFront (x y : string * num) : bool :=
  negb (gt (sub (snd y) (snd x)) zero).

(** The entries behind the points of a chart. *)
Definition rankedEntries (metric dimension : Dashboard.FieldInfo)
           (rows : list Dashboard.DataItem) : list (string * num) :=
  firstn 10 (insertionSort inFront (own_entries (tally metric dimension rows))).

End Spec.

(* ===================================================================== *)
(** * Sample inputs                                                       *)
(* ===================================================================== *)

Module Examples.

Import JS Dashboard.
Local Open Scope string_scope.

(** A field descriptor with the given name and roles. *)
Definition field (n : string) (m d : bool) : FieldInfo :=
  mkFieldInfo n (if m then number else category) m d 0 [] None None None None.

Definition exampleFields : list FieldInfo :=
  [field "region" false true; field "amt" true false].

(** The rows of the sample series of the specification. *)
Definition exampleRows : list DataItem :=
  [ [("region", VStr "A"); ("amt", VNum (Fin 10))];
    [("region", VStr "B"); ("amt", VNum (Fin 30))];
    [("region", VStr "A"); ("amt", VNum (Fin 5))] ].

(** Rows in which the cells of group B read [Infinity] and [-Infinity]. *)
Definition divergentRows : list DataItem :=
  [ [("region", VStr "A"); ("amt", VNum (Fin 1))];
    [("region", VStr "B"); ("amt", VStr "Infinity")];
    [("region", VStr "B"); ("amt", VStr "-Infinity")];
    [("region", VStr "C"); ("amt", VNum (Fin 2))] ].

(** Rows in which the cells of group B overflow. *)
Definition overflowRows : list DataItem :=
  [ [("region", VStr "A"); ("amt", VNum (Fin 1))];
    [("region", VStr "B"); ("amt", VStr "1e999")];
    [("region", VStr "B"); ("amt", VStr "-1e999")];
    [("region", VStr "C"); ("amt", VNum (Fin 2))] ].

(** A row whose category is the name of a member of [Object.prototype]. *)
Definition inheritedRows : list DataItem :=
  [ [("region", VStr "constructor"); ("amt", VNum (Fin 10))] ].

(** Rows of one group whose sum is [NaN]. *)
Definition divergentGroup : list DataItem :=
  [ [("region", VStr "A"); ("amt", VStr "Infinity")];
    [("region", VStr "A"); ("amt", VStr "-Infinity")] ].

(** Rows of one group whose running sum passes through [NaN]. *)
Definition resetRows : list DataItem :=
  [ [("region", VStr "A"); ("amt", VStr "Infinity")];
    [("region", VStr "A"); ("amt", VStr "-Infinity")];
    [("region", VStr "A"); ("amt", VNum (Fin 5))] ].

(** The currency column of the specification. *)
Definition currencyColumn : list value :=
  [VStr "$100.00"; VStr "$250.50"; VStr "$75.25"].

(** A row whose latitude reads ["0"]. *)
Definition zeroLatitudeRow : obj value :=
  [("Latitude", VStr "0"); ("Longitude", VStr "107.5");
   ("Nama Lokasi", VStr "Gardu Cibatu"); ("Tegangan", VStr "150 kV")].

(** A long cell whose first segment is padded with blanks. *)
Definition paddedInput : string :=
  " abcd ,this tail is long enough to push the whole cell over fifty characters".

(** A row of a tower file with a decimal comma. *)
Definition sampleTowerRow : obj value :=
  [("Latitude", VStr "-6,5"); ("Longitude", VStr "107.5");
   ("Nama Lokasi", VStr "Cibatu"); ("Tegangan", VStr "150 kV")].

(** A row of 500 kV. *)
Definition highVoltageRow : obj value :=
  [("Latitude", VStr "-7.25"); ("Longitude", VStr "112.75");
   ("Nama Lokasi", VStr "Krian"); ("Tegangan", VStr "500 kV")].

(** A row whose voltage is written with a sign. *)
Definition negativeVoltageRow : obj value :=
  [("Latitude", VStr "-6.5"); ("Longitude", VStr "107.5");
   ("Nama Lokasi", VStr "Cibatu"); ("Tegangan", VStr "-150 kV")].

(** The records of two rows. *)
Definition sampleTowers : list TowerMap.TowerData :=
  TowerMap.processExcelData [sampleTowerRow; highVoltageRow].

(** Two rows of a worksheet, before cleaning. *)
Definition sampleSheet : list DataItem :=
  [ [(" Status ", VStr " ok "); ("Jumlah", VStr "$1,234.50")];
    [(" Status ", VStr "bad"); ("Jumlah", VStr "7")] ].

End Examples.

(* ===================================================================== *)
(** * The tower map: reading files, filters and statistics                *)
(* ===================================================================== *)

Module TowerView.

Import JS TowerMap.
Local Open Scope string_scope.

(** ** [parseCSVData] *)

(** [s.split(d)] for a separator of one character. *)
Fixpoint splitChar (d : ascii) (s : string) : list string :=
  match s with
  | EmptyString => [EmptyString]
  | String c r =>
      if Ascii.eqb c d then EmptyString :: splitChar d r
      else match splitChar d r with
           | h :: t => String c h :: t
           | [] => [String c EmptyString]
           end
  end.

Definition newline : ascii := ascii_of_nat 10.
Definition tab : ascii := ascii_of_nat 9.
Definition quote : ascii := ascii_of_nat 34.

(** [s.trim()] with every double quote removed (the second [replace] of
    the source, global, on the character of code 34). *)
Definition unquote (s : string) : string :=
  removeChars (fun c => Ascii.eqb c quote) (trim s).

(** [values[index] || ""] *)
Definition cellAt (values : list string) (index : nat) : string :=
  nth index values "".

(** [headers.forEach((header, index) => { row[header] = ... })] from the
    empty object, [index] counting from [i]. *)
Fixpoint fillRow (row : obj value) (headers : list string) (i : nat)
         (values : list string) : obj value :=
  match headers with
  | [] => row
  | header :: rest =>
      fillRow (put row header (VStr (cellAt values i))) rest (S i) values
  end.

Definition parseCSVData (csvText : string) : list (obj value) :=
  let lines := filter (fun line => negb (isEmpty (trim line)))
                      (splitChar newline csvText) in
  if (List.length lines <? 2)%nat then []
  else
    match lines with
    | [] => []
    | firstLine :: rest =>
        let separator :=
          if includes firstLine (String tab EmptyString) then tab
          else ","%char in
        let headers := map unquote (splitChar separator firstLine) in
        map (fun line =>
               fillRow [] headers 0 (map unquote (splitChar separator line)))
            rest
    end.

(** ** The filters of the side panel *)

(** The search box: one of four fields holds the query, case apart. *)
Definition matchesSearch (searchQuery : string) (tower : TowerData) : bool :=
  includes (toLowerCase (locationName tower)) (toLowerCase searchQuery)
  || includes (toLowerCase (unitName tower)) (toLowerCase searchQuery)
  || includes (toLowerCase (substation tower)) (toLowerCase searchQuery)
  || includes (toLowerCase (region tower)) (toLowerCase searchQuery).

(** The [switch] over [voltageFilter]. *)
Definition inVoltageBand (voltageFilter : string) (voltage : num) : bool :=
  if String.eqb voltageFilter "500+" then ge voltage (Fin 500)
  else if String.eqb voltageFilter "150-499"
       then ge voltage (Fin 150) && lt voltage (Fin 500)
  else if String.eqb voltageFilter "70-149"
       then ge voltage (Fin 70) && lt voltage (Fin 150)
  else if String.eqb voltageFilter "<70" then lt voltage (Fin 70)
  else true.

Definition matchesRegion (regionFilter : string) (tower : TowerData) : bool :=
  includes (toLowerCase (region tower)) (toLowerCase regionFilter).

Definition matchesStatus (statusFilter : string) (tower : TowerData) : bool :=
  includes (toLowerCase (status tower)) (toLowerCase statusFilter).

(** [if (cond) filtered = filtered.filter(test)] *)
Definition filterWhen (cond : bool) (test : TowerData -> bool)
           (filtered : list TowerData) : list TowerData :=
  if cond then filter test filtered else filtered.

(** The effect that computes [filteredTowers]. *)
Definition applyFilters (towers : list TowerData)
           (searchQuery voltageFilter regionFilter statusFilter : string)
  : list TowerData :=
  let filtered := towers in
  let filtered :=
    filterWhen (negb (isEmpty (trim searchQuery)))
               (matchesSearch searchQuery) filtered in
  let filtered :=
    filterWhen (negb (isEmpty voltageFilter))
               (fun tower => inVoltageBand voltageFilter (voltage tower))
               filtered in
  let filtered :=
    filterWhen (negb (isEmpty regionFilter))
               (matchesRegion regionFilter) filtered in
  let filtered :=
    filterWhen (negb (isEmpty statusFilter))
               (matchesStatus statusFilter) filtered in
  filtered.

(** The filter in front of [fitBounds]. *)
Definition fitsBounds (tower : TowerData) : bool :=
  truthyNum (latitude tower)
  && truthyNum (longitude tower)
  && negb (isNaN (latitude tower))
  && negb (isNaN (longitude tower))
  && gt (abs (latitude tower)) (round (1 # 10))
  && gt (abs (longitude tower)) (round (1 # 10)).

(** ** [getUniqueRegions], [getUniqueStatuses] *)

(** [[...new Set(l)]] on strings. *)
Fixpoint uniqueFrom (seen l : list string) : list string :=
  match l with
  | [] => []
  | s :: t =>
      if existsb (String.eqb s) seen then uniqueFrom seen t
      else s :: uniqueFrom (s :: seen) t
  end.

(** [l.sort()] on strings: the order of the code units; [x] stays in front
    of [y] unless [y < x]. *)
Definition sortStrings (l : list string) : list string :=
  insertionSort (fun x y => negb (String.ltb y x)) l.

(** [[...new Set(l)].filter(Boolean).sort()] *)
Definition uniqueSorted (l : list string) : list string :=
  sortStrings (filter (fun s => negb (isEmpty s)) (uniqueFrom [] l)).

Definition getUniqueRegions (towers : list TowerData) : list string :=
  uniqueSorted (map region towers).

Definition getUniqueStatuses (towers : list TowerData) : list string :=
  uniqueSorted (map status towers).

(** ** [getTowerStats] *)

(** The keys ["500+"], ["150-499"], ["70-149"] and ["<70"] of the source
    are not identifiers. *)
Record TowerStats : Type := mkTowerStats {
  total : nat;
  atLeast500 : nat;
  from150to499 : nat;
  from70to149 : nat;
  below70 : nat
}.

Definition countWhere (test : num -> bool) (towers : list TowerData) : nat :=
  List.length (filter (fun t => test (voltage t)) towers).

Definition getTowerStats (filteredTowers : list TowerData) : TowerStats :=
  mkTowerStats
    (List.length filteredTowers)
    (countWhere (fun v => ge v (Fin 500)) filteredTowers)
    (countWhere (fun v => ge v (Fin 150) && lt v (Fin 500)) filteredTowers)
    (countWhere (fun v => ge v (Fin 70) && lt v (Fin 150)) filteredTowers)
    (countWhere (fun v => lt v (Fin 70)) filteredTowers).

End TowerView.

(* ===================================================================== *)
(** * The Excel dashboard: files                                          *)
(* ===================================================================== *)

Module Files.

Import JS Dashboard.
Local Open Scope string_scope.

Record FileData : Type := mkFileData {
  id : string;
  name : string;
  data : list DataItem;
  fields : list FieldInfo;
  chart : option ChartConfig;
  totalRows : nat;
  totalColumns : nat;
  fileSize : option string
}.

(** The class [[\d,.]]. *)
Definition isNumberChar (c : ascii) : bool :=
  isDigit c || Ascii.eqb c "," || Ascii.eqb c ".".

Fixpoint allNumberChars (s : string) : bool :=
  match s with
  | EmptyString => true
  | String c r => isNumberChar c && allNumberChars r
  end.

(** The test [/^\$?[\d,.]+$/]. *)
Definition looksNumeric (s : string) : bool :=
  let body := match s with
              | String c r => if Ascii.eqb c "$" then r else s
              | EmptyString => s
              end in
  negb (isEmpty body) && allNumberChars body.

(** [s.replace(/[$,]/g, "")] *)
Definition stripDollarComma (s : string) : string :=
  removeChars (fun c => Ascii.eqb c "$" || Ascii.eqb c ",") s.

(** The treatment of one cell: a string is trimmed, and replaced by the
    number it reads as when it is made of digits, commas and periods. *)
Definition cleanValue (v : value) : value :=
  match v with
  | VStr s =>
      let trimmed := trim s in
      let numValue := parseFloat (stripDollarComma trimmed) in
      if negb (isNaN numValue) && looksNumeric trimmed
      then VNum numValue else VStr trimmed
  | _ => v
  end.

(** [Object.keys(row).forEach((key) => { cleanRow[key.trim()] = ... })]:
    the own properties of [cleanRow]. *)
Definition cleanRow (row : DataItem) : DataItem :=
  fst (fold_left (fun cleaned key => putAny cleaned (trim key)
                                            (cleanValue (get row key)))
                 (own_keys row) ([], true)).

Definition processFileData (rawData : list DataItem)
           (fileName fileId : string) (fileSize : option string) : FileData :=
  if (List.length rawData =? 0)%nat then
    mkFileData fileId fileName [] [] None 0 0 fileSize
  else
    let cleanedData := map cleanRow rawData in
    let fieldNames := own_keys (hd [] cleanedData) in
    let fields :=
      map (fun name =>
             analyzeField (map (fun row => get row name) cleanedData) name)
          fieldNames in
    let chart := generateBarChart cleanedData fields fileName fileId in
    mkFileData fileId fileName cleanedData fields chart
               (List.length cleanedData) (List.length fieldNames) fileSize.

(** ** The rows of a worksheet

    [rows.map((row) => { headers.forEach((header, index) => {
       obj[header] = row[index] !== undefined ? row[index] : null }) })]:
    a worksheet row is an array whose cells may be missing. *)
Definition sheetCell (row : list value) (index : nat) : value :=
  match nth index row VUndefined with
  | VUndefined => VNull
  | v => v
  end.

Fixpoint formatRow (state : obj value * bool) (headers : list string)
         (i : nat) (row : list value) : obj value * bool :=
  match headers with
  | [] => state
  | header :: rest =>
      formatRow (putAny state header (sheetCell row i)) rest (S i) row
  end.

(** The own properties of the rows. *)
Definition formatRows (headers : list string) (rows : list (list value))
  : list DataItem :=
  map (fun row => fst (formatRow ([], true) headers 0 row)) rows.

(** ** [toggleFileExpansion]

    [expandedFiles] is a [Set] of file ids: a list without repetition, in
    insertion order. *)
Definition toggleFileExpansion (expandedFiles : list string)
           (fileId : string) : list string :=
  if existsb (String.eqb fileId) expandedFiles
  then filter (fun x => negb (String.eqb x fileId)) expandedFiles
  else expandedFiles ++ [fileId].

(** ** The colours of the bars *)

Definition chartColors : list string :=
  ["#8884d8"; "#82ca9d"; "#ffc658"; "#ff7300"; "#0088fe"; "#00c49f";
   "#ffbb28"; "#ff8042"; "#8dd1e1"; "#d084d0"; "#87d068"; "#ffa39e";
   "#b7eb8f"; "#ffd666"; "#ff9c6e"].

(** [chartColors[index % chartColors.length]] *)
Definition barColor (index : nat) : string :=
  nth (index mod List.length chartColors) chartColors "".

(** The colours of the cells of a chart, in the order of its points. *)
Definition barColors (config : ChartConfig) : list string :=
  map barColor (seq 0 (List.length (Dashboard.data config))).

End Files.

(* ===================================================================== *)
(** * Vocabulary of the further properties                                *)
(* ===================================================================== *)

Module ViewSpec.

Import JS TowerMap TowerView.
Local Open Scope string_scope.

(** The towers shown under the four filters of the panel: a blank query
    shows everything. *)
Definition shownBy (searchQuery voltageFilter regionFilter statusFilter : string)
           (tower : TowerData) : bool :=
  (isEmpty (trim searchQuery) || matchesSearch searchQuery tower)
  && inVoltageBand voltageFilter (voltage tower)
  && matchesRegion regionFilter tower
  && matchesStatus statusFilter tower.

(** The keys of an object after the properties [headers] were assigned,
    in this order, to an object of keys [keys]. *)
Fixpoint keysAfter (keys headers : list string) : list string :=
  match headers with
  | [] => keys
  | header :: rest =>
      keysAfter (if existsb (String.eqb header) keys then keys
                 else keys ++ [header])%list rest
  end.

(** The lines of a text that hold more than white space. *)
Definition nonBlankLines (csvText : string) : list string :=
  filter (fun line => negb (isEmpty (trim line))) (splitChar newline csvText).

(** [x] does not come after [y] in the order of strings. *)
Definition notAfter (x y : string) : bool := negb (String.ltb y x).

(** No two commas side by side. *)
Fixpoint spaced (s : string) : bool :=
  match s with
  | EmptyString => true
  | String c r =>
      match r with
      | String d _ => negb (isComma c && isComma d)
      | EmptyString => true
      end && spaced r
  end.

Definition startsWithComma (s : string) : bool :=
  match s with
  | String c _ => isComma c
  | EmptyString => false
  end.

(** Commas in normal form: no run of commas, none in front, none at the
    end. *)
Definition tidy (s : string) : Prop :=
  spaced s = true /\ startsWithComma s = false
  /\ Spec.endsWithComma s = false.

End ViewSpec.

(* ===================================================================== *)
(** * Properties                                                          *)
(* ===================================================================== *)

Import JS Dashboard TowerMap Spec Examples.
Local Open Scope string_scope.
Local Open Scope list_scope.
Unset Implicit Arguments.

Ltac split_ifs :=
  repeat match goal with
         | |- context [if ?c then _ else _] => destruct c
         end.

(** ** Selection of the fields *)

Lemma filter_head_find (A : Type) (p : A -> bool) (l : list A) :
  find p l = hd_error (filter p l).
Proof.
  induction l as [| x t IH]; simpl; [reflexivity |].
  destruct (p x); simpl; auto.
Qed.

Lemma find_none_iff (A : Type) (p : A -> bool) (l : list A) :
  find p l = None <-> forall x, In x l -> p x = false.
Proof.
  split.
  - intros H x Hx. apply (find_none p l H x Hx).
  - induction l as [| y t IH]; simpl; intros H; [reflexivity |].
    rewrite (H y (or_introl eq_refl)). apply IH. intros x Hx. apply H. now right.
Qed.

Lemma generateBarChart_find data fields fileName fileId :
  generateBarChart data fields fileName fileId =
  match find isMetric fields, find isDimension fields with
  | Some metric, Some dimension => Some (chartOf metric dimension data fileId)
  | _, _ => None
  end.
Proof.
  unfold generateBarChart. rewrite !filter_head_find.
  destruct (filter isMetric fields) as [| m ms];
    destruct (filter isDimension fields) as [| d ds]; reflexivity.
Qed.

(** ** Aggregation *)

Lemma lookup_assign_same (A : Type) (o : obj A) k v :
  lookup (assign o k v) k = Some v.
Proof.
  induction o as [| [k' v'] t IH]; simpl.
  - now rewrite String.eqb_refl.
  - destruct (String.eqb k' k) eqn:E; simpl; rewrite E; auto.
Qed.

Lemma lookup_assign_other (A : Type) (o : obj A) k k' v :
  k' <> k -> lookup (assign o k v) k' = lookup o k'.
Proof.
  intros Hne. induction o as [| [k0 v0] t IH]; simpl.
  - destruct (String.eqb k k') eqn:E; [apply String.eqb_eq in E; congruence | reflexivity].
  - destruct (String.eqb k0 k) eqn:E; simpl.
    + apply String.eqb_eq in E. subst k0.
      destruct (String.eqb k k') eqn:E'; [apply String.eqb_eq in E'; congruence | reflexivity].
    + destruct (String.eqb k0 k'); auto.
Qed.

Lemma keys_assign (A : Type) (o : obj A) k v :
  map fst (assign o k v) = if existsb (String.eqb k) (map fst o) then map fst o else map fst o ++ [k].
Proof.
  induction o as [| [k' v'] t IH]; simpl; [reflexivity |].
  rewrite (String.eqb_sym k k').
  destruct (String.eqb k' k) eqn:E; simpl; [reflexivity |].
  rewrite IH. destruct (existsb _ _); reflexivity.
Qed.
(** ** Order and sums of numbers *)

Lemma lt_Fin a b : lt (Fin a) (Fin b) = true <-> (a < b)%Q.
Proof.
  simpl. rewrite negb_true_iff. split.
  - intros H. apply Qnot_le_lt. rewrite <- Qle_bool_iff. congruence.
  - intros H. destruct (Qle_bool b a) eqn:E; [| reflexivity].
    apply Qle_bool_iff in E. lra.
Qed.

Lemma le_Fin a b : le (Fin a) (Fin b) = true <-> (a <= b)%Q.
Proof.
  unfold le. rewrite orb_true_iff, lt_Fin. simpl. rewrite Qeq_bool_iff.
  split; [intros [H | H]; lra |].
  intros H. destruct (Qlt_le_dec a b); [now left | right; lra].
Qed.

Lemma le_refl x : isNaN x = false -> le x x = true.
Proof.
  destruct x; intros H; try reflexivity; try discriminate.
  apply le_Fin. lra.
Qed.

Lemma le_total x y :
  isNaN x = false -> isNaN y = false -> le x y = false -> le y x = true.
Proof.
  destruct x as [a | | |], y as [b | | |]; intros Hx Hy H;
    try reflexivity; try discriminate.
  apply le_Fin. destruct (Qlt_le_dec a b) as [L | L]; [| exact L].
  assert (le (Fin a) (Fin b) = true) by (apply le_Fin; lra). congruence.
Qed.

Lemma le_trans x y z :
  le x y = true -> le y z = true -> le x z = true.
Proof.
  destruct x as [a | | |], y as [b | | |], z as [c | | |]; intros H1 H2;
    try reflexivity; try discriminate.
  apply le_Fin. apply le_Fin in H1, H2. lra.
Qed.

Lemma le_not_NaN x y : le x y = true -> isNaN x = false /\ isNaN y = false.
Proof. destruct x, y; intros H; try discriminate; split; reflexivity. Qed.

(** ** Rounding *)

Lemma pow2_pos e : (0 < pow2 e)%Q.
Proof.
  unfold pow2. destruct (0 <=? e)%Z eqn:E.
  - apply Z.leb_le in E. unfold Qlt. simpl. rewrite Z.mul_1_r.
    apply Z.pow_pos_nonneg; lia.
  - reflexivity.
Qed.

Lemma nearestEven_nonneg m : (0 <= m)%Q -> (0 <= nearestEven m)%Z.
Proof.
  intros H. unfold nearestEven.
  assert (0 <= Qfloor m)%Z.
  { change 0%Z with (Qfloor 0). now apply Qfloor_resp_le. }
  destruct (_ ?= _)%Q; [destruct (Z.even _) |..]; lia.
Qed.

(** A positive number rounds to a number that is not negative, and to a
    positive one under a least unit. *)
Lemma roundPositive_cases least q :
  (0 <= least)%Z -> (0 < q)%Q ->
  roundPositive least q = PInf
  \/ exists v, roundPositive least q = Fin v /\ (0 <= v)%Q
               /\ ((0 < least)%Z -> (0 < v)%Q).
Proof.
  intros Hl Hq. unfold roundPositive.
  cbv zeta. set (ulp := pow2 (Z.max (-1022) (floorLog2 q) - 52)). set (n := Z.max least _).
  destruct (Qle_bool _ _); [now left | right].
  assert (Hu : (0 < ulp)%Q) by apply pow2_pos.
  assert (Hn : (0 <= n)%Z).
  { unfold n. apply Z.max_le_iff. now left. }
  exists (Qred (inject_Z n * ulp)). split; [reflexivity |].
  rewrite Qred_correct. split.
  - apply Qmult_le_0_compat; [| lra].
    change 0%Q with (inject_Z 0). now rewrite <- Zle_Qle.
  - intros L. apply Qmult_lt_0_compat; [| exact Hu].
    change 0%Q with (inject_Z 0). rewrite <- Zlt_Qlt. unfold n. lia.
Qed.

Lemma roundFrom_compat least p q : (p == q)%Q -> roundFrom least p = roundFrom least q.
Proof. intros H. unfold roundFrom. now rewrite (Qred_complete _ _ H). Qed.

Lemma roundFrom_not_NaN least q : isNaN (roundFrom least q) = false.
Proof.
  unfold roundFrom, roundPositive.
  destruct (Qsign _); [reflexivity | |];
    destruct (Qle_bool _ _); reflexivity.
Qed.

(** A sum keeps its sign. *)
Lemma roundFrom_positive q : lt zero (roundFrom 1 q) = negb (Qle_bool q 0).
Proof.
  unfold roundFrom, Qsign.
  destruct (Qred q ?= 0)%Q eqn:C.
  - apply Qeq_alt in C. rewrite Qred_correct in C.
    assert (Qle_bool q 0 = true) by (apply Qle_bool_iff; lra).
    rewrite H. reflexivity.
  - apply Qlt_alt in C. rewrite Qred_correct in C.
    assert (Qle_bool q 0 = true) by (apply Qle_bool_iff; lra).
    rewrite H.
    assert (P : (0 < Qred (- Qred q))%Q) by (rewrite !Qred_correct; lra).
    destruct (roundPositive_cases 1 (Qred (- Qred q)) ltac:(lia) P)
      as [E | (v & E & _ & Hv)]; rewrite E; [reflexivity |].
    specialize (Hv ltac:(lia)). unfold neg, zero.
    destruct (lt (Fin 0) (Fin (Qred (- v)))) eqn:L; [| reflexivity].
    apply lt_Fin in L. rewrite Qred_correct in L. lra.
  - apply Qgt_alt in C. rewrite Qred_correct in C.
    assert (Qle_bool q 0 = false).
    { destruct (Qle_bool q 0) eqn:E; [| reflexivity]. apply Qle_bool_iff in E. lra. }
    rewrite H.
    assert (P : (0 < Qred q)%Q) by (rewrite Qred_correct; lra).
    destruct (roundPositive_cases 1 (Qred q) ltac:(lia) P)
      as [E | (v & E & _ & Hv)]; rewrite E; [reflexivity |].
    apply lt_Fin. apply Hv. lia.
Qed.

(** A number that is not negative rounds to one that is not negative. *)
Lemma roundFrom_nonneg least q :
  (0 <= least)%Z -> (0 <= q)%Q -> lt (roundFrom least q) zero = false.
Proof.
  intros Hl H. unfold roundFrom, Qsign.
  destruct (Qred q ?= 0)%Q eqn:C.
  - reflexivity.
  - apply Qlt_alt in C. rewrite Qred_correct in C. lra.
  - apply Qgt_alt in C. rewrite Qred_correct in C.
    assert (P : (0 < Qred q)%Q) by (rewrite Qred_correct; lra).
    destruct (roundPositive_cases least (Qred q) Hl P)
      as [E | (v & E & Hv & _)]; rewrite E; [reflexivity |].
    unfold zero. destruct (lt (Fin v) (Fin 0)) eqn:L; [| reflexivity].
    apply lt_Fin in L. lra.
Qed.

(** The comparator [b - a] orders like [<=]: it is positive exactly when
    [a < b]. *)
Lemma difference_positive a b :
  isNaN a = false -> isNaN b = false ->
  negb (gt (sub b a) zero) = le b a.
Proof.
  destruct a as [p | | |], b as [q | | |]; intros Ha Hb;
    try reflexivity; try discriminate.
  unfold gt, sub, neg, add. rewrite roundFrom_positive, negb_involutive.
  destruct (le (Fin q) (Fin p)) eqn:E.
  - apply le_Fin in E. apply Qle_bool_iff. rewrite Qred_correct. lra.
  - destruct (Qle_bool _ _) eqn:L; [| reflexivity].
    apply Qle_bool_iff in L. rewrite Qred_correct in L.
    assert (le (Fin q) (Fin p) = true) by (apply le_Fin; lra). congruence.
Qed.

Lemma add_NaN_l x : add NaN x = NaN.
Proof. reflexivity. Qed.

Lemma add_not_NaN x y : isNaN (add x y) = false -> isNaN x = false.
Proof. destruct x; auto. Qed.

(** [x || 0] changes nothing under an addition unless [x] is [NaN]. *)
Lemma add_orZero x y : isNaN x = false -> add (orZero x) y = add x y.
Proof.
  destruct x as [a | | |]; intros H; try reflexivity; try discriminate.
  unfold orZero, truthyNum. destruct (Qeq_bool a 0) eqn:E; simpl; [| reflexivity].
  apply Qeq_bool_iff in E. destruct y as [b | | |]; try reflexivity.
  apply roundFrom_compat. rewrite E. reflexivity.
Qed.

Lemma sum_app l x : sum (l ++ [x]) = add (sum l) x.
Proof. unfold sum. now rewrite fold_left_app. Qed.

(** ** The stable sort *)

Section InsertionSort.

Variable A : Type.
Variable before : A -> A -> bool.

Lemma insertSorted_perm x l : Permutation (x :: l) (insertSorted before x l).
Proof.
  induction l as [| y t IH]; simpl; [apply Permutation_refl |].
  destruct (before x y); [apply Permutation_refl |].
  eapply perm_trans; [apply perm_swap |]. now apply perm_skip.
Qed.

Lemma insertionSort_perm l : Permutation l (insertionSort before l).
Proof.
  induction l as [| x t IH]; simpl; [apply perm_nil |].
  eapply perm_trans; [apply perm_skip, IH | apply insertSorted_perm].
Qed.

(** Sortedness needs the order to be total and transitive only on the
    elements that occur ([ok]). *)
Variable ok : A -> Prop.
Hypothesis before_total :
  forall x y, ok x -> ok y -> before x y = false -> before y x = true.
Hypothesis before_trans :
  forall x y z, ok x -> ok y -> ok z ->
                before x y = true -> before y z = true -> before x z = true.

Let ordered (x y : A) : Prop := before x y = true.

Lemma insertSorted_sorted x l :
  ok x -> Forall ok l ->
  StronglySorted ordered l -> StronglySorted ordered (insertSorted before x l).
Proof.
  intros Hx Hl Hs. induction Hs as [| y t Ht IH Hy]; simpl.
  - constructor; [constructor | constructor].
  - inversion Hl as [| ? ? Hoky Hokt]; subst.
    destruct (before x y) eqn:E.
    + constructor; [constructor; assumption |].
      constructor; [exact E |].
      rewrite Forall_forall in Hy, Hokt |- *. intros z Hz.
      apply (before_trans x y z Hx Hoky (Hokt z Hz) E (Hy z Hz)).
    + constructor; [apply IH; assumption |].
      apply (Permutation_Forall (insertSorted_perm x t)).
      constructor; [| exact Hy].
      apply before_total; assumption.
Qed.

Lemma insertionSort_sorted l :
  Forall ok l -> StronglySorted ordered (insertionSort before l).
Proof.
  induction l as [| x t IH]; intros H; simpl; [constructor |].
  inversion H; subst.
  apply insertSorted_sorted; auto.
  apply (Permutation_Forall (insertionSort_perm t)). assumption.
Qed.

End InsertionSort.

Lemma insertionSort_map (A B : Type) (f : A -> B)
      (beforeA : A -> A -> bool) (beforeB : B -> B -> bool) l :
  (forall x y, beforeB (f x) (f y) = beforeA x y) ->
  insertionSort beforeB (map f l) = map f (insertionSort beforeA l).
Proof.
  intros H. induction l as [| x t IH]; simpl; [reflexivity |].
  rewrite IH. generalize (insertionSort beforeA t). intros s.
  induction s as [| y u IHu]; simpl; [reflexivity |].
  rewrite H. destruct (beforeA x y); simpl; [reflexivity | now rewrite IHu].
Qed.

Lemma filter_partition_perm (A : Type) (p : A -> bool) (l : list A) :
  Permutation (filter p l ++ filter (fun x => negb (p x)) l) l.
Proof.
  induction l as [| x t IH]; simpl; [apply perm_nil |].
  destruct (p x); simpl.
  - now apply perm_skip.
  - apply Permutation_sym. eapply perm_trans.
    + apply perm_skip, Permutation_sym, IH.
    + apply Permutation_middle.
Qed.

Lemma own_entries_perm (A : Type) (o : obj A) : Permutation (own_entries o) o.
Proof.
  unfold own_entries.
  eapply perm_trans;
    [| apply filter_partition_perm with (p := fun e => isIndexKey (fst e))].
  apply Permutation_app_tail, Permutation_sym, insertionSort_perm.
Qed.

(** The sorted list splits into what [firstn] keeps and what it leaves. *)
Lemma sorted_firstn (A : Type) (R : A -> A -> Prop) n (l : list A) :
  StronglySorted R l ->
  StronglySorted R (firstn n l)
  /\ forall x y, In x (firstn n l) -> In y (skipn n l) -> R x y.
Proof.
  intros H. revert n. induction H as [| a t Ht IH Ha]; intros n.
  - rewrite firstn_nil, skipn_nil. split; [constructor | intros x y []].
  - destruct n as [| n]; simpl.
    + split; [constructor | intros x y []].
    + destruct (IH n) as [S1 S2]. split.
      * constructor; [exact S1 |].
        rewrite Forall_forall in Ha |- *. intros x Hx.
        apply Ha. rewrite <- (firstn_skipn n t). apply in_or_app. now left.
      * intros x y [<- | Hx] Hy.
        -- rewrite Forall_forall in Ha. apply Ha.
           rewrite <- (firstn_skipn n t). apply in_or_app. now right.
        -- now apply S2.
Qed.

(** ** The aggregation loop *)

Lemma existsb_eqb_In k l : existsb (String.eqb k) l = true <-> In k l.
Proof.
  rewrite existsb_exists. split.
  - intros [x [Hx E]]. apply String.eqb_eq in E. now subst.
  - intros H. exists k. split; [exact H | apply String.eqb_refl].
Qed.

Lemma lookup_In (A : Type) (o : obj A) k v :
  NoDup (map fst o) -> In (k, v) o -> lookup o k = Some v.
Proof.
  induction o as [| [k' v'] t IH]; simpl; intros Hn Hin; [contradiction |].
  inversion Hn as [| ? ? Hnot Hnt]; subst.
  destruct Hin as [E | Hin].
  - inversion E; subst. now rewrite String.eqb_refl.
  - destruct (String.eqb k' k) eqn:E; [| auto].
    apply String.eqb_eq in E. subst k'. exfalso. apply Hnot.
    apply in_map_iff. exists (k, v). auto.
Qed.

Lemma filter_none (A : Type) (p : A -> bool) (l : list A) :
  existsb p l = false -> filter p l = [].
Proof.
  induction l as [| x t IH]; simpl; [reflexivity |].
  destruct (p x); simpl; [discriminate | exact IH].
Qed.

(** The sums as they are stored. *)
Lemma plus_numbers x y : plus (VNum x) (VNum y) = VNum (add x y).
Proof. reflexivity. Qed.

Lemma put_plain o k v : prototypeMember k = None -> put o k v = assign o k v.
Proof.
  intros H. unfold put. destruct (String.eqb k "__proto__") eqn:E; [| reflexivity].
  apply String.eqb_eq in E. subst k. discriminate H.
Qed.

Lemma lookup_stored (o : obj num) k :
  lookup (map stored o) k = option_map VNum (lookup o k).
Proof.
  induction o as [| [k' x] t IH]; simpl; [reflexivity |].
  destruct (String.eqb k' k); [reflexivity | exact IH].
Qed.

Lemma assign_stored (o : obj num) k x :
  assign (map stored o) k (VNum x) = map stored (assign o k x).
Proof.
  induction o as [| [k' y] t IH]; simpl; [reflexivity |].
  destruct (String.eqb k' k); simpl; [reflexivity | now rewrite IH].
Qed.

Lemma filter_map_fst (A B : Type) (f : string * A -> string * B)
      (p : string -> bool) l :
  (forall e, fst (f e) = fst e) ->
  filter (fun e => p (fst e)) (map f l) = map f (filter (fun e => p (fst e)) l).
Proof.
  intros H. induction l as [| x t IH]; simpl; [reflexivity |].
  rewrite H. destruct (p (fst x)); simpl; now rewrite IH.
Qed.

Lemma own_entries_stored (o : obj num) :
  own_entries (map stored o) = map stored (own_entries o).
Proof.
  unfold own_entries. rewrite map_app. f_equal.
  - rewrite (filter_map_fst _ _ stored isIndexKey) by reflexivity.
    apply insertionSort_map. reflexivity.
  - apply (filter_map_fst _ _ stored (fun k => negb (isIndexKey k))).
    reflexivity.
Qed.

Section Aggregation.

Variables metric dimension : FieldInfo.

Lemma aggregate_snoc rows row :
  aggregate metric dimension (rows ++ [row])
  = aggregateRow metric dimension (aggregate metric dimension rows) row.
Proof. unfold aggregate. now rewrite fold_left_app. Qed.

Lemma aggregate_total rows :
  snd (aggregate metric dimension rows) = grandTotal metric rows.
Proof.
  induction rows as [| row rows IH] using rev_ind; [reflexivity |].
  rewrite aggregate_snoc. unfold grandTotal in *.
  rewrite map_app. simpl map. rewrite sum_app.
  destruct (aggregate metric dimension rows) as [agg tot]. simpl in *.
  now rewrite IH.
Qed.

(** The keys of the dictionary are the groups of the rows, but for
    [__proto__], which never becomes a key. *)
Lemma aggregate_keys rows :
  NoDup (map fst (fst (aggregate metric dimension rows)))
  /\ forall k, In k (map fst (fst (aggregate metric dimension rows)))
               <-> k <> "__proto__" /\ In k (map (groupKey dimension) rows).
Proof.
  induction rows as [| row rows IH] using rev_ind.
  - split; [constructor | intros k; simpl; tauto].
  - rewrite aggregate_snoc.
    destruct (aggregate metric dimension rows) as [agg tot].
    destruct IH as [Hn Hk]. simpl in Hn, Hk. simpl fst.
    fold (groupKey dimension row). unfold put.
    destruct (String.eqb (groupKey dimension row) "__proto__") eqn:P.
    + apply String.eqb_eq in P. split; [exact Hn |].
      intros k. rewrite Hk, map_app, in_app_iff. simpl.
      split; [tauto |]. intros [Hne [H | [E | []]]]; [tauto | congruence].
    + assert (Hp : groupKey dimension row <> "__proto__").
      { intros E. rewrite E in P. discriminate P. }
      rewrite keys_assign.
      destruct (existsb _ (map fst agg)) eqn:E.
      * split; [exact Hn |]. intros k. rewrite map_app, in_app_iff, Hk.
        split; [tauto |]. intros [Hne [H | [<- | []]]]; [tauto |].
        apply existsb_eqb_In in E. apply Hk in E. exact E.
      * split.
        -- apply NoDup_app; [exact Hn | repeat constructor; intros [] |].
           intros k Hin [<- | []].
           apply existsb_eqb_In in Hin. congruence.
        -- intros k. rewrite !map_app, !in_app_iff, Hk. simpl.
           split.
           ++ intros [H | [<- | []]]; tauto.
           ++ intros [Hne [H | [<- | []]]]; tauto.
Qed.

Lemma tally_snoc rows row :
  tally metric dimension (rows ++ [row])
  = tallyRow metric dimension (tally metric dimension rows) row.
Proof. unfold tally. now rewrite fold_left_app. Qed.

Lemma tally_keys rows :
  NoDup (map fst (tally metric dimension rows))
  /\ forall k, In k (map fst (tally metric dimension rows))
               <-> In k (map (groupKey dimension) rows).
Proof.
  induction rows as [| row rows IH] using rev_ind.
  - split; [constructor | intros k; reflexivity].
  - rewrite tally_snoc. destruct IH as [Hn Hk].
    unfold tallyRow. rewrite keys_assign.
    destruct (existsb _ (map fst (tally metric dimension rows))) eqn:E.
    + split; [exact Hn |]. intros k. rewrite map_app, in_app_iff, Hk.
      split; [now left |]. intros [H | [<- | []]]; [exact H |].
      apply Hk, existsb_eqb_In, E.
    + split.
      * apply NoDup_app; [exact Hn | repeat constructor; intros [] |].
        intros k Hin [<- | []].
        apply existsb_eqb_In in Hin. congruence.
      * intros k. rewrite map_app, !in_app_iff, Hk. reflexivity.
Qed.

Lemma groupSum_snoc rows row k :
  groupSum metric dimension (rows ++ [row]) k
  = if inGroup dimension k row
    then add (groupSum metric dimension rows k) (metricOf metric row)
    else groupSum metric dimension rows k.
Proof.
  unfold groupSum. rewrite filter_app. simpl.
  destruct (inGroup dimension k row).
  - rewrite map_app. simpl map. now rewrite sum_app.
  - now rewrite app_nil_r.
Qed.

(** As long as no sum of a group is [NaN], the tally holds the sum of
    every group met so far. *)
Lemma tally_lookup rows :
  (forall k, isNaN (groupSum metric dimension rows k) = false) ->
  forall k,
    lookup (tally metric dimension rows) k
    = if existsb (inGroup dimension k) rows
      then Some (groupSum metric dimension rows k) else None.
Proof.
  induction rows as [| row rows IH] using rev_ind; intros Hsum k;
    [reflexivity |].
  assert (Hprefix : forall k', isNaN (groupSum metric dimension rows k') = false).
  { intros k'. specialize (Hsum k'). rewrite groupSum_snoc in Hsum.
    destruct (inGroup dimension k' row); [| exact Hsum].
    now apply add_not_NaN in Hsum. }
  specialize (IH Hprefix).
  rewrite tally_snoc, groupSum_snoc, existsb_app. simpl existsb.
  unfold tallyRow. unfold inGroup at 2 3.
  destruct (String.eqb (groupKey dimension row) k) eqn:E.
  - apply String.eqb_eq in E. subst k.
    rewrite lookup_assign_same, orb_true_r. f_equal.
    rewrite IH.
    destruct (existsb _ rows) eqn:X.
    + apply add_orZero, Hprefix.
    + unfold groupSum. now rewrite (filter_none _ _ _ X).
  - rewrite lookup_assign_other, orb_false_r; [apply IH |].
    intros ->. now rewrite String.eqb_refl in E.
Qed.

(** When the keys are plain, the dictionary is the tally. *)
Lemma aggregate_tally rows :
  plainKeys dimension rows ->
  fst (aggregate metric dimension rows)
  = map stored (tally metric dimension rows).
Proof.
  induction rows as [| row rows IH] using rev_ind; intros Hp; [reflexivity |].
  assert (Hprefix : plainKeys dimension rows).
  { intros r Hr. apply Hp, in_or_app. now left. }
  assert (Hrow : prototypeMember (groupKey dimension row) = None).
  { apply Hp, in_or_app. right. now left. }
  specialize (IH Hprefix).
  rewrite aggregate_snoc, tally_snoc.
  destruct (aggregate metric dimension rows) as [agg tot]. simpl in IH.
  subst agg. simpl fst. fold (groupKey dimension row).
  rewrite put_plain by exact Hrow.
  unfold tallyRow, running, get. rewrite lookup_stored, Hrow.
  destruct (lookup (tally metric dimension rows) (groupKey dimension row))
    as [x |]; simpl option_map; cbv iota.
  - unfold orZero. cbn [truthy].
    destruct (truthyNum x); rewrite plus_numbers; apply assign_stored.
  - cbn [truthy]. rewrite plus_numbers. apply assign_stored.
Qed.

End Aggregation.

(** ** The series *)

Lemma get_point_metric metric dimension e :
  get (point metric dimension e) (name metric) = snd e.
Proof. unfold get, point. now rewrite lookup_assign_same. Qed.

Lemma get_point_dimension metric dimension e :
  name metric <> name dimension ->
  get (point metric dimension e) (name dimension) = VStr (fst e).
Proof.
  intros H. unfold get, point.
  rewrite lookup_assign_other by congruence.
  now rewrite lookup_assign_same.
Qed.

Lemma chartOf_fields metric dimension rows fileId :
  Dashboard.id (chartOf metric dimension rows fileId)
  = (fileId ++ "-bar")%string
  /\ Dashboard.fileId (chartOf metric dimension rows fileId) = fileId
  /\ chartType (chartOf metric dimension rows fileId) = "bar"
  /\ title (chartOf metric dimension rows fileId)
     = (name metric ++ " by " ++ name dimension)%string
  /\ data (chartOf metric dimension rows fileId)
     = firstn 10
         (sortWith (byMetricDescending metric)
            (map (point metric dimension)
                 (own_entries (fst (aggregate metric dimension rows))))).
Proof.
  unfold chartOf. destruct (aggregate metric dimension rows); auto.
Qed.

Lemma chartOf_axes metric dimension rows fileId :
  xAxis (chartOf metric dimension rows fileId) = name dimension
  /\ yAxis (chartOf metric dimension rows fileId) = name metric
  /\ dataTotal (chartOf metric dimension rows fileId)
     = snd (aggregate metric dimension rows).
Proof.
  unfold chartOf. destruct (aggregate metric dimension rows); auto.
Qed.

Lemma chartOf_length metric dimension rows fileId :
  (List.length (data (chartOf metric dimension rows fileId)) <= 10)%nat.
Proof.
  destruct (chartOf_fields metric dimension rows fileId) as (_ & _ & _ & _ & ->).
  rewrite length_firstn. apply Nat.le_min_l.
Qed.

Lemma chartOf_data metric dimension rows fileId :
  plainKeys dimension rows ->
  data (chartOf metric dimension rows fileId)
  = map (fun e => point metric dimension (stored e))
        (rankedEntries metric dimension rows).
Proof.
  intros Hp.
  destruct (chartOf_fields metric dimension rows fileId) as (_ & _ & _ & _ & ->).
  rewrite (aggregate_tally metric dimension rows Hp), own_entries_stored, map_map.
  unfold rankedEntries, sortWith.
  rewrite <- firstn_map. f_equal.
  apply insertionSort_map. intros x y.
  unfold byMetricDescending, inFront. now rewrite !get_point_metric.
Qed.

Lemma pointsOf_chartOf metric dimension rows fileId :
  name metric <> name dimension ->
  plainKeys dimension rows ->
  pointsOf (chartOf metric dimension rows fileId)
  = map asPoint (rankedEntries metric dimension rows).
Proof.
  intros H Hp. unfold pointsOf.
  destruct (chartOf_axes metric dimension rows fileId) as [-> [-> _]].
  rewrite chartOf_data, map_map by exact Hp. apply map_ext. intros e.
  now rewrite get_point_metric, get_point_dimension.
Qed.

Lemma rankedEntries_length metric dimension rows :
  List.length (rankedEntries metric dimension rows)
  = Nat.min 10 (List.length (groupKeys dimension rows)).
Proof.
  unfold rankedEntries. rewrite length_firstn. f_equal.
  rewrite <- (Permutation_length (insertionSort_perm _ inFront _)).
  rewrite (Permutation_length (own_entries_perm _ _)).
  rewrite <- (length_map fst).
  destruct (tally_keys metric dimension rows) as [Hn Hk].
  apply Permutation_length, NoDup_Permutation;
    [exact Hn | apply NoDup_nodup |].
  intros k. rewrite Hk. unfold groupKeys. now rewrite nodup_In.
Qed.

Lemma NoDup_firstn (A : Type) n (l : list A) : NoDup l -> NoDup (firstn n l).
Proof.
  intros H. rewrite <- (firstn_skipn n l) in H.
  now apply NoDup_app_remove_r in H.
Qed.

Lemma In_firstn (A : Type) n (l : list A) x : In x (firstn n l) -> In x l.
Proof.
  intros H. rewrite <- (firstn_skipn n l). apply in_or_app. now left.
Qed.

Lemma sorted_entries_perm metric dimension rows :
  Permutation (insertionSort inFront (own_entries (tally metric dimension rows)))
              (tally metric dimension rows).
Proof.
  eapply perm_trans; [| apply own_entries_perm].
  apply Permutation_sym, insertionSort_perm.
Qed.

Lemma weaken_sorted (A : Type) (R R' : A -> A -> Prop) (ok : A -> Prop) l :
  (forall x y, ok x -> ok y -> R x y -> R' x y) ->
  Forall ok l -> StronglySorted R l -> StronglySorted R' l.
Proof.
  intros H Hok Hs. induction Hs as [| a t Ht IH Ha]; [constructor |].
  inversion Hok as [| ? ? Hoka Hokt]; subst.
  constructor; [auto |].
  rewrite Forall_forall in Ha, Hokt |- *. intros y Hy. auto.
Qed.

Section Ranking.

Variables metric dimension : FieldInfo.
Variable rows : list DataItem.
Hypothesis sums_defined :
  forall k, isNaN (groupSum metric dimension rows k) = false.

Let agg := tally metric dimension rows.

Lemma aggregated_entry k v :
  In (k, v) agg ->
  In k (groupKeys dimension rows) /\ v = groupSum metric dimension rows k.
Proof.
  intros Hin. destruct (tally_keys metric dimension rows) as [Hn Hk].
  fold agg in Hn, Hk.
  assert (Hkey : In k (map (groupKey dimension) rows)).
  { apply Hk. apply in_map_iff. exists (k, v). auto. }
  split; [unfold groupKeys; now rewrite nodup_In |].
  pose proof (lookup_In _ agg k v Hn Hin) as L.
  unfold agg in L. rewrite (tally_lookup _ _ _ sums_defined) in L.
  destruct (existsb _ rows); congruence.
Qed.

Lemma aggregated_group k :
  In k (groupKeys dimension rows) ->
  In (k, groupSum metric dimension rows k) agg.
Proof.
  intros Hin. unfold groupKeys in Hin. rewrite nodup_In in Hin.
  destruct (tally_keys metric dimension rows) as [_ Hk].
  apply Hk in Hin. apply in_map_iff in Hin. destruct Hin as [[k' v] [E Hin]].
  simpl in E. subst k'.
  now destruct (aggregated_entry k v Hin) as [_ <-].
Qed.

Let defined (e : string * num) : Prop := isNaN (snd e) = false.

Lemma aggregated_defined l : Permutation l agg -> Forall defined l.
Proof.
  intros P. apply Forall_forall. intros [k v] Hin.
  apply (Permutation_in _ P), aggregated_entry in Hin.
  destruct Hin as [_ ->]. apply sums_defined.
Qed.

Lemma sorted_descending :
  descending (insertionSort inFront (own_entries agg)).
Proof.
  unfold descending.
  apply weaken_sorted
    with (R := fun x y => inFront x y = true) (ok := defined).
  - intros x y Hx Hy H. unfold atLeast, inFront in *.
    now rewrite difference_positive in H.
  - apply aggregated_defined, sorted_entries_perm.
  - apply insertionSort_sorted with (ok := defined).
    + intros x y Hx Hy. unfold inFront.
      rewrite !difference_positive by assumption. now apply le_total.
    + intros x y z Hx Hy Hz. unfold inFront.
      rewrite !difference_positive by assumption.
      intros H1 H2. exact (le_trans _ _ _ H2 H1).
    + apply aggregated_defined, own_entries_perm.
Qed.

Lemma rankedEntries_ranked :
  ranked metric dimension rows 10 (rankedEntries metric dimension rows).
Proof.
  pose proof (sorted_entries_perm metric dimension rows) as P. fold agg in P.
  destruct (tally_keys metric dimension rows) as [Hn _]. fold agg in Hn.
  destruct (sorted_firstn _ _ 10 _ sorted_descending) as [S1 S2].
  repeat split.
  - apply rankedEntries_length.
  - unfold rankedEntries. fold agg. rewrite <- firstn_map.
    apply NoDup_firstn.
    apply (Permutation_NoDup (Permutation_sym (Permutation_map fst P)) Hn).
  - apply (aggregated_entry k v), (Permutation_in _ P), In_firstn with (n := 10%nat), H.
  - apply (aggregated_entry k v), (Permutation_in _ P), In_firstn with (n := 10%nat), H.
  - exact S1.
  - intros k' Hgroup Hout k v Hin.
    apply (S2 (k, v) (k', groupSum metric dimension rows k')); [exact Hin |].
    apply aggregated_group, (Permutation_in _ (Permutation_sym P)) in Hgroup.
    rewrite <- (firstn_skipn 10) in Hgroup. apply in_app_or in Hgroup.
    destruct Hgroup as [Hfirst | Hrest]; [| exact Hrest].
    exfalso. apply Hout. apply in_map_iff.
    exists (k', groupSum metric dimension rows k'). auto.
Qed.

End Ranking.

(** A sum of numbers none of which is negative or [NaN] is not [NaN]. *)
Lemma add_nonneg x y :
  isNaN x = false -> lt x zero = false ->
  isNaN y = false -> lt y zero = false ->
  isNaN (add x y) = false /\ lt (add x y) zero = false.
Proof.
  destruct x as [a | | |], y as [b | | |]; intros Nx Lx Ny Ly;
    try discriminate; try (split; reflexivity).
  unfold add. split; [apply roundFrom_not_NaN |].
  apply roundFrom_nonneg; [lia |].
  assert (Ha : (0 <= a)%Q).
  { destruct (Qlt_le_dec a 0) as [L | L]; [| exact L].
    apply lt_Fin in L. unfold zero in Lx. congruence. }
  assert (Hb : (0 <= b)%Q).
  { destruct (Qlt_le_dec b 0) as [L | L]; [| exact L].
    apply lt_Fin in L. unfold zero in Ly. congruence. }
  lra.
Qed.

Lemma fold_add_nonneg l acc :
  isNaN acc = false /\ lt acc zero = false ->
  Forall (fun x => isNaN x = false /\ lt x zero = false) l ->
  isNaN (fold_left add l acc) = false /\ lt (fold_left add l acc) zero = false.
Proof.
  revert acc. induction l as [| x t IH]; intros acc Hacc H; simpl; [exact Hacc |].
  inversion H as [| ? ? [Nx Lx] Ht]; subst. destruct Hacc as [Na La].
  apply IH; [| exact Ht]. now apply add_nonneg.
Qed.

Lemma sum_nonneg l :
  Forall (fun x => isNaN x = false /\ lt x zero = false) l ->
  isNaN (sum l) = false /\ lt (sum l) zero = false.
Proof. apply fold_add_nonneg. split; reflexivity. Qed.

Lemma nonneg_sums_defined metric dimension rows :
  (forall row, In row rows ->
     isNaN (metricOf metric row) = false
     /\ lt (metricOf metric row) zero = false) ->
  forall k, isNaN (groupSum metric dimension rows k) = false.
Proof.
  intros H k. apply sum_nonneg, Forall_forall. intros x Hx.
  apply in_map_iff in Hx. destruct Hx as [row [<- Hrow]].
  apply filter_In in Hrow. apply H, Hrow.
Qed.

Lemma series_general rows fields fileName fileId chart :
  generateBarChart rows fields fileName fileId = Some chart ->
  exists metric dimension,
    find isMetric fields = Some metric
    /\ find isDimension fields = Some dimension
    /\ dataTotal chart = grandTotal metric rows
    /\ (List.length (pointsOf chart) <= 10)%nat
    /\ (name metric <> name dimension ->
        (forall row, In row rows ->
           prototypeMember (groupKey dimension row) = None) ->
        (forall k, isNaN (groupSum metric dimension rows k) = false) ->
        exists entries,
          pointsOf chart = map asPoint entries
          /\ ranked metric dimension rows 10 entries).
Proof.
  rewrite generateBarChart_find.
  destruct (find isMetric fields) as [metric |]; [| discriminate].
  destruct (find isDimension fields) as [dimension |]; [| discriminate].
  intros E. injection E as <-. exists metric, dimension.
  destruct (chartOf_axes metric dimension rows fileId) as [_ [_ T]].
  repeat split.
  - rewrite T. apply aggregate_total.
  - unfold pointsOf. rewrite length_map. apply chartOf_length.
  - intros Hnames Hplain Hsums. exists (rankedEntries metric dimension rows).
    split; [now apply pointsOf_chartOf | now apply rankedEntries_ranked].
Qed.

Lemma series_example fields fileName fileId metric dimension :
  find isMetric fields = Some metric ->
  find isDimension fields = Some dimension ->
  name metric = "amt" -> name dimension = "region" ->
  exists chart,
    generateBarChart exampleRows fields fileName fileId = Some chart
    /\ pointsOf chart = [(VStr "B", VNum (Fin 30)); (VStr "A", VNum (Fin 15))]
    /\ dataTotal chart = Fin 45.
Proof.
  intros Hm Hd Nm Nd. rewrite generateBarChart_find, Hm, Hd.
  eexists. split; [reflexivity |].
  destruct metric, dimension. simpl in Nm, Nd. subst.
  split; vm_compute; reflexivity.
Qed.

(** C1 (amended).  Whenever [generateBarChart] returns a chart, the
    reported total is the sum of the metric over all the rows and there
    are at most 10 points.  If moreover the first metric field and the
    first dimension field have different names, no row is grouped under
    the name of a member of [Object.prototype], and the sum of no group is
    [NaN], the points are the 10 best groups: each point carries a group
    and the sum of the metric over its rows, the points are in descending
    order of that sum, and no group left out has a larger sum.  On the
    sample rows the points are [("B", 30); ("A", 15)] and the total is
    45. *)
Theorem chart_points_ranked_total_over_all_rows :
  (forall rows fields fileName fileId chart,
      generateBarChart rows fields fileName fileId = Some chart ->
      exists metric dimension,
        find isMetric fields = Some metric
        /\ find isDimension fields = Some dimension
        /\ dataTotal chart = grandTotal metric rows
        /\ (List.length (pointsOf chart) <= 10)%nat
        /\ (name metric <> name dimension ->
            (forall row, In row rows ->
               prototypeMember (groupKey dimension row) = None) ->
            (forall k, isNaN (groupSum metric dimension rows k) = false) ->
            exists entries,
              pointsOf chart = map asPoint entries
              /\ ranked metric dimension rows 10 entries))
  /\ (forall fields fileName fileId metric dimension,
         find isMetric fields = Some metric ->
         find isDimension fields = Some dimension ->
         name metric = "amt" -> name dimension = "region" ->
         exists chart,
           generateBarChart exampleRows fields fileName fileId = Some chart
           /\ pointsOf chart
              = [(VStr "B", VNum (Fin 30)); (VStr "A", VNum (Fin 15))]
           /\ dataTotal chart = Fin 45).
Proof. split; [exact series_general | exact series_example]. Qed.

(** The sample rows satisfy the hypotheses of C1. *)
Lemma chart_points_ranked_witness :
  exists entries,
    pointsOf (chartOf (field "amt" true false) (field "region" false true)
                      exampleRows "file")
    = map asPoint entries
    /\ ranked (field "amt" true false) (field "region" false true)
              exampleRows 10 entries.
Proof.
  destruct (proj1 chart_points_ranked_total_over_all_rows exampleRows exampleFields "name" "file"
                  (chartOf (field "amt" true false) (field "region" false true)
                           exampleRows "file") eq_refl)
    as [metric [dimension [Hm [Hd [_ [_ H]]]]]].
  injection Hm as <-. injection Hd as <-.
  apply H.
  - discriminate.
  - intros row Hrow.
    repeat (destruct Hrow as [<- | Hrow]; [vm_compute; reflexivity |]).
    destruct Hrow.
  - apply nonneg_sums_defined. intros row Hrow.
    repeat (destruct Hrow as [<- | Hrow]; [split; vm_compute; reflexivity |]).
    destruct Hrow.
Defined.

(** C1 as stated fails in three ways.  When cells read [Infinity] and
    [-Infinity] (or overflow, as [1e999] does), the sum of group B is [NaN]
    and the points [1, NaN, 2] are not in descending order.  A running sum
    that was [NaN] restarts from 0, so that a point (here 5) is not the sum
    of its group.  And a row grouped under [constructor] meets the member
    of [Object.prototype] of that name: its point carries a string. *)
Lemma chart_points_unsorted_with_NaN :
  (exists chart,
      generateBarChart divergentRows exampleFields "name" "file" = Some chart
      /\ pointsOf chart
         = [(VStr "A", VNum (Fin 1)); (VStr "B", VNum NaN);
            (VStr "C", VNum (Fin 2))]
      /\ ~ (exists entries,
               pointsOf chart = map asPoint entries /\ descending entries))
  /\ (exists chart,
         generateBarChart overflowRows exampleFields "name" "file" = Some chart
         /\ pointsOf chart
            = [(VStr "A", VNum (Fin 1)); (VStr "B", VNum NaN);
               (VStr "C", VNum (Fin 2))])
  /\ (exists chart,
         generateBarChart resetRows exampleFields "name" "file" = Some chart
         /\ pointsOf chart = [(VStr "A", VNum (Fin 5))]
         /\ groupSum (field "amt" true false) (field "region" false true)
                     resetRows "A" = NaN)
  /\ (exists chart,
         generateBarChart inheritedRows exampleFields "name" "file" = Some chart
         /\ pointsOf chart
            = [(VStr "constructor",
                VStr "function Object() { [native code] }10")]
         /\ ~ (exists entries, pointsOf chart = map asPoint entries)).
Proof.
  split; [| split; [| split]].
  - exists (chartOf (field "amt" true false) (field "region" false true)
                    divergentRows "file").
    split; [reflexivity |]. split; [vm_compute; reflexivity |].
    intros [entries [E S]]. vm_compute in E.
    destruct entries as [| [k1 v1] [| [k2 v2] [| [k3 v3] [| ? ?]]]];
      try discriminate.
    injection E as <- <- <- <- <- <-.
    inversion S as [| ? ? _ F]; subst.
    inversion F as [| ? ? F1 _]; subst. discriminate F1.
  - exists (chartOf (field "amt" true false) (field "region" false true)
                    overflowRows "file").
    split; [reflexivity | vm_compute; reflexivity].
  - exists (chartOf (field "amt" true false) (field "region" false true)
                    resetRows "file").
    repeat split; vm_compute; reflexivity.
  - exists (chartOf (field "amt" true false) (field "region" false true)
                    inheritedRows "file").
    split; [reflexivity |]. split; [vm_compute; reflexivity |].
    intros [entries E]. vm_compute in E.
    destruct entries as [| [k1 v1] [| ? ?]]; discriminate.
Qed.



(** ** Field analysis *)

Lemma numeric_nonempty values :
  numericValuesOf values <> [] ->
  (List.length (nonNullValuesOf values) =? 0)%nat = false
  /\ (0 <? List.length (numericValuesOf values))%nat = true.
Proof.
  unfold numericValuesOf. intros H. split.
  - destruct (nonNullValuesOf values);
      [exfalso; apply H; reflexivity | reflexivity].
  - destruct (map _ _); [congruence | reflexivity].
Qed.

(** C8.  The descriptor returned by [analyzeField] is never both a metric
    and a dimension. *)
Theorem metric_dimension_exclusive values fieldName :
  isMetric (analyzeField values fieldName)
  && isDimension (analyzeField values fieldName) = false.
Proof.
  unfold analyzeField, setStatistics. split_ifs; reflexivity.
Qed.

Lemma includesAny_true lower keywords :
  includesAny lower keywords = true
  <-> exists keyword, In keyword keywords /\ includes lower keyword = true.
Proof. unfold includesAny. apply existsb_exists. Qed.

(** C5.  When the lower-cased field name holds one of the keywords [name],
    [mesin], [category], [type], [status], [department] and one of the
    keywords [total], [amount], [jam], [hour], [count], [sum], [qty],
    [quantity], [price], [cost], and some value is numeric, the descriptor
    is a metric and not a dimension; its type is [currency] when the name
    holds [price] or [cost], and [number] when it holds neither. *)
Theorem metric_override_wins values fieldName :
  (exists keyword,
      In keyword ["name"; "mesin"; "category"; "type"; "status"; "department"]
      /\ includes (toLowerCase fieldName) keyword = true) ->
  (exists keyword,
      In keyword ["total"; "amount"; "jam"; "hour"; "count"; "sum"; "qty";
                  "quantity"; "price"; "cost"]
      /\ includes (toLowerCase fieldName) keyword = true) ->
  numericValuesOf values <> [] ->
  isMetric (analyzeField values fieldName) = true
  /\ isDimension (analyzeField values fieldName) = false
  /\ (includes (toLowerCase fieldName) "price" = true
      \/ includes (toLowerCase fieldName) "cost" = true ->
      type (analyzeField values fieldName) = currency)
  /\ (includes (toLowerCase fieldName) "price" = false ->
      includes (toLowerCase fieldName) "cost" = false ->
      type (analyzeField values fieldName) = number).
Proof.
  intros Hd Hm Hn. destruct (numeric_nonempty values Hn) as [H0 H1].
  apply includesAny_true in Hd, Hm.
  change (includesAny (toLowerCase fieldName) dimensionKeywords = true) in Hd.
  change (includesAny (toLowerCase fieldName) metricKeywords = true) in Hm.
  unfold analyzeField. rewrite H0, Hd, Hm, H1.
  unfold includesAny, moneyKeywords. cbn [existsb type isMetric isDimension setType setMetric setDimension].
  repeat split.
  - intros [H | H]; rewrite H; [reflexivity | now rewrite orb_true_r].
  - intros -> ->. reflexivity.
Qed.

(** The field name ["Type Cost"] holds keywords of both lists and names
    money; the field name ["Status Count"] holds keywords of both lists
    and does not. *)
Lemma metric_override_witness :
  (isMetric (analyzeField [VNum (Fin 3); VStr "n/a"] "Type Cost") = true
   /\ isDimension (analyzeField [VNum (Fin 3); VStr "n/a"] "Type Cost") = false
   /\ type (analyzeField [VNum (Fin 3); VStr "n/a"] "Type Cost") = currency)
  /\ (isMetric (analyzeField [VNum (Fin 3); VStr "n/a"] "Status Count") = true
      /\ isDimension (analyzeField [VNum (Fin 3); VStr "n/a"] "Status Count")
         = false
      /\ type (analyzeField [VNum (Fin 3); VStr "n/a"] "Status Count")
         = number).
Proof.
  split.
  - assert (Hd : exists keyword,
               In keyword ["name"; "mesin"; "category"; "type"; "status";
                           "department"]
               /\ includes (toLowerCase "Type Cost") keyword = true).
    { exists "type". split; [simpl; tauto | vm_compute; reflexivity]. }
    assert (Hm : exists keyword,
               In keyword ["total"; "amount"; "jam"; "hour"; "count"; "sum";
                           "qty"; "quantity"; "price"; "cost"]
               /\ includes (toLowerCase "Type Cost") keyword = true).
    { exists "cost". split; [simpl; tauto | vm_compute; reflexivity]. }
    assert (Hn : numericValuesOf [VNum (Fin 3); VStr "n/a"] <> [])
      by (vm_compute; discriminate).
    destruct (metric_override_wins [VNum (Fin 3); VStr "n/a"] "Type Cost"
                                   Hd Hm Hn) as (M & D & C & _).
    split; [exact M |]. split; [exact D |].
    apply C. right. vm_compute. reflexivity.
  - assert (Hd : exists keyword,
               In keyword ["name"; "mesin"; "category"; "type"; "status";
                           "department"]
               /\ includes (toLowerCase "Status Count") keyword = true).
    { exists "status". split; [simpl; tauto | vm_compute; reflexivity]. }
    assert (Hm : exists keyword,
               In keyword ["total"; "amount"; "jam"; "hour"; "count"; "sum";
                           "qty"; "quantity"; "price"; "cost"]
               /\ includes (toLowerCase "Status Count") keyword = true).
    { exists "count". split; [simpl; tauto | vm_compute; reflexivity]. }
    assert (Hn : numericValuesOf [VNum (Fin 3); VStr "n/a"] <> [])
      by (vm_compute; discriminate).
    destruct (metric_override_wins [VNum (Fin 3); VStr "n/a"] "Status Count"
                                   Hd Hm Hn) as (M & D & _ & N).
    split; [exact M |]. split; [exact D |].
    apply N; vm_compute; reflexivity.
Defined.

(** C3.  Under a field name with no override keyword, the column
    ["$100.00"; "$250.50"; "$75.25"] holds a value matching the currency
    pattern and is classified [currency], a metric, with total 425.75 and
    average 425.75 / 3, which is within 0.005 of 141.92. *)
Theorem currency_column_example fieldName :
  includesAny (toLowerCase fieldName) dimensionKeywords = false ->
  includesAny (toLowerCase fieldName) metricKeywords = false ->
  existsb looksLikeCurrency currencyColumn = true
  /\ type (analyzeField currencyColumn fieldName) = currency
  /\ isMetric (analyzeField currencyColumn fieldName) = true
  /\ total (analyzeField currencyColumn fieldName)
     = Some (Fin (Qred 425.75))
  /\ average (analyzeField currencyColumn fieldName)
     = Some (div (Fin (Qred 425.75)) (Fin 3))
  /\ (exists a, average (analyzeField currencyColumn fieldName) = Some (Fin a)
                /\ (Qabs (a - 141.92) < 0.005)%Q).
Proof.
  intros Hd Hm. unfold analyzeField. rewrite Hd, Hm.
  split; [vm_compute; reflexivity |].
  split; [vm_compute; reflexivity |].
  split; [vm_compute; reflexivity |].
  split; [vm_compute; reflexivity |].
  split; [vm_compute; reflexivity |].
  exists (4993248805606741 # 35184372088832)%Q.
  split; [vm_compute; reflexivity |].
  vm_compute. reflexivity.
Qed.

(** The field name ["Gaji"] holds no override keyword. *)
Lemma currency_column_witness :
  type (analyzeField currencyColumn "Gaji") = currency
  /\ total (analyzeField currencyColumn "Gaji") = Some (Fin (Qred 425.75)).
Proof.
  destruct (currency_column_example "Gaji") as [_ [H1 [_ [H2 _]]]];
    [vm_compute; reflexivity | vm_compute; reflexivity |].
  split; [exact H1 | exact H2].
Defined.


(** ** Values that do not parse *)

Lemma filter_filter (A : Type) (p q : A -> bool) (l : list A) :
  filter p (filter q l) = filter (fun x => q x && p x) l.
Proof.
  induction l as [| x t IH]; simpl; [reflexivity |].
  destruct (q x); simpl; [destruct (p x) |]; now rewrite IH.
Qed.

Lemma numericValues_skip_unparsable values :
  numericValuesOf values
  = numericValuesOf
      (filter (fun v => negb (isNaN (Number (numStr v)))) values).
Proof.
  unfold numericValuesOf, nonNullValuesOf. f_equal.
  rewrite !filter_filter. apply filter_ext. intros v.
  unfold parsesAsNumber.
  destruct (isNaN (Number (numStr v))), (isNonNull v),
    (isEmpty (trim (numStr v))); reflexivity.
Qed.

Lemma numericValues_parsed values :
  Forall (fun x => isNaN x = false) (numericValuesOf values).
Proof.
  apply Forall_forall. intros x Hx. unfold numericValuesOf in Hx.
  apply in_map_iff in Hx. destruct Hx as [v [<- Hv]].
  apply filter_In in Hv. destruct Hv as [_ Hv]. unfold parsesAsNumber in Hv.
  apply andb_true_iff in Hv. now apply negb_true_iff.
Qed.

Lemma statistics_from_numericValues values fieldName :
  let f := analyzeField values fieldName in
  let nv := numericValuesOf values in
  (total f = None /\ average f = None /\ min f = None /\ max f = None)
  \/ (total f = Some (sum nv)
      /\ average f = Some (div (sum nv) (ofNat (List.length nv)))
      /\ min f = Some (minList nv) /\ max f = Some (maxList nv)).
Proof.
  cbv zeta. unfold analyzeField, setStatistics.
  split_ifs; simpl; auto 10.
Qed.

Lemma groupKey_cases dimension row :
  groupKey dimension row
  = if truthy (get row (name dimension))
    then ToString (get row (name dimension)) else "Unknown".
Proof.
  unfold groupKey, categoryOf.
  now destruct (truthy (get row (name dimension))).
Qed.

Lemma unparsable_metric_is_zero metric row :
  isNaN (parseFloat (stripMarks (ToString (get row (name metric))))) = true ->
  metricOf metric row = zero.
Proof.
  intros H. unfold metricOf.
  destruct (parseFloat _); try discriminate. reflexivity.
Qed.

Lemma lookup_put_other o k k' v : k' <> k -> lookup (put o k v) k' = lookup o k'.
Proof.
  intros H. unfold put. destruct (String.eqb k "__proto__"); [reflexivity |].
  now apply lookup_assign_other.
Qed.

Lemma lookup_put_same o k v :
  k <> "__proto__" -> lookup (put o k v) k = Some v.
Proof.
  intros H. unfold put. destruct (String.eqb k "__proto__") eqn:E.
  - apply String.eqb_eq in E. contradiction.
  - apply lookup_assign_same.
Qed.

Lemma zero_contribution metric dimension aggregated dataTotal row :
  isNaN (parseFloat (stripMarks (ToString (get row (name metric))))) = true ->
  let key := if truthy (get row (name dimension))
             then ToString (get row (name dimension)) else "Unknown" in
  let after := aggregateRow metric dimension (aggregated, dataTotal) row in
  snd after = add dataTotal zero
  /\ (forall k, k <> key -> lookup (fst after) k = lookup aggregated k)
  /\ (key <> "__proto__" ->
      (forall x, lookup aggregated key = Some (VNum x) -> isNaN x = false ->
                 lookup (fst after) key = Some (VNum (add x zero)))
      /\ (lookup aggregated key = Some (VNum NaN) ->
          lookup (fst after) key = Some (VNum zero))
      /\ (lookup aggregated key = None -> prototypeMember key = None ->
          lookup (fst after) key = Some (VNum zero))).
Proof.
  intros H. cbv zeta. rewrite <- groupKey_cases.
  unfold aggregateRow. rewrite (unparsable_metric_is_zero _ _ H).
  fold (groupKey dimension row). cbn [fst snd].
  split; [reflexivity |].
  split; [intros k Hk; now apply lookup_put_other |].
  intros Hp. rewrite lookup_put_same by exact Hp.
  unfold running, get. repeat split.
  - intros x -> Hx. cbn [truthy].
    replace (if truthyNum x then VNum x else VNum zero)
      with (VNum (orZero x)) by (unfold orZero; now destruct (truthyNum x)).
    now rewrite plus_numbers, add_orZero.
  - intros ->. reflexivity.
  - intros -> ->. reflexivity.
Qed.




(** ** The category of a row *)

Lemma truthy_false_iff v :
  truthy v = false
  <-> v = VUndefined \/ v = VNull \/ v = VBool false \/ v = VStr ""
      \/ exists x, v = VNum x /\ (x = NaN \/ sameNumber x zero).
Proof.
  split.
  - destruct v as [| | [|] | x | s | t]; simpl; intros H; auto;
      try discriminate.
    + right. right. right. right. exists x. split; [reflexivity |].
      destruct x as [q | | |]; simpl in *; try discriminate; auto.
      right. apply negb_false_iff in H. now apply Qeq_bool_iff.
    + destruct s; [auto | discriminate].
  - intros [-> | [-> | [-> | [-> | [x [-> [-> | H]]]]]]]; try reflexivity.
    destruct x as [q | | |]; simpl in *; try contradiction.
    apply negb_false_iff. now apply Qeq_bool_iff.
Qed.

Lemma first_group metric dimension row :
  groupKey dimension row <> "__proto__" ->
  map fst (fst (aggregate metric dimension [row])) = [groupKey dimension row].
Proof.
  intros H. unfold aggregate. cbn [fold_left]. unfold aggregateRow.
  fold (groupKey dimension row). cbn [fst]. unfold put.
  destruct (String.eqb (groupKey dimension row) "__proto__") eqn:E;
    [| reflexivity].
  apply String.eqb_eq in E. contradiction.
Qed.





(** ** Geo records *)

(** The literal [0.1] is the binary64 value next to one tenth, above
    it. *)
Lemma one_tenth :
  round (1 # 10) = Fin (3602879701896397 # 36028797018963968).
Proof. vm_compute. reflexivity. Qed.

Lemma coordinate_check bound x :
  negb (eqNum x zero) && negb (isNaN x) && gt (abs x) (round (1 # 10))
  && ge x (Fin (- bound)) && le x (Fin bound) = true ->
  validCoordinate bound x.
Proof.
  rewrite one_tenth. unfold validCoordinate. destruct x as [q | | |].
  - rewrite !andb_true_iff, !negb_true_iff. unfold ge, gt, abs.
    rewrite !le_Fin, lt_Fin, Qred_correct. simpl eqNum. simpl isNaN.
    intros [[[[H0 _] H1] H2] H3]. exists q. repeat split; auto.
    + eapply Qlt_trans; [| exact H1]. reflexivity.
    + intros E. apply Qeq_bool_iff in E. congruence.
  - intros H; simpl in H; rewrite ?andb_false_r in H; discriminate.
  - intros H; simpl in H; rewrite ?andb_false_r in H; discriminate.
  - intros H; simpl in H; discriminate.
Qed.

Lemma isValidCoords_invariant tower :
  isValidCoords tower = true -> geoInvariant tower.
Proof.
  unfold geoInvariant, isValidCoords. rewrite !andb_true_iff.
  intros H. split.
  - apply (coordinate_check 90). change (- 90)%Q with (-90)%Q.
    rewrite !andb_true_iff. tauto.
  - apply (coordinate_check 180). change (- 180)%Q with (-180)%Q.
    rewrite !andb_true_iff. tauto.
Qed.

Lemma In_mapIndexed (A B : Type) (f : A -> nat -> B) l i y :
  In y (mapIndexed f i l) -> exists x j, In x l /\ y = f x j.
Proof.
  revert i. induction l as [| x t IH]; simpl; intros i H; [contradiction |].
  destruct H as [<- | H].
  - exists x, i. auto.
  - destruct (IH _ H) as [x' [j [H1 H2]]]. exists x', j. auto.
Qed.

Lemma filter_mapIndexed_length (A B : Type) (f : A -> nat -> B)
      (p : B -> bool) l i :
  (forall x j, p (f x j) = p (f x O)) ->
  List.length (filter p (mapIndexed f i l))
  = List.length (filter (fun x => p (f x O)) l).
Proof.
  intros H. revert i. induction l as [| x t IH]; simpl; intros i;
    [reflexivity |].
  rewrite H. destruct (p (f x O)); simpl; now rewrite IH.
Qed.

Lemma processExcelData_length rawData :
  List.length (processExcelData rawData)
  = List.length (filter rowAccepted rawData).
Proof.
  unfold processExcelData.
  rewrite filter_mapIndexed_length by reflexivity.
  rewrite filter_filter. reflexivity.
Qed.

Lemma zero_latitude_rejected row index :
  findColumnValue row latitudeNames = "0" ->
  isValidCoords (toTower row index) = false.
Proof.
  intros H. unfold isValidCoords, toTower. simpl latitude. rewrite H.
  reflexivity.
Qed.




(** ** The column resolver *)

Lemma prefix_refl s : String.prefix s s = true.
Proof.
  induction s as [| c r IH]; simpl; [reflexivity |].
  destruct (ascii_dec c c); [exact IH | congruence].
Qed.

Lemma includes_refl s : includes s s = true.
Proof.
  destruct s as [| c r]; [reflexivity |].
  cbn [includes]. now rewrite prefix_refl.
Qed.

Lemma overlaps_refl k : overlaps k k = true.
Proof. unfold overlaps. now rewrite includes_refl. Qed.

Lemma lookup_None (A : Type) (o : obj A) k :
  lookup o k = None <-> ~ In k (map fst o).
Proof.
  induction o as [| [k' v] t IH]; simpl; [tauto |].
  destruct (String.eqb k' k) eqn:E.
  - apply String.eqb_eq in E. split; [discriminate | intros H; tauto].
  - apply String.eqb_neq in E. rewrite IH. tauto.
Qed.

Lemma present_iff v : present v = true <-> nonBlank v.
Proof.
  unfold present, nonBlank. rewrite !andb_true_iff, !negb_true_iff.
  split.
  - intros [[U N] E]. repeat split.
    + intros ->. discriminate U.
    + intros ->. discriminate N.
    + intros B. rewrite B in E. discriminate E.
  - intros (U & N & E). repeat split.
    + destruct v; try reflexivity. contradiction.
    + destruct v; try reflexivity. contradiction.
    + destruct (trim (ToString v)); [contradiction | reflexivity].
Qed.

Lemma overlaps_iff key name : overlaps key name = true <-> overlap key name.
Proof. unfold overlaps, overlap. apply orb_true_iff. Qed.

Lemma overlap_refl k : overlap k k.
Proof. apply overlaps_iff, overlaps_refl. Qed.

Lemma own_keys_In (A : Type) (o : obj A) k :
  In k (own_keys o) <-> In k (map fst o).
Proof.
  unfold own_keys.
  split; apply Permutation_in;
    [| apply Permutation_sym]; apply Permutation_map, own_entries_perm.
Qed.

Lemma own_key_cell (A : Type) (row : obj A) key :
  In key (own_keys row) <-> exists v, lookup row key = Some v.
Proof.
  rewrite own_keys_In. split.
  - intros H. destruct (lookup row key) as [v |] eqn:L; [now exists v |].
    apply lookup_None in L. contradiction.
  - intros [v L]. destruct (in_dec string_dec key (map fst row)) as [I | I];
      [exact I |].
    apply lookup_None in I. congruence.
Qed.

Lemma get_own row key v : lookup row key = Some v -> get row key = v.
Proof. unfold get. now intros ->. Qed.

Lemma get_inherited row key member :
  lookup row key = None -> prototypeMember key = Some member ->
  get row key = member.
Proof. unfold get. now intros -> ->. Qed.

(** Every member of [Object.prototype] has a text. *)
Lemma member_present key member :
  prototypeMember key = Some member -> present member = true.
Proof.
  unfold prototypeMember.
  destruct (String.eqb key "constructor");
    [intros E; injection E as <-; reflexivity |].
  destruct (String.eqb key "__proto__");
    [intros E; injection E as <-; reflexivity |].
  destruct (existsb _ _) eqn:X; [| discriminate].
  apply existsb_eqb_In in X. intros E. injection E as <-.
  simpl in X.
  repeat (destruct X as [<- | X]; [reflexivity |]). destruct X.
Qed.

(** What a property reads as: an own cell, a member of the prototype, or
    [undefined]. *)
Lemma get_cases row key :
  (exists v, lookup row key = Some v /\ get row key = v)
  \/ (exists member, lookup row key = None
                     /\ prototypeMember key = Some member
                     /\ get row key = member)
  \/ (lookup row key = None /\ prototypeMember key = None
      /\ get row key = VUndefined).
Proof.
  unfold get. destruct (lookup row key) as [v |]; [left; now exists v |].
  right. destruct (prototypeMember key) as [member |];
    [left; now exists member | right; auto].
Qed.

Lemma exactMatch_Some row names found :
  exactMatch row names = Some found ->
  exists name, In name names /\ present (get row name) = true
               /\ found = trim (ToString (get row name)).
Proof.
  induction names as [| name rest IH]; simpl; [discriminate |].
  destruct (present (get row name)) eqn:P.
  - intros E. injection E as <-. exists name. auto.
  - intros E. destruct (IH E) as [n [H1 H2]]. exists n. auto.
Qed.

Lemma exactMatch_None row names :
  exactMatch row names = None ->
  forall name, In name names -> present (get row name) = false.
Proof.
  induction names as [| n rest IH]; simpl; [intros _ name [] |].
  destruct (present (get row n)) eqn:P; [discriminate |].
  intros E name [<- | H]; [exact P | now apply IH].
Qed.

Lemma partialMatchKeys_Some row name keys found :
  partialMatchKeys row name keys = Some found ->
  exists key, In key keys /\ overlaps key name = true
              /\ present (get row key) = true
              /\ found = trim (ToString (get row key)).
Proof.
  induction keys as [| key rest IH]; simpl; [discriminate |].
  destruct (overlaps key name && present (get row key)) eqn:P.
  - intros E. injection E as <-. apply andb_true_iff in P.
    exists key. tauto.
  - intros E. destruct (IH E) as [k [H1 H2]]. exists k. auto.
Qed.

Lemma partialMatchKeys_None row name keys :
  partialMatchKeys row name keys = None ->
  forall key, In key keys -> overlaps key name = true ->
              present (get row key) = false.
Proof.
  induction keys as [| k rest IH]; simpl; [intros _ key [] |].
  destruct (overlaps k name && present (get row k)) eqn:P; [discriminate |].
  intros E key [<- | H] O; [| now apply IH].
  rewrite O in P. exact P.
Qed.

Lemma partialMatch_Some row names found :
  partialMatch row names = Some found ->
  exists name key, In name names /\ In key (own_keys row)
                   /\ overlaps key name = true
                   /\ present (get row key) = true
                   /\ found = trim (ToString (get row key)).
Proof.
  induction names as [| name rest IH]; simpl; [discriminate |].
  destruct (partialMatchKeys row name (own_keys row)) eqn:P.
  - intros E. injection E as <-.
    destruct (partialMatchKeys_Some _ _ _ _ P) as [key H].
    exists name, key. tauto.
  - intros E. destruct (IH E) as [n [k H]]. exists n, k. tauto.
Qed.

Lemma partialMatch_None row names :
  partialMatch row names = None ->
  forall name key, In name names -> In key (own_keys row) ->
                   overlaps key name = true -> present (get row key) = false.
Proof.
  induction names as [| n rest IH]; simpl; [intros _ name key [] |].
  destruct (partialMatchKeys row n (own_keys row)) eqn:P; [discriminate |].
  intros E name key [<- | H]; [| now apply IH].
  now apply partialMatchKeys_None.
Qed.

Lemma findColumnValue_found row names :
  findColumnValue row names = ""
  \/ (exists key v,
         matchingCell row names key v
         /\ findColumnValue row names = trim (ToString v))
  \/ (exists name member,
         inheritedCell row names name member
         /\ findColumnValue row names = trim (ToString member)).
Proof.
  unfold findColumnValue.
  destruct (exactMatch row names) as [found |] eqn:X.
  - right. destruct (exactMatch_Some _ _ _ X) as [name [H1 [H2 H3]]].
    destruct (get_cases row name)
      as [[v [L G]] | [[member [L [M G]]] | [L [M G]]]]; rewrite G in *.
    + left. exists name, v. split; [| exact H3].
      repeat split; [exact L | | now apply present_iff..].
      exists name. split; [exact H1 | apply overlap_refl].
    + right. exists name, member. split; [| exact H3].
      repeat split; assumption.
    + discriminate H2.
  - destruct (partialMatch row names) as [found |] eqn:Y; [| now left].
    right. left.
    destruct (partialMatch_Some _ _ _ Y) as [name [key (H1 & H2 & H3 & H4 & H5)]].
    apply own_key_cell in H2. destruct H2 as [v L].
    rewrite (get_own _ _ _ L) in *.
    exists key, v. split; [| exact H5].
    repeat split; [exact L | | now apply present_iff..].
    exists name. split; [exact H1 | now apply overlaps_iff].
Qed.

Lemma findColumnValue_empty row names :
  findColumnValue row names = "" ->
  exactMatch row names = None /\ partialMatch row names = None.
Proof.
  unfold findColumnValue. intros E.
  destruct (exactMatch row names) as [found |] eqn:X.
  - destruct (exactMatch_Some _ _ _ X) as [n [_ [P F]]].
    apply present_iff in P. destruct P as (_ & _ & P). congruence.
  - split; [reflexivity |].
    destruct (partialMatch row names) as [found |] eqn:Y; [| reflexivity].
    destruct (partialMatch_Some _ _ _ Y) as [n [k [_ [_ [_ [P F]]]]]].
    apply present_iff in P. destruct P as (_ & _ & P). congruence.
Qed.

(** C6 (amended).  [findColumnValue] returns the empty string, or the
    trimmed string form of a cell of the row that is neither missing nor
    blank and whose key overlaps one of the aliases, or the text of a
    member of [Object.prototype] whose name is an alias that the row does
    not have as a key; and it returns the empty string exactly when there
    is no such cell and no such alias. *)
Theorem resolver_returns_trimmed_cell row possibleNames :
  (findColumnValue row possibleNames = ""
   \/ (exists key v,
          matchingCell row possibleNames key v
          /\ findColumnValue row possibleNames = trim (ToString v))
   \/ (exists name member,
          inheritedCell row possibleNames name member
          /\ findColumnValue row possibleNames = trim (ToString member)))
  /\ (findColumnValue row possibleNames = ""
      <-> (forall key v, ~ matchingCell row possibleNames key v)
          /\ (forall name member,
                 ~ inheritedCell row possibleNames name member)).
Proof.
  split; [apply findColumnValue_found |]. split.
  - intros E. apply findColumnValue_empty in E. destruct E as [X Y]. split.
    + intros key v (L & [name [Hname Ho]] & B).
      assert (Hkey : In key (own_keys row)) by (apply own_key_cell; now exists v).
      apply overlaps_iff in Ho.
      pose proof (partialMatch_None _ _ Y name key Hname Hkey Ho) as P.
      rewrite (get_own _ _ _ L) in P.
      apply present_iff in B. congruence.
    + intros name member (Hname & L & M).
      pose proof (exactMatch_None _ _ X name Hname) as P.
      rewrite (get_inherited _ _ _ L M) in P.
      rewrite (member_present _ _ M) in P. discriminate P.
  - intros [H1 H2]. destruct (findColumnValue_found row possibleNames)
      as [E | [[key [v [M _]]] | [name [member [M _]]]]];
      [exact E | destruct (H1 key v M) | destruct (H2 name member M)].
Qed.

(** C6 as stated fails in two ways.  The cell [" 5 "] is returned as ["5"],
    a string that no cell of the row holds.  And for the alias
    [constructor], which no key of the row overlaps, the text of a function
    is returned, which the row does not hold either. *)
Lemma resolver_value_not_verbatim :
  (findColumnValue [("LAT", VStr " 5 ")] ["LAT"] = "5"
   /\ ~ (findColumnValue [("LAT", VStr " 5 ")] ["LAT"] = ""
         \/ exists key,
             lookup [("LAT", VStr " 5 ")] key
             = Some (VStr (findColumnValue [("LAT", VStr " 5 ")] ["LAT"]))))
  /\ (findColumnValue [("LAT", VStr "5")] ["constructor"]
      = "function Object() { [native code] }"
      /\ forall key v, ~ matchingCell [("LAT", VStr "5")] ["constructor"] key v).
Proof.
  split; split; [vm_compute; reflexivity | | vm_compute; reflexivity |].
  - intros [E | [key E]]; [vm_compute in E; discriminate E |].
    assert (F : findColumnValue [("LAT", VStr " 5 ")] ["LAT"] = "5")
      by (vm_compute; reflexivity).
    rewrite F in E. cbn [lookup] in E.
    destruct (String.eqb "LAT" key); discriminate E.
  - intros key v (L & [name [[<- | []] O]] & _).
    cbn [lookup] in L. destruct (String.eqb "LAT" key) eqn:E; [| discriminate L].
    apply String.eqb_eq in E. subst key.
    apply overlaps_iff in O. vm_compute in O. discriminate O.
Qed.


(** ** The value cleaner *)

Lemma isComma_eq c : isComma c = true -> c = ","%char.
Proof. apply Ascii.eqb_eq. Qed.

Lemma collapseCommas_head c r :
  exists x, collapseCommas (String c r) = String c x.
Proof.
  revert c. induction r as [| c' r' IH]; intros c; simpl.
  - destruct (isComma c); eauto.
  - destruct (isComma c) eqn:C; [| eauto].
    destruct (isComma c') eqn:C'; [| eauto].
    destruct (IH c') as [x Hx]. exists x.
    apply isComma_eq in C, C'. subst. exact Hx.
Qed.

Lemma collapse_agree s :
  collapseRuns false s = collapseCommas s
  /\ collapseRuns true s = stripLeading (collapseCommas s).
Proof.
  induction s as [| c r [IH1 IH2]]; [split; reflexivity |].
  cbn [collapseRuns collapseCommas].
  destruct (isComma c) eqn:C.
  - destruct r as [| c' r'].
    + split; [reflexivity |]. simpl. now rewrite C.
    + destruct (collapseCommas_head c' r') as [x Hx].
      destruct (isComma c') eqn:C'.
      * rewrite IH2, Hx. simpl. rewrite C'.
        apply isComma_eq in C, C'. subst. split; reflexivity.
      * rewrite IH2, Hx. simpl. rewrite C', C. split; reflexivity.
  - rewrite IH1. split; [reflexivity |]. simpl. now rewrite C.
Qed.

Lemma dropLastComma_stripTrailing s : dropLastComma s = stripTrailing s.
Proof.
  induction s as [| c r IH]; [reflexivity |].
  destruct r as [| c' r'].
  - unfold stripTrailing, endsWithComma. simpl.
    unfold isComma. now destruct (Ascii.eqb c ",").
  - change (dropLastComma (String c (String c' r')))
      with (String c (dropLastComma (String c' r'))).
    rewrite IH. unfold stripTrailing, endsWithComma.
    cbn [String.length Nat.sub dropChars takeChars].
    rewrite Nat.sub_0_r.
    replace (S (String.length r') - 1)%nat with (String.length r') by lia.
    now destruct (String.eqb (dropChars (String.length r') (String c' r')) ",").
Qed.

Lemma stripEdgeCommas_spec s :
  stripEdgeCommas s = stripTrailing (stripLeading s).
Proof.
  destruct s as [| c r]; [reflexivity |].
  unfold stripEdgeCommas, stripLeading.
  destruct (isComma c); apply dropLastComma_stripTrailing.
Qed.

Lemma cleaned_spec value :
  stripEdgeCommas (collapseCommas value) = cleaned value.
Proof.
  unfold cleaned. rewrite stripEdgeCommas_spec.
  now destruct (collapse_agree value) as [-> _].
Qed.

Lemma includes_comma s : includes s "," = containsComma s.
Proof.
  induction s as [| c r IH]; [reflexivity |].
  cbn [includes containsComma String.prefix]. rewrite IH.
  unfold isComma.
  destruct (ascii_dec "," c) as [<- | N]; [now destruct r |].
  destruct (Ascii.eqb c ",") eqn:E; [| reflexivity].
  apply Ascii.eqb_eq in E. congruence.
Qed.

Lemma long_not_empty s : gt (lengthOf s) (Fin 3) = true -> isEmpty s = false.
Proof. destruct s; [discriminate | reflexivity]. Qed.

Lemma firstMeaningful_find parts maxLength :
  firstMeaningful parts maxLength
  = option_map trim (find (qualifies maxLength) parts).
Proof.
  induction parts as [| part rest IH]; [reflexivity |].
  cbn [firstMeaningful find]. rewrite IH. unfold qualifies.
  destruct (gt (lengthOf (trim part)) (Fin 3)) eqn:G.
  - rewrite (long_not_empty _ G). unfold gt in G. rewrite G.
    cbn [negb andb].
    destruct (lt (lengthOf (trim part)) maxLength); reflexivity.
  - unfold gt in G. rewrite G, andb_false_r. reflexivity.
Qed.

(** C7 (amended).  On a value that is not empty [cleanString] computes
    what the specification says, the qualifying segment being returned
    trimmed; the empty value gives the empty string; and
    [cleanString("a,,b,,", 50)] is ["a,b"]. *)
Theorem cleanString_refines_clean :
  (forall value maxLength,
      cleanString value maxLength
      = if isEmpty value then "" else clean value maxLength)
  /\ cleanString "a,,b,," defaultMaxLength = "a,b".
Proof.
  split; [| vm_compute; reflexivity].
  intros value maxLength. unfold cleanString, clean.
  destruct (isEmpty value); [reflexivity |].
  rewrite cleaned_spec, includes_comma, firstMeaningful_find.
  unfold exceeds, gt.
  destruct (find (qualifies maxLength) (splitComma (cleaned value)));
    reflexivity.
Qed.

(** C7 as stated fails on a qualifying segment padded with blanks, which
    the code returns trimmed, and on the empty value with a negative
    [maxLength], for which the code returns the empty string and not the
    ellipsis. *)
Lemma cleanString_differs_from_the_letter :
  (cleanString paddedInput defaultMaxLength = "abcd"
   /\ cleanToTheLetter paddedInput defaultMaxLength = " abcd ")
  /\ (cleanString "" (Fin (-1)) = ""
      /\ cleanToTheLetter "" (Fin (-1)) = "...").
Proof. repeat split; vm_compute; reflexivity. Qed.

(* ===================================================================== *)
(** * Further properties of the code                                      *)
(* ===================================================================== *)

Module TowerViewProperties.

Import JS TowerMap TowerView Spec ViewSpec.
Local Open Scope string_scope.
Local Open Scope list_scope.

(** ** Comparisons with a finite bound *)

Lemma le_Fin_false a b : le (Fin a) (Fin b) = false <-> (b < a)%Q.
Proof.
  split; intros H.
  - destruct (Qlt_le_dec b a) as [L | L]; [exact L |].
    apply le_Fin in L. congruence.
  - destruct (le (Fin a) (Fin b)) eqn:E; [| reflexivity].
    apply le_Fin in E. lra.
Qed.

Lemma lt_Fin_false a b : lt (Fin a) (Fin b) = false <-> (b <= a)%Q.
Proof.
  split; intros H.
  - destruct (Qlt_le_dec a b) as [L | L]; [| exact L].
    apply lt_Fin in L. congruence.
  - destruct (lt (Fin a) (Fin b)) eqn:E; [| reflexivity].
    apply lt_Fin in E. lra.
Qed.

(** Below a finite bound means not at least the bound, except for [NaN]. *)
Lemma lt_not_ge x c : isNaN x = false -> lt x (Fin c) = negb (ge x (Fin c)).
Proof.
  destruct x as [q | | |]; intros H; try reflexivity; try discriminate.
  unfold ge. destruct (le (Fin c) (Fin q)) eqn:E; simpl negb.
  - apply lt_Fin_false. now apply le_Fin.
  - apply lt_Fin. now apply le_Fin_false.
Qed.

Lemma ge_weaken x a b : (b <= a)%Q -> ge x (Fin a) = true -> ge x (Fin b) = true.
Proof.
  intros L H. unfold ge in *.
  apply (le_trans _ (Fin a)); [now apply le_Fin | exact H].
Qed.

Lemma ge_not_NaN x c : ge x (Fin c) = true -> isNaN x = false.
Proof. intros H. unfold ge in H. now apply le_not_NaN in H. Qed.

(** ** Voltage bands *)

Lemma one_band v :
  (Nat.b2n (ge v (Fin 500))
   + Nat.b2n (ge v (Fin 150) && lt v (Fin 500))
   + Nat.b2n (ge v (Fin 70) && lt v (Fin 150))
   + Nat.b2n (lt v (Fin 70))
   + Nat.b2n (isNaN v) = 1)%nat.
Proof.
  destruct (isNaN v) eqn:N.
  - destruct v; try discriminate. reflexivity.
  - rewrite !(lt_not_ge v _ N).
    destruct (ge v (Fin 500)) eqn:A.
    + rewrite (ge_weaken v 500 150), (ge_weaken v 500 70) by (lra || assumption).
      reflexivity.
    + destruct (ge v (Fin 150)) eqn:B.
      * rewrite (ge_weaken v 150 70) by (lra || assumption). reflexivity.
      * destruct (ge v (Fin 70)); reflexivity.
Qed.

Lemma length_filter_count (A : Type) (p : A -> bool) (l : list A) :
  List.length (filter p l) = list_sum (map (fun x => Nat.b2n (p x)) l).
Proof.
  induction l as [| x t IH]; [reflexivity |].
  simpl. destruct (p x); simpl; now rewrite IH.
Qed.

Lemma stats_partition towers :
  (total (getTowerStats towers)
   = atLeast500 (getTowerStats towers) + from150to499 (getTowerStats towers)
     + from70to149 (getTowerStats towers) + below70 (getTowerStats towers)
     + countWhere isNaN towers)%nat.
Proof.
  unfold getTowerStats, countWhere. cbn [total atLeast500 from150to499 from70to149 below70].
  rewrite !length_filter_count.
  induction towers as [| t ts IH]; [reflexivity |].
  cbn [map list_sum fold_right List.length]. rewrite IH.
  pose proof (one_band (voltage t)) as H.
  unfold list_sum. lia.
Qed.

(** ** The voltage of a record *)

Lemma digit_facts c :
  isDigit c = true ->
  isWhiteSpace c = false /\ Ascii.eqb c "-" = false /\ Ascii.eqb c "+" = false
  /\ Ascii.eqb c "x" = false /\ Ascii.eqb c "X" = false.
Proof.
  destruct c as [[] [] [] [] [] [] [] []]; intros H;
    try discriminate H; repeat split.
Qed.

Lemma keepDigits_digits s :
  match keepDigits s with
  | EmptyString => True
  | String c _ => isDigit c = true
  end.
Proof.
  unfold keepDigits. induction s as [| c r IH]; simpl; [exact I |].
  destruct (isDigit c) eqn:D; simpl; [exact D | exact IH].
Qed.

Lemma keepDigits_second s c p r :
  keepDigits s = String c (String p r) -> isDigit p = true.
Proof.
  unfold keepDigits. revert c p r. induction s as [| a t IH]; simpl;
    [discriminate |].
  intros c p r. destruct (isDigit a) eqn:D; simpl; [| apply IH].
  intros E. injection E as _ E.
  pose proof (keepDigits_digits t) as K. unfold keepDigits in K.
  rewrite E in K. exact K.
Qed.

Lemma radixDigit_nonneg radix c v : radixDigit radix c = Some v -> (0 <= v)%Z.
Proof.
  unfold radixDigit.
  set (n := Z.of_nat (nat_of_ascii c)).
  destruct ((48 <=? n)%Z && (n <=? 57)%Z) eqn:A.
  - destruct (n - 48 <? radix)%Z; [| discriminate]. intros E. injection E as <-.
    apply andb_true_iff in A. lia.
  - destruct ((97 <=? n)%Z && (n <=? 102)%Z) eqn:B.
    + destruct (n - 87 <? radix)%Z; [| discriminate]. intros E.
      injection E as <-. apply andb_true_iff in B. lia.
    + destruct ((65 <=? n)%Z && (n <=? 70)%Z) eqn:C.
      * destruct (n - 55 <? radix)%Z; [| discriminate]. intros E.
        injection E as <-. apply andb_true_iff in C. lia.
      * destruct (16 <? radix)%Z; [| discriminate]. intros E.
        injection E as <-. lia.
Qed.

Lemma scanRadix_nonneg radix s acc cnt :
  (0 <= radix)%Z -> (0 <= acc)%Z ->
  (0 <= fst (fst (scanRadix radix acc cnt s)))%Z.
Proof.
  intros R. revert acc cnt. induction s as [| c r IH]; intros acc cnt A;
    simpl; [exact A |].
  destruct (radixDigit radix c) as [v |] eqn:D; [| exact A].
  apply IH. apply radixDigit_nonneg in D. nia.
Qed.

Lemma orZero_nonneg x :
  lt x zero = false -> isNaN (orZero x) = false /\ lt (orZero x) zero = false.
Proof.
  intros H. unfold orZero. destruct (truthyNum x) eqn:T.
  - split; [| exact H]. now destruct x.
  - split; reflexivity.
Qed.

(** The number read from a string of digits is neither [NaN] nor
    negative. *)
Lemma voltage_of_digits s :
  isNaN (orZero (parseInt (keepDigits s))) = false
  /\ lt (orZero (parseInt (keepDigits s))) zero = false.
Proof.
  pose proof (keepDigits_digits s) as K.
  pose proof (keepDigits_second s) as K2.
  destruct (keepDigits s) as [| c r]; [split; reflexivity |].
  destruct (digit_facts c K) as [W [M [P _]]].
  unfold parseInt. cbn [trimStart]. rewrite W, M, P.
  destruct r as [| p r0].
  - pose proof (scanRadix_nonneg 10 (String c "") 0 0) as N.
    destruct (scanRadix 10 0 0 (String c "")) as [[v n] rest].
    destruct n; [split; reflexivity |].
    apply orZero_nonneg, roundFrom_nonneg; [lia |].
    change 0%Q with (inject_Z 0). rewrite <- Zle_Qle. apply N; lia.
  - destruct (digit_facts p (K2 c p r0 eq_refl)) as [_ [_ [_ [X1 X2]]]].
    rewrite X1, X2, andb_false_r.
    pose proof (scanRadix_nonneg 10 (String c (String p r0)) 0 0) as N.
    destruct (scanRadix 10 0 0 (String c (String p r0))) as [[v n] rest].
    destruct n; [split; reflexivity |].
    apply orZero_nonneg, roundFrom_nonneg; [lia |].
    change 0%Q with (inject_Z 0). rewrite <- Zle_Qle. apply N; lia.
Qed.

Lemma record_voltage rawData tower :
  In tower (processExcelData rawData) ->
  isNaN (voltage tower) = false /\ lt (voltage tower) zero = false.
Proof.
  intros H. unfold processExcelData in H. apply filter_In in H.
  destruct H as [H _]. apply In_mapIndexed in H.
  destruct H as [row [index [_ ->]]]. apply voltage_of_digits.
Qed.


(** ** The filters *)

Lemma includes_empty s : includes s "" = true.
Proof. destruct s; reflexivity. Qed.

Lemma filterWhen_filter cond test towers :
  filterWhen cond test towers = filter (fun t => negb cond || test t) towers.
Proof.
  unfold filterWhen. destruct cond; simpl; [reflexivity |].
  induction towers as [| t ts IH]; simpl; [reflexivity | now rewrite <- IH].
Qed.

Lemma applyFilters_filter towers q v r s :
  applyFilters towers q v r s = filter (shownBy q v r s) towers.
Proof.
  unfold applyFilters. rewrite !filterWhen_filter, !filter_filter.
  apply filter_ext. intros t. unfold shownBy. rewrite negb_involutive.
  assert (V : negb (negb (isEmpty v)) || inVoltageBand v (voltage t)
              = inVoltageBand v (voltage t)).
  { destruct v; [reflexivity | simpl; reflexivity]. }
  assert (R : negb (negb (isEmpty r)) || matchesRegion r t = matchesRegion r t).
  { destruct r; [| reflexivity]. unfold matchesRegion. simpl toLowerCase.
    now rewrite includes_empty. }
  assert (S : negb (negb (isEmpty s)) || matchesStatus s t = matchesStatus s t).
  { destruct s; [| reflexivity]. unfold matchesStatus. simpl toLowerCase.
    now rewrite includes_empty. }
  cbv beta. rewrite V, R, S. now rewrite !andb_assoc.
Qed.

Lemma filter_idempotent (A : Type) (p : A -> bool) (l : list A) :
  filter p (filter p l) = filter p l.
Proof.
  rewrite filter_filter. apply filter_ext_in. intros x _.
  now destruct (p x).
Qed.

Lemma filter_all (A : Type) (p : A -> bool) (l : list A) :
  (forall x, In x l -> p x = true) -> filter p l = l.
Proof.
  induction l as [| x t IH]; intros H; simpl; [reflexivity |].
  rewrite (H x (or_introl eq_refl)). f_equal. apply IH.
  intros y Hy. apply H. now right.
Qed.

Lemma applyFilters_In towers q v r s t :
  In t (applyFilters towers q v r s) -> In t towers.
Proof. rewrite applyFilters_filter. intros H. now apply filter_In in H. Qed.


(** X1.  The four bands of [getTowerStats] and the towers whose voltage is
    [NaN] partition the list, and each band counts the towers that
    [applyFilters] shows when this band alone is selected. *)
Theorem tower_stats_bands towers :
  (total (getTowerStats towers)
   = atLeast500 (getTowerStats towers) + from150to499 (getTowerStats towers)
     + from70to149 (getTowerStats towers) + below70 (getTowerStats towers)
     + countWhere isNaN towers)%nat
  /\ atLeast500 (getTowerStats towers)
     = List.length (applyFilters towers "" "500+" "" "")
  /\ from150to499 (getTowerStats towers)
     = List.length (applyFilters towers "" "150-499" "" "")
  /\ from70to149 (getTowerStats towers)
     = List.length (applyFilters towers "" "70-149" "" "")
  /\ below70 (getTowerStats towers)
     = List.length (applyFilters towers "" "<70" "" "").
Proof.
  split; [apply stats_partition |]. repeat split; reflexivity.
Qed.

(** X2.  Among the records of [processExcelData], whatever the filters, no
    voltage is [NaN]: the four bands add up to the total. *)
Theorem shown_records_fall_in_one_band rawData q v r s :
  let shown := applyFilters (processExcelData rawData) q v r s in
  countWhere isNaN shown = 0%nat
  /\ (total (getTowerStats shown)
      = atLeast500 (getTowerStats shown) + from150to499 (getTowerStats shown)
        + from70to149 (getTowerStats shown) + below70 (getTowerStats shown))%nat.
Proof.
  cbv zeta.
  assert (N : countWhere isNaN (applyFilters (processExcelData rawData) q v r s)
              = 0%nat).
  { unfold countWhere.
    rewrite (filter_none _ (fun t => isNaN (voltage t))); [reflexivity |].
    destruct (existsb _ _) eqn:E; [| reflexivity].
    apply existsb_exists in E. destruct E as [t [Ht Nt]].
    apply applyFilters_In, record_voltage in Ht.
    destruct Ht as [Hn _]. congruence. }
  split; [exact N |]. rewrite stats_partition, N. lia.
Qed.

(** X3.  [applyFilters] is one filter by the conjunction of the criteria;
    it is idempotent; a blank query with empty filters changes nothing,
    nor does a voltage filter that names no band. *)
Theorem applyFilters_is_one_filter towers q v r s :
  applyFilters towers q v r s = filter (shownBy q v r s) towers
  /\ applyFilters (applyFilters towers q v r s) q v r s
     = applyFilters towers q v r s
  /\ (isEmpty (trim q) = true -> applyFilters towers q "" "" "" = towers)
  /\ (v <> "500+" -> v <> "150-499" -> v <> "70-149" -> v <> "<70" ->
      applyFilters towers "" v "" "" = towers).
Proof.
  split; [apply applyFilters_filter |]. split; [| split].
  - rewrite !applyFilters_filter. apply filter_idempotent.
  - intros B. rewrite applyFilters_filter. apply filter_all. intros t _.
    unfold shownBy, matchesRegion, matchesStatus. rewrite B.
    cbn [toLowerCase]. rewrite !includes_empty. reflexivity.
  - intros A B C D. rewrite applyFilters_filter. apply filter_all. intros t _.
    unfold shownBy, matchesRegion, matchesStatus, inVoltageBand.
    apply String.eqb_neq in A, B, C, D. rewrite A, B, C, D.
    cbn [toLowerCase]. rewrite !includes_empty. reflexivity.
Qed.

(** Two records, of 150 and of 500 kV: a blank query and a voltage filter
    that names no band keep both, the band of 500 keeps the second. *)
Lemma applyFilters_is_one_filter_witness :
  applyFilters Examples.sampleTowers "   " "" "" "" = Examples.sampleTowers
  /\ applyFilters Examples.sampleTowers "" "all" "" "" = Examples.sampleTowers
  /\ List.length Examples.sampleTowers = 2%nat
  /\ map voltage (applyFilters Examples.sampleTowers "" "500+" "" "")
     = [Fin 500].
Proof.
  split; [| split; [| split]].
  - apply (proj1 (proj2 (proj2 (applyFilters_is_one_filter
             Examples.sampleTowers "   " "" "" "")))).
    reflexivity.
  - apply (proj2 (proj2 (proj2 (applyFilters_is_one_filter
             Examples.sampleTowers "" "all" "" ""))));
      discriminate.
  - vm_compute. reflexivity.
  - rewrite (proj1 (applyFilters_is_one_filter
                      Examples.sampleTowers "" "500+" "" "")).
    vm_compute. reflexivity.
Defined.

(** X4.  The tiers of [getMarkerColor] and [getMarkerSize] are the bands of
    the voltage filter; a [NaN] voltage gets the lowest tier. *)
Theorem marker_tiers_match_bands v :
  (inVoltageBand "500+" v = true
   <-> getMarkerColor v = "#DC2626" /\ getMarkerSize v = Fin 28)
  /\ (inVoltageBand "150-499" v = true
      <-> getMarkerColor v = "#EA580C" /\ getMarkerSize v = Fin 24)
  /\ (inVoltageBand "70-149" v = true
      <-> getMarkerColor v = "#CA8A04" /\ getMarkerSize v = Fin 20)
  /\ (inVoltageBand "<70" v = true \/ isNaN v = true
      <-> getMarkerColor v = "#059669" /\ getMarkerSize v = Fin 16).
Proof.
  change (inVoltageBand "500+" v) with (ge v (Fin 500)).
  change (inVoltageBand "150-499" v) with (ge v (Fin 150) && lt v (Fin 500)).
  change (inVoltageBand "70-149" v) with (ge v (Fin 70) && lt v (Fin 150)).
  change (inVoltageBand "<70" v) with (lt v (Fin 70)).
  unfold getMarkerColor, getMarkerSize.
  destruct (isNaN v) eqn:N.
  - destruct v; try discriminate. simpl.
    intuition (try discriminate; try congruence).
  - rewrite !(lt_not_ge v _ N).
    destruct (ge v (Fin 500)) eqn:A.
    + rewrite (ge_weaken v 500 150), (ge_weaken v 500 70) by (lra || assumption).
      simpl. intuition (try discriminate; try congruence).
    + destruct (ge v (Fin 150)) eqn:B.
      * rewrite (ge_weaken v 150 70) by (lra || assumption).
        simpl. intuition (try discriminate; try congruence).
      * destruct (ge v (Fin 70)) eqn:C; simpl;
          intuition (try discriminate; try congruence).
Qed.

Lemma ge_le_trans v w c : le v w = true -> ge v (Fin c) = true -> ge w (Fin c) = true.
Proof. unfold ge. intros H1 H2. exact (le_trans _ _ _ H2 H1). Qed.

(** X5.  [getMarkerSize] is monotone in the voltage. *)
Theorem marker_size_monotone v w :
  le v w = true -> le (getMarkerSize v) (getMarkerSize w) = true.
Proof.
  intros H. unfold getMarkerSize.
  destruct (ge v (Fin 500)) eqn:A.
  - now rewrite (ge_le_trans v w 500 H A).
  - destruct (ge v (Fin 150)) eqn:B.
    + rewrite (ge_le_trans v w 150 H B). now destruct (ge w (Fin 500)).
    + destruct (ge v (Fin 70)) eqn:C.
      * rewrite (ge_le_trans v w 70 H C).
        now destruct (ge w (Fin 500)), (ge w (Fin 150)).
      * now destruct (ge w (Fin 500)), (ge w (Fin 150)), (ge w (Fin 70)).
Qed.

Lemma marker_size_monotone_witness :
  le (getMarkerSize (Fin 70)) (getMarkerSize (Fin 500)) = true.
Proof. apply marker_size_monotone. reflexivity. Defined.

(** X6.  The voltage of a record of [processExcelData] is neither [NaN]
    nor negative, whatever the cell holds: only its digits are read. *)
Theorem record_voltage_not_negative rawData tower :
  In tower (processExcelData rawData) ->
  isNaN (voltage tower) = false /\ lt (voltage tower) zero = false.
Proof. apply record_voltage. Qed.

Lemma record_voltage_not_negative_witness :
  isNaN (voltage (toTower Examples.negativeVoltageRow 0)) = false
  /\ lt (voltage (toTower Examples.negativeVoltageRow 0)) zero = false.
Proof.
  apply (record_voltage_not_negative [Examples.negativeVoltageRow]).
  vm_compute. left. reflexivity.
Defined.

Lemma isValidCoords_fitsBounds tower :
  isValidCoords tower = true -> fitsBounds tower = true.
Proof.
  unfold isValidCoords, fitsBounds. rewrite !andb_true_iff.
  intros [[[[[[[[[A B] C] D] E] F] _] _] _] _].
  repeat split; try assumption.
  - destruct (latitude tower); try discriminate; auto.
  - destruct (longitude tower); try discriminate; auto.
Qed.

(** X7.  The filter in front of [fitBounds] keeps every shown record of
    [processExcelData]. *)
Theorem shown_records_fit_bounds rawData q v r s :
  filter fitsBounds (applyFilters (processExcelData rawData) q v r s)
  = applyFilters (processExcelData rawData) q v r s.
Proof.
  apply filter_all. intros t H. apply applyFilters_In in H.
  unfold processExcelData in H. apply filter_In in H.
  now apply isValidCoords_fitsBounds.
Qed.

End TowerViewProperties.

Module CsvProperties.

Import JS TowerMap TowerView Spec ViewSpec.
Local Open Scope string_scope.
Local Open Scope list_scope.

(** ** The rows read from a text *)

Lemma removeChars_idempotent p s :
  removeChars p (removeChars p s) = removeChars p s.
Proof.
  induction s as [| c r IH]; simpl; [reflexivity |].
  destruct (p c) eqn:E; simpl; [exact IH | now rewrite E, IH].
Qed.

Lemma cellAt_unquoted values index :
  let cell := cellAt (map unquote values) index in
  removeChars (fun c => Ascii.eqb c quote) cell = cell.
Proof.
  cbv zeta. unfold cellAt. revert index.
  induction values as [| v vs IH]; intros [| i]; simpl; try reflexivity.
  - apply removeChars_idempotent.
  - apply IH.
Qed.

(** The header [__proto__] gives no key. *)
Lemma fillRow_keys row headers i values :
  map fst (fillRow row headers i values)
  = keysAfter (map fst row)
              (filter (fun h => negb (String.eqb h "__proto__")) headers).
Proof.
  revert row i. induction headers as [| h rest IH]; intros row i; simpl;
    [reflexivity |].
  rewrite IH. unfold put.
  destruct (String.eqb h "__proto__"); simpl; [reflexivity |].
  now rewrite keys_assign.
Qed.

Lemma fillRow_cells row headers i values key v :
  lookup (fillRow row headers i values) key = Some v ->
  lookup row key = Some v \/ exists j, v = VStr (cellAt values j).
Proof.
  revert row i. induction headers as [| h rest IH]; intros row i; simpl;
    [auto |].
  intros H. apply IH in H. destruct H as [H | H]; [| now right].
  unfold put in H. destruct (String.eqb h "__proto__"); [now left |].
  destruct (string_dec h key) as [-> | N].
  - rewrite lookup_assign_same in H. injection H as <-. right. now exists i.
  - rewrite lookup_assign_other in H by congruence. now left.
Qed.

Lemma keysAfter_NoDup keys headers :
  NoDup keys -> NoDup (keysAfter keys headers).
Proof.
  revert keys. induction headers as [| h rest IH]; intros keys H; simpl;
    [exact H |].
  apply IH. destruct (existsb (String.eqb h) keys) eqn:E; [exact H |].
  apply NoDup_app; [exact H | repeat constructor; intros [] |].
  intros k Hk [<- | []]. apply existsb_eqb_In in Hk. congruence.
Qed.

Lemma keysAfter_In keys headers k :
  In k (keysAfter keys headers) <-> In k keys \/ In k headers.
Proof.
  revert keys. induction headers as [| h rest IH]; intros keys; simpl;
    [tauto |].
  rewrite IH. destruct (existsb (String.eqb h) keys) eqn:E.
  - apply existsb_eqb_In in E. split; [tauto |].
    intros [H | [<- | H]]; auto.
  - rewrite in_app_iff. simpl. tauto.
Qed.



End CsvProperties.

Module UniqueProperties.

Import JS TowerMap TowerView Spec ViewSpec.
Local Open Scope string_scope.
Local Open Scope list_scope.

(** ** The order of strings *)

Lemma ascii_lt_trans a b c :
  Ascii.compare a b = Lt -> Ascii.compare b c = Lt -> Ascii.compare a c = Lt.
Proof.
  unfold Ascii.compare. rewrite !N.compare_lt_iff. lia.
Qed.

Lemma string_lt_trans a b c :
  String.compare a b = Lt -> String.compare b c = Lt -> String.compare a c = Lt.
Proof.
  revert b c. induction a as [| x a IH]; intros [| y b] [| z c]; simpl;
    try discriminate; try reflexivity.
  destruct (Ascii.compare x y) eqn:XY; try discriminate.
  - apply Ascii.compare_eq_iff in XY. subst y.
    destruct (Ascii.compare x z); try discriminate; [apply IH | reflexivity].
  - intros _. destruct (Ascii.compare y z) eqn:YZ; try discriminate.
    + apply Ascii.compare_eq_iff in YZ. subst z. now rewrite XY.
    + intros _. now rewrite (ascii_lt_trans x y z XY YZ).
Qed.

Lemma ltb_compare a b : String.ltb a b = true <-> String.compare a b = Lt.
Proof.
  unfold String.ltb. destruct (String.compare a b); split; congruence.
Qed.

Lemma ltb_asym a b : String.ltb a b = true -> String.ltb b a = false.
Proof.
  intros H. apply ltb_compare in H. unfold String.ltb.
  rewrite String.compare_antisym, H. reflexivity.
Qed.

Lemma ltb_trichotomy a b :
  String.ltb a b = true \/ a = b \/ String.ltb b a = true.
Proof.
  destruct (String.compare a b) eqn:E.
  - right. left. now apply String.compare_eq_iff.
  - left. now apply ltb_compare.
  - right. right. apply ltb_compare.
    rewrite String.compare_antisym, E. reflexivity.
Qed.

Lemma ltb_trans a b c :
  String.ltb a b = true -> String.ltb b c = true -> String.ltb a c = true.
Proof. rewrite !ltb_compare. apply string_lt_trans. Qed.

Lemma notAfter_total x y : notAfter x y = false -> notAfter y x = true.
Proof.
  unfold notAfter. intros H. apply negb_false_iff in H.
  now rewrite (ltb_asym _ _ H).
Qed.

Lemma notAfter_trans x y z :
  notAfter x y = true -> notAfter y z = true -> notAfter x z = true.
Proof.
  unfold notAfter. rewrite !negb_true_iff. intros XY YZ.
  destruct (String.ltb z x) eqn:ZX; [| reflexivity].
  destruct (ltb_trichotomy y x) as [H | [-> | H]]; [congruence | congruence |].
  rewrite (ltb_trans _ _ _ ZX H) in YZ. discriminate.
Qed.

(** ** Distinct values *)

Lemma uniqueFrom_In seen l x :
  In x (uniqueFrom seen l) <-> In x l /\ ~ In x seen.
Proof.
  revert seen. induction l as [| s t IH]; intros seen; simpl; [tauto |].
  destruct (existsb (String.eqb s) seen) eqn:E.
  - rewrite IH. apply existsb_eqb_In in E. split; [tauto |].
    intros [[<- | H] N]; [contradiction | tauto].
  - assert (N : ~ In s seen).
    { intros H. apply existsb_eqb_In in H. congruence. }
    simpl. rewrite IH. simpl. split.
    + intros [<- | [H1 H2]]; [tauto |]. split; [tauto |]. tauto.
    + intros [[<- | H] M]; [tauto |].
      destruct (string_dec s x) as [-> | D]; [tauto |]. right. tauto.
Qed.

Lemma uniqueFrom_NoDup seen l : NoDup (uniqueFrom seen l).
Proof.
  revert seen. induction l as [| s t IH]; intros seen; simpl; [constructor |].
  destruct (existsb (String.eqb s) seen); [apply IH |].
  constructor; [| apply IH]. rewrite uniqueFrom_In. simpl. tauto.
Qed.

Lemma strict_of_NoDup l :
  NoDup l -> StronglySorted (fun x y => notAfter x y = true) l ->
  StronglySorted (fun x y => String.ltb x y = true) l.
Proof.
  intros N S. induction S as [| a t St IH Ha]; [constructor |].
  inversion N as [| ? ? Na Nt]; subst. constructor; [auto |].
  rewrite Forall_forall in Ha |- *. intros y Hy.
  specialize (Ha y Hy). unfold notAfter in Ha. apply negb_true_iff in Ha.
  destruct (ltb_trichotomy a y) as [H | [-> | H]];
    [exact H | contradiction | congruence].
Qed.

Lemma uniqueSorted_spec l :
  StronglySorted (fun x y => String.ltb x y = true) (uniqueSorted l)
  /\ forall s, In s (uniqueSorted l) <-> s <> "" /\ In s l.
Proof.
  unfold uniqueSorted, sortStrings.
  set (kept := filter (fun s => negb (isEmpty s)) (uniqueFrom [] l)).
  pose proof (insertionSort_perm string (fun x y => negb (String.ltb y x)) kept)
    as P.
  assert (N : NoDup kept) by (apply NoDup_filter, uniqueFrom_NoDup).
  split.
  - apply strict_of_NoDup; [apply (Permutation_NoDup P N) |].
    apply insertionSort_sorted with (ok := fun _ => True).
    + intros x y _ _. apply notAfter_total.
    + intros x y z _ _ _. apply notAfter_trans.
    + apply Forall_forall. auto.
  - intros s. split.
    + intros H. apply (Permutation_in _ (Permutation_sym P)) in H.
      unfold kept in H. apply filter_In in H. destruct H as [H E].
      apply uniqueFrom_In in H. split; [| tauto].
      intros ->. discriminate.
    + intros [E H]. apply (Permutation_in _ P). unfold kept.
      apply filter_In. split; [apply uniqueFrom_In; simpl; tauto |].
      destruct s; [congruence | reflexivity].
Qed.

(** X9.  [getUniqueRegions] and [getUniqueStatuses] list the non-empty
    values, once each, in strictly increasing order. *)
Theorem unique_regions_sorted towers :
  (StronglySorted (fun x y => String.ltb x y = true) (getUniqueRegions towers)
   /\ forall r, In r (getUniqueRegions towers)
                <-> r <> "" /\ exists t, In t towers /\ region t = r)
  /\ (StronglySorted (fun x y => String.ltb x y = true)
                     (getUniqueStatuses towers)
      /\ forall s, In s (getUniqueStatuses towers)
                   <-> s <> "" /\ exists t, In t towers /\ status t = s).
Proof.
  unfold getUniqueRegions, getUniqueStatuses. split.
  - destruct (uniqueSorted_spec (map region towers)) as [S M].
    split; [exact S |]. intros r. rewrite M, in_map_iff.
    split; intros [E [t [H1 H2]]]; (split; [exact E | exists t; tauto]).
  - destruct (uniqueSorted_spec (map status towers)) as [S M].
    split; [exact S |]. intros r. rewrite M, in_map_iff.
    split; intros [E [t [H1 H2]]]; (split; [exact E | exists t; tauto]).
Qed.

End UniqueProperties.

Module FileProperties.

Import JS Dashboard Spec.
Local Open Scope string_scope.
Local Open Scope list_scope.

(** ** The descriptors of a file *)

Lemma analyzeField_name values fieldName :
  name (analyzeField values fieldName) = fieldName.
Proof. unfold analyzeField, setStatistics. split_ifs; reflexivity. Qed.

Lemma analyzeField_one_role values fieldName :
  isMetric (analyzeField values fieldName) = true ->
  isDimension (analyzeField values fieldName) = true -> False.
Proof.
  unfold analyzeField, setStatistics. split_ifs; simpl; congruence.
Qed.

Lemma fold_putAny_NoDup (K : Type) (f : K -> string) (g : K -> value)
      (keys : list K) (state : obj value * bool) :
  NoDup (map fst (fst state)) ->
  NoDup (map fst (fst (fold_left (fun acc k => putAny acc (f k) (g k))
                                 keys state))).
Proof.
  revert state. induction keys as [| k rest IH]; intros [o plain] H; simpl;
    [exact H |].
  apply IH. unfold putAny.
  destruct (plain && String.eqb (f k) "__proto__"); [exact H |].
  cbn [fst]. rewrite keys_assign.
  destruct (existsb (String.eqb (f k)) (map fst o)) eqn:E; [exact H |].
  apply NoDup_app; [exact H | repeat constructor; intros [] |].
  intros x Hx [<- | []]. apply existsb_eqb_In in Hx. congruence.
Qed.

Lemma own_keys_NoDup (A : Type) (o : obj A) :
  NoDup (map fst o) -> NoDup (own_keys o).
Proof.
  intros H. unfold own_keys.
  apply (Permutation_NoDup
           (Permutation_sym (Permutation_map fst (own_entries_perm A o))) H).
Qed.

Lemma cleanRow_NoDup row : NoDup (map fst (Files.cleanRow row)).
Proof. unfold Files.cleanRow. apply fold_putAny_NoDup. constructor. Qed.

Lemma map_name_fields (cleaned : list DataItem) names :
  map name
      (map (fun n => analyzeField (map (fun row => get row n) cleaned) n) names)
  = names.
Proof.
  rewrite map_map. induction names as [| n t IH]; simpl; [reflexivity |].
  now rewrite analyzeField_name, IH.
Qed.

Lemma fields_of_file rawData fileName fileId fileSize :
  map name (Files.fields (Files.processFileData rawData fileName fileId fileSize))
  = own_keys (hd [] (Files.data
                       (Files.processFileData rawData fileName fileId fileSize))).
Proof.
  unfold Files.processFileData. destruct rawData as [| row rest];
    [reflexivity |].
  cbn [List.length Nat.eqb Files.fields Files.data]. apply map_name_fields.
Qed.

Lemma fields_NoDup rawData fileName fileId fileSize :
  NoDup (map name (Files.fields
                     (Files.processFileData rawData fileName fileId fileSize))).
Proof.
  rewrite fields_of_file. apply own_keys_NoDup.
  unfold Files.processFileData. destruct rawData as [| row rest];
    [constructor |].
  cbn [List.length Nat.eqb Files.data map hd]. apply cleanRow_NoDup.
Qed.

Lemma NoDup_map_injective (A B : Type) (f : A -> B) (l : list A) x y :
  NoDup (map f l) -> In x l -> In y l -> f x = f y -> x = y.
Proof.
  induction l as [| a t IH]; simpl; intros N Hx Hy E; [contradiction |].
  inversion N as [| ? ? Na Nt]; subst.
  destruct Hx as [<- | Hx], Hy as [<- | Hy]; auto.
  - exfalso. apply Na. rewrite E. now apply in_map.
  - exfalso. apply Na. rewrite <- E. now apply in_map.
Qed.

(** X11.  When no key of a row is [__proto__] once trimmed, the chart of
    a file has two different fields as axes, so that its points are the
    best groups of the cleaned rows as soon as no group has the name of a
    member of [Object.prototype] and no sum is [NaN]. *)
Theorem file_chart_axes_differ rawData fileName fileId fileSize chart :
  let file := Files.processFileData rawData fileName fileId fileSize in
  (forall row key,
      In row rawData -> In key (own_keys row) -> trim key <> "__proto__") ->
  Files.chart file = Some chart ->
  exists metric dimension,
    In metric (Files.fields file) /\ In dimension (Files.fields file)
    /\ yAxis chart = name metric /\ xAxis chart = name dimension
    /\ name metric <> name dimension
    /\ ((forall row, In row (Files.data file) ->
           prototypeMember (groupKey dimension row) = None) ->
        (forall k, isNaN (groupSum metric dimension (Files.data file) k) = false) ->
        exists entries,
          pointsOf chart = map asPoint entries
          /\ ranked metric dimension (Files.data file) 10 entries).
Proof.
  cbv zeta. intros _ H.
  assert (C : generateBarChart
                (Files.data (Files.processFileData rawData fileName fileId fileSize))
                (Files.fields (Files.processFileData rawData fileName fileId fileSize))
                fileName fileId = Some chart).
  { rewrite <- H. unfold Files.processFileData. now destruct rawData. }
  pose proof (fields_NoDup rawData fileName fileId fileSize) as N.
  set (file := Files.processFileData rawData fileName fileId fileSize) in *.
  destruct (series_general _ _ _ _ _ C)
    as [metric [dimension [Hm [Hd [_ [_ R]]]]]].
  rewrite generateBarChart_find, Hm, Hd in C. injection C as <-.
  apply find_some in Hm, Hd. destruct Hm as [Im Mm], Hd as [Id Dd].
  exists metric, dimension.
  destruct (chartOf_axes metric dimension (Files.data file) fileId)
    as [X [Y _]].
  assert (D : name metric <> name dimension).
  { intros E. assert (metric = dimension)
      by (apply (NoDup_map_injective _ _ name (Files.fields file)); auto).
    subst dimension.
    unfold file, Files.processFileData in Im. destruct rawData; [destruct Im |].
    cbn [List.length Nat.eqb Files.fields] in Im.
    apply in_map_iff in Im. destruct Im as [n [<- _]].
    eapply analyzeField_one_role; eassumption. }
  repeat split; auto.
Qed.

(** A sheet of two columns: the chart shows the amounts by status. *)
Lemma file_chart_axes_differ_witness :
  exists chart,
    Files.chart (Files.processFileData Examples.sampleSheet "name" "file" None)
    = Some chart
    /\ exists metric dimension,
        yAxis chart = name metric /\ xAxis chart = name dimension
        /\ name metric <> name dimension.
Proof.
  destruct (Files.chart (Files.processFileData Examples.sampleSheet "name" "file" None))
    as [chart |] eqn:E; [| vm_compute in E; discriminate E].
  exists chart. split; [reflexivity |].
  assert (K : forall row key,
             In row Examples.sampleSheet -> In key (own_keys row) ->
             trim key <> "__proto__").
  { intros row key Hr Hk.
    repeat (destruct Hr as [<- | Hr];
            [repeat (destruct Hk as [<- | Hk]; [vm_compute; discriminate |]);
             destruct Hk |]).
    destruct Hr. }
  destruct (file_chart_axes_differ
              Examples.sampleSheet "name" "file" None chart K E)
    as [metric [dimension [_ [_ [Y [X [D _]]]]]]].
  exists metric, dimension. auto.
Defined.

End FileProperties.

Module FieldProperties.

Import JS Dashboard Spec.
Local Open Scope string_scope.
Local Open Scope list_scope.

(** ** Samples and distinct values *)

Lemma distinctFrom_length seen l :
  (List.length (distinctFrom seen l) <= List.length l)%nat.
Proof.
  revert seen. induction l as [| v t IH]; intros seen; simpl; [lia |].
  destruct (existsb (sameValueZero v) seen); simpl.
  - specialize (IH seen). lia.
  - specialize (IH (v :: seen)). lia.
Qed.

Lemma distinctFrom_prefix seen n l :
  (List.length (distinctFrom seen (firstn n l))
   <= List.length (distinctFrom seen l))%nat.
Proof.
  revert seen n. induction l as [| v t IH]; intros seen n.
  - rewrite firstn_nil. simpl. lia.
  - destruct n as [| n]; simpl; [lia |].
    destruct (existsb (sameValueZero v) seen); simpl.
    + apply IH.
    + specialize (IH (v :: seen) n). lia.
Qed.

Lemma distinct_nil l : distinct l = [] -> l = [].
Proof. destruct l; [reflexivity | discriminate]. Qed.

(** X12.  Samples and distinct values of [analyzeField]: at most 5 samples,
    no more than the distinct values, no more of these than values; and
    a column without usable value is a text field without role. *)
Theorem sample_and_unique_bounds values fieldName :
  let f := analyzeField values fieldName in
  (List.length (sampleValues f) <= 5)%nat
  /\ (List.length (sampleValues f) <= uniqueValues f)%nat
  /\ (uniqueValues f <= List.length values)%nat
  /\ (uniqueValues f = 0%nat <-> nonNullValuesOf values = [])
  /\ (nonNullValuesOf values = [] ->
      type f = text /\ isMetric f = false /\ isDimension f = false
      /\ sampleValues f = [] /\ total f = None).
Proof.
  cbv zeta.
  assert (U : uniqueValues (analyzeField values fieldName)
              = List.length (distinct (nonNullValuesOf values))).
  { unfold analyzeField, setStatistics.
    destruct (nonNullValuesOf values) eqn:E; [reflexivity |].
    cbn [List.length Nat.eqb]. split_ifs; reflexivity. }
  assert (S : sampleValues (analyzeField values fieldName)
              = map ToString (distinct (firstn 5 (nonNullValuesOf values)))).
  { unfold analyzeField, setStatistics.
    destruct (nonNullValuesOf values) eqn:E; [reflexivity |].
    cbn [List.length Nat.eqb]. split_ifs; reflexivity. }
  rewrite U, S, length_map. unfold distinct.
  split; [| split; [| split; [| split]]].
  - etransitivity; [apply distinctFrom_length |].
    rewrite length_firstn. apply Nat.le_min_l.
  - apply distinctFrom_prefix.
  - etransitivity; [apply distinctFrom_length |].
    unfold nonNullValuesOf. apply filter_length_le.
  - split.
    + intros H. apply distinct_nil. now apply length_zero_iff_nil.
    + intros ->. reflexivity.
  - intros E. unfold analyzeField. rewrite E. repeat split.
Qed.

Lemma sample_and_unique_bounds_witness :
  type (analyzeField [VNull; VStr ""; VStr "N/A"; VUndefined] "Total") = text
  /\ isMetric (analyzeField [VNull; VStr ""; VStr "N/A"; VUndefined] "Total")
     = false.
Proof.
  destruct (proj2 (proj2 (proj2 (proj2
    (sample_and_unique_bounds [VNull; VStr ""; VStr "N/A"; VUndefined] "Total"))))
    eq_refl) as [H1 [H2 _]].
  split; assumption.
Defined.

(** ** Minimum and maximum *)

Lemma lt_le x y : lt x y = true -> le x y = true.
Proof. unfold le. now intros ->. Qed.

Lemma not_lt_le x y :
  isNaN x = false -> isNaN y = false -> lt y x = false -> le x y = true.
Proof.
  destruct x as [a | | |], y as [b | | |]; intros Hx Hy H;
    try discriminate; try reflexivity.
  apply le_Fin. destruct (Qlt_le_dec b a) as [L | L]; [| exact L].
  apply lt_Fin in L. congruence.
Qed.

Lemma min2_spec x y :
  isNaN x = false -> isNaN y = false ->
  isNaN (min2 x y) = false
  /\ le (min2 x y) x = true /\ le (min2 x y) y = true.
Proof.
  intros Hx Hy. unfold min2. rewrite Hx, Hy. simpl.
  destruct (lt y x) eqn:L.
  - repeat split; [exact Hy | now apply lt_le | now apply le_refl].
  - repeat split; [exact Hx | now apply le_refl | now apply not_lt_le].
Qed.

Lemma max2_spec x y :
  isNaN x = false -> isNaN y = false ->
  isNaN (max2 x y) = false
  /\ le x (max2 x y) = true /\ le y (max2 x y) = true.
Proof.
  intros Hx Hy. unfold max2. rewrite Hx, Hy. simpl.
  destruct (lt x y) eqn:L.
  - repeat split; [exact Hy | now apply lt_le | now apply le_refl].
  - repeat split; [exact Hx | now apply le_refl | now apply not_lt_le].
Qed.

Lemma fold_min2 l acc :
  isNaN acc = false -> Forall (fun x => isNaN x = false) l ->
  isNaN (fold_left min2 l acc) = false
  /\ le (fold_left min2 l acc) acc = true
  /\ forall x, In x l -> le (fold_left min2 l acc) x = true.
Proof.
  revert acc. induction l as [| y t IH]; intros acc Ha Hl; simpl.
  - repeat split; [exact Ha | now apply le_refl | intros x []].
  - inversion Hl as [| ? ? Hy Ht]; subst.
    destruct (min2_spec acc y Ha Hy) as [N [L1 L2]].
    destruct (IH (min2 acc y) N Ht) as [N' [L' M']].
    repeat split; [exact N' | exact (le_trans _ _ _ L' L1) |].
    intros x [<- | Hx]; [exact (le_trans _ _ _ L' L2) | now apply M'].
Qed.

Lemma fold_max2 l acc :
  isNaN acc = false -> Forall (fun x => isNaN x = false) l ->
  isNaN (fold_left max2 l acc) = false
  /\ le acc (fold_left max2 l acc) = true
  /\ forall x, In x l -> le x (fold_left max2 l acc) = true.
Proof.
  revert acc. induction l as [| y t IH]; intros acc Ha Hl; simpl.
  - repeat split; [exact Ha | now apply le_refl | intros x []].
  - inversion Hl as [| ? ? Hy Ht]; subst.
    destruct (max2_spec acc y Ha Hy) as [N [L1 L2]].
    destruct (IH (max2 acc y) N Ht) as [N' [L' M']].
    repeat split; [exact N' | exact (le_trans _ _ _ L1 L') |].
    intros x [<- | Hx]; [exact (le_trans _ _ _ L2 L') | now apply M'].
Qed.

(** X13.  When the statistics are present they come from a non-empty
    [numericValues], and [min] and [max] bracket every numeric value. *)
Theorem statistics_bracket_values values fieldName t :
  total (analyzeField values fieldName) = Some t ->
  numericValuesOf values <> []
  /\ t = sum (numericValuesOf values)
  /\ exists lo hi,
      min (analyzeField values fieldName) = Some lo
      /\ max (analyzeField values fieldName) = Some hi
      /\ forall x, In x (numericValuesOf values) ->
                   le lo x = true /\ le x hi = true.
Proof.
  intros H.
  assert (NE : numericValuesOf values <> []).
  { intros E. unfold analyzeField, setStatistics in H. rewrite E in H.
    cbn [List.length Nat.ltb Nat.leb] in H.
    revert H. split_ifs; intros H; discriminate H. }
  split; [exact NE |].
  destruct (statistics_from_numericValues values fieldName)
    as [[T _] | [T [_ [Mi Ma]]]]; [congruence |].
  split; [congruence |].
  exists (minList (numericValuesOf values)), (maxList (numericValuesOf values)).
  split; [exact Mi |]. split; [exact Ma |].
  intros x Hx. pose proof (numericValues_parsed values) as P. split.
  - now apply (fold_min2 _ PInf eq_refl P).
  - now apply (fold_max2 _ NInf eq_refl P).
Qed.

Lemma statistics_bracket_values_witness :
  numericValuesOf Examples.currencyColumn <> [].
Proof.
  apply (statistics_bracket_values Examples.currencyColumn "Gaji"
                                   (Fin (1703 # 4))).
  vm_compute. reflexivity.
Defined.

End FieldProperties.

Module PanelProperties.

Import JS Dashboard Spec ViewSpec.
Local Open Scope string_scope.
Local Open Scope list_scope.

(** ** Expanding and collapsing a file *)

Lemma toggle_In expandedFiles fileId x :
  In x (Files.toggleFileExpansion expandedFiles fileId)
  <-> (x = fileId /\ ~ In fileId expandedFiles)
      \/ (x <> fileId /\ In x expandedFiles).
Proof.
  unfold Files.toggleFileExpansion.
  destruct (existsb (String.eqb fileId) expandedFiles) eqn:E.
  - apply existsb_eqb_In in E. rewrite filter_In, negb_true_iff, String.eqb_neq.
    split; [intros [H N]; right; tauto |].
    intros [[-> N] | [N H]]; [contradiction | tauto].
  - assert (N : ~ In fileId expandedFiles).
    { intros H. apply existsb_eqb_In in H. congruence. }
    rewrite in_app_iff. simpl. split.
    + intros [H | [<- | []]]; [| tauto].
      right. split; [| exact H]. intros ->. contradiction.
    + intros [[-> _] | [_ H]]; tauto.
Qed.

(** X14.  [toggleFileExpansion] flips one file and no other; twice, it
    restores the set. *)
Theorem toggle_flips_one_file expandedFiles fileId :
  (In fileId (Files.toggleFileExpansion expandedFiles fileId)
   <-> ~ In fileId expandedFiles)
  /\ (forall x, x <> fileId ->
                (In x (Files.toggleFileExpansion expandedFiles fileId)
                 <-> In x expandedFiles))
  /\ (forall x,
         In x (Files.toggleFileExpansion
                 (Files.toggleFileExpansion expandedFiles fileId) fileId)
         <-> In x expandedFiles)
  /\ (NoDup expandedFiles ->
      NoDup (Files.toggleFileExpansion expandedFiles fileId)).
Proof.
  split; [| split; [| split]].
  - rewrite toggle_In. tauto.
  - intros x N. rewrite toggle_In. tauto.
  - intros x. rewrite !toggle_In.
    destruct (string_dec x fileId) as [-> | N];
      destruct (in_dec string_dec fileId expandedFiles); tauto.
  - intros N. unfold Files.toggleFileExpansion.
    destruct (existsb (String.eqb fileId) expandedFiles) eqn:E.
    + now apply NoDup_filter.
    + apply NoDup_app; [exact N | repeat constructor; intros [] |].
      intros x Hx [<- | []]. apply existsb_eqb_In in Hx. congruence.
Qed.

Lemma toggle_flips_one_file_witness :
  NoDup (Files.toggleFileExpansion ["a"; "b"] "a").
Proof.
  apply (proj2 (proj2 (proj2 (toggle_flips_one_file ["a"; "b"] "a")))).
  repeat constructor; simpl; intuition discriminate.
Defined.

(** ** The colours of the bars *)

Lemma first_colours_differ : NoDup (map Files.barColor (seq 0 10)).
Proof.
  vm_compute. repeat constructor; simpl; intuition discriminate.
Qed.

Lemma seq_firstn n m : (n <= m)%nat -> seq 0 n = firstn n (seq 0 m).
Proof.
  intros H. replace m with (n + (m - n))%nat by lia.
  rewrite seq_app, firstn_app, length_seq, Nat.sub_diag, firstn_O, app_nil_r.
  rewrite firstn_all2; [reflexivity | rewrite length_seq; lia].
Qed.

(** X15.  The bars of a chart of [generateBarChart] have pairwise different
    colours, taken from [chartColors]. *)
Theorem bars_of_a_chart_differ_in_colour rows fields fileName fileId chart :
  generateBarChart rows fields fileName fileId = Some chart ->
  NoDup (Files.barColors chart)
  /\ forall i, (i < List.length (Dashboard.data chart))%nat ->
               In (Files.barColor i) Files.chartColors.
Proof.
  intros H. destruct (series_general _ _ _ _ _ H) as [_ [_ [_ [_ [_ [L _]]]]]].
  unfold pointsOf in L. rewrite length_map in L. split.
  - unfold Files.barColors. rewrite (seq_firstn _ 10 L), <- firstn_map.
    apply NoDup_firstn, first_colours_differ.
  - intros i _. unfold Files.barColor. apply nth_In.
    apply Nat.mod_upper_bound. discriminate.
Qed.

Lemma bars_of_a_chart_differ_in_colour_witness :
  NoDup (Files.barColors
           (chartOf (Examples.field "amt" true false)
                    (Examples.field "region" false true)
                    Examples.exampleRows "file")).
Proof.
  apply (bars_of_a_chart_differ_in_colour
           Examples.exampleRows Examples.exampleFields "name" "file").
  reflexivity.
Defined.

(** ** The rows of a worksheet *)

Lemma sheetCell_defined row i : Files.sheetCell row i <> VUndefined.
Proof.
  unfold Files.sheetCell. destruct (nth i row VUndefined); discriminate.
Qed.

Lemma putAny_plain o plain k v :
  k <> "__proto__" -> putAny (o, plain) k v = (assign o k v, plain).
Proof.
  intros H. unfold putAny. destruct (String.eqb k "__proto__") eqn:E.
  - apply String.eqb_eq in E. contradiction.
  - now rewrite andb_false_r.
Qed.

Lemma formatRow_keeps o plain headers i row key :
  ~ In "__proto__" headers ->
  (exists v, lookup o key = Some v /\ v <> VUndefined) ->
  exists v, lookup (fst (Files.formatRow (o, plain) headers i row)) key = Some v
            /\ v <> VUndefined.
Proof.
  revert o i. induction headers as [| h rest IH]; intros o i P H; cbn [Files.formatRow];
    [exact H |].
  rewrite putAny_plain by (intros ->; apply P; now left).
  apply IH; [intros I; apply P; now right |].
  destruct (string_dec h key) as [-> | N].
  - rewrite lookup_assign_same. eexists. split; [reflexivity |].
    apply sheetCell_defined.
  - now rewrite lookup_assign_other by congruence.
Qed.

Lemma formatRow_header o plain headers i row key :
  ~ In "__proto__" headers ->
  In key headers ->
  exists v, lookup (fst (Files.formatRow (o, plain) headers i row)) key = Some v
            /\ v <> VUndefined.
Proof.
  revert o i. induction headers as [| h rest IH]; intros o i P H; cbn [Files.formatRow];
    [contradiction |].
  rewrite putAny_plain by (intros ->; apply P; now left).
  assert (P' : ~ In "__proto__" rest) by (intros I; apply P; now right).
  destruct H as [-> | H]; [| now apply IH].
  apply formatRow_keeps; [exact P' |]. rewrite lookup_assign_same.
  eexists. split; [reflexivity | apply sheetCell_defined].
Qed.

Lemma formatRow_keys o plain headers i row :
  ~ In "__proto__" headers ->
  map fst (fst (Files.formatRow (o, plain) headers i row))
  = keysAfter (map fst o) headers.
Proof.
  revert o i. induction headers as [| h rest IH]; intros o i P; cbn [Files.formatRow];
    [reflexivity |].
  rewrite putAny_plain by (intros ->; apply P; now left).
  rewrite IH by (intros I; apply P; now right).
  now rewrite keys_assign.
Qed.



End PanelProperties.

Module ResolverProperties.

Import JS TowerMap Spec.
Local Open Scope string_scope.
Local Open Scope list_scope.

(** ** Trimming twice *)

Lemma trimEnd_idempotent s : trimEnd (trimEnd s) = trimEnd s.
Proof.
  induction s as [| c r IH]; [reflexivity |].
  cbn [trimEnd]. destruct (isWhiteSpace c) eqn:W.
  - destruct (trimEnd r) as [| d r'] eqn:E; [reflexivity |].
    cbn [trimEnd]. rewrite W. cbn [trimEnd] in IH. rewrite IH. reflexivity.
  - cbn [trimEnd]. rewrite W, IH. reflexivity.
Qed.

Lemma trimStart_head s :
  match trimStart s with
  | EmptyString => True
  | String c _ => isWhiteSpace c = false
  end.
Proof.
  induction s as [| c r IH]; [exact I |].
  cbn [trimStart]. destruct (isWhiteSpace c) eqn:W; [exact IH | exact W].
Qed.

Lemma trimStart_trimEnd s :
  match s with
  | EmptyString => True
  | String c _ => isWhiteSpace c = false
  end ->
  trimStart (trimEnd s) = trimEnd s.
Proof.
  destruct s as [| c r]; [reflexivity |]. intros W.
  cbn [trimEnd]. rewrite W. cbn [trimStart]. now rewrite W.
Qed.

Lemma trim_idempotent s : trim (trim s) = trim s.
Proof.
  unfold trim. rewrite (trimStart_trimEnd _ (trimStart_head s)).
  apply trimEnd_idempotent.
Qed.

Lemma exactMatch_first row before name after :
  (forall n, In n before -> present (get row n) = false) ->
  present (get row name) = true ->
  exactMatch row (before ++ name :: after) = Some (trim (ToString (get row name))).
Proof.
  intros H P. induction before as [| b rest IH]; simpl.
  - now rewrite P.
  - rewrite (H b (or_introl eq_refl)). apply IH.
    intros n Hn. apply H. now right.
Qed.

(** X17.  The result of [findColumnValue] is trimmed, and the first alias
    that is an exact key with a non-blank cell decides it, whatever the
    partial matches of earlier aliases. *)
Theorem resolver_result_trimmed_exact_first :
  (forall row possibleNames,
      trim (findColumnValue row possibleNames) = findColumnValue row possibleNames)
  /\ (forall row before name after,
         (forall n, In n before -> present (get row n) = false) ->
         present (get row name) = true ->
         findColumnValue row (before ++ name :: after)
         = trim (ToString (get row name))).
Proof.
  split.
  - intros row names.
    destruct (findColumnValue_found row names)
      as [-> | [[key [v [_ ->]]] | [name [member [_ ->]]]]];
      [reflexivity | apply trim_idempotent..].
  - intros row before name after H P. unfold findColumnValue.
    now rewrite (exactMatch_first row before name after H P).
Qed.

Lemma resolver_result_trimmed_exact_first_witness :
  findColumnValue [("Latitude code", VStr "x"); ("LAT", VStr " 5 ")]
                  (["LOCK LAT"; "Latitude"] ++ "LAT" :: ["Lock Lat"])
  = trim (ToString (get [("Latitude code", VStr "x"); ("LAT", VStr " 5 ")] "LAT")).
Proof.
  apply (proj2 resolver_result_trimmed_exact_first).
  - intros n [<- | [<- | []]]; reflexivity.
  - reflexivity.
Defined.

End ResolverProperties.

Module CleanerProperties.

Import JS TowerMap Spec ViewSpec.
Local Open Scope string_scope.
Local Open Scope list_scope.

Lemma spaced_cons c d r :
  spaced (String c (String d r))
  = negb (isComma c && isComma d) && spaced (String d r).
Proof. reflexivity. Qed.

Lemma spaced_collapse s : spaced s = true -> collapseCommas s = s.
Proof.
  induction s as [| c r IH]; [reflexivity |].
  cbn [spaced collapseCommas]. intros H. apply andb_true_iff in H.
  destruct H as [H1 H2]. rewrite (IH H2).
  destruct (isComma c) eqn:C; [| reflexivity].
  destruct r as [| d r']; [reflexivity |].
  simpl in H1. now destruct (isComma d).
Qed.

Lemma collapse_spaced s : spaced (collapseCommas s) = true.
Proof.
  induction s as [| c r IH]; [reflexivity |].
  cbn [collapseCommas].
  destruct r as [| d r'].
  - now destruct (isComma c).
  - destruct (collapseCommas_head d r') as [x Hx].
    destruct (isComma c) eqn:C.
    + destruct (isComma d) eqn:D; [exact IH |].
      rewrite Hx in *. now rewrite spaced_cons, C, D, IH.
    + rewrite Hx in *. now rewrite spaced_cons, C, IH.
Qed.

Lemma endsWithComma_cons c d r :
  endsWithComma (String c (String d r)) = endsWithComma (String d r).
Proof.
  unfold endsWithComma. cbn [String.length Nat.sub dropChars].
  now rewrite Nat.sub_0_r.
Qed.

Lemma endsWithComma_one c : endsWithComma (String c "") = isComma c.
Proof.
  unfold endsWithComma, isComma. simpl. now destruct (Ascii.eqb c ",").
Qed.

Lemma tidy_fixed s : tidy s -> stripEdgeCommas (collapseCommas s) = s.
Proof.
  intros [S [H T]]. rewrite (spaced_collapse s S), stripEdgeCommas_spec.
  unfold stripLeading. destruct s as [| c r]; [reflexivity |].
  simpl in H. rewrite H. unfold stripTrailing. now rewrite T.
Qed.

Lemma spaced_tail c r : spaced (String c r) = true -> spaced r = true.
Proof. cbn [spaced]. intros H. now apply andb_true_iff in H. Qed.

Lemma dropLastComma_spaced s : spaced s = true -> spaced (dropLastComma s) = true.
Proof.
  induction s as [| c r IH]; [reflexivity |]. intros H.
  destruct r as [| d r'].
  - simpl. now destruct (isComma c).
  - change (dropLastComma (String c (String d r')))
      with (String c (dropLastComma (String d r'))).
    pose proof (spaced_tail _ _ H) as Hr. specialize (IH Hr).
    cbn [spaced] in H. apply andb_true_iff in H. destruct H as [H1 _].
    destruct (dropLastComma (String d r')) as [| e x] eqn:E; [reflexivity |].
    cbn [spaced]. cbn [spaced] in IH. rewrite IH, andb_true_r.
    assert (e = d).
    { destruct r' as [| f r'']; simpl in E.
      - destruct (isComma d); [discriminate | congruence].
      - congruence. }
    now subst e.
Qed.

Lemma dropLastComma_end s :
  spaced s = true -> endsWithComma (dropLastComma s) = false.
Proof.
  induction s as [| c r IH]; [reflexivity |]. intros H.
  destruct r as [| d r'].
  - simpl. destruct (isComma c) eqn:C; [reflexivity |].
    now rewrite endsWithComma_one.
  - change (dropLastComma (String c (String d r')))
      with (String c (dropLastComma (String d r'))).
    pose proof (spaced_tail _ _ H) as Hr. specialize (IH Hr).
    destruct (dropLastComma (String d r')) as [| e x] eqn:E.
    + rewrite endsWithComma_one.
      destruct r' as [| f r'']; simpl in E; [| discriminate].
      destruct (isComma d) eqn:D; [| discriminate].
      cbn [spaced] in H. rewrite D in H.
      destruct (isComma c); [discriminate | reflexivity].
    + now rewrite endsWithComma_cons.
Qed.

Lemma dropLastComma_start s :
  startsWithComma s = false -> startsWithComma (dropLastComma s) = false.
Proof.
  destruct s as [| c r]; [reflexivity |]. intros H.
  destruct r as [| d r']; simpl in *; [now rewrite H | exact H].
Qed.

Lemma cleaned_tidy value : tidy (stripEdgeCommas (collapseCommas value)).
Proof.
  pose proof (collapse_spaced value) as S.
  destruct (collapseCommas value) as [| c r] eqn:E;
    [repeat split |].
  unfold stripEdgeCommas. destruct (isComma c) eqn:C.
  - pose proof (spaced_tail _ _ S) as Sr.
    repeat split;
      [now apply dropLastComma_spaced | | now apply dropLastComma_end].
    apply dropLastComma_start. destruct r as [| d r']; [reflexivity |].
    cbn [spaced] in S. rewrite C in S. simpl in *.
    now destruct (isComma d).
  - repeat split;
      [now apply dropLastComma_spaced | | now apply dropLastComma_end].
    apply dropLastComma_start. exact C.
Qed.

Lemma takeChars_spaced n s : spaced s = true -> spaced (takeChars n s) = true.
Proof.
  revert s. induction n as [| n IH]; intros [| c r] H; try reflexivity.
  cbn [takeChars]. pose proof (IH r (spaced_tail _ _ H)) as I.
  cbn [spaced] in H. apply andb_true_iff in H. destruct H as [H1 _].
  destruct n as [| n]; [reflexivity |].
  destruct r as [| d r']; [reflexivity |].
  cbn [takeChars spaced] in *. now rewrite H1, I.
Qed.

Lemma spaced_app p q :
  spaced p = true -> spaced q = true -> startsWithComma q = false ->
  spaced (p ++ q)%string = true.
Proof.
  intros P Q H. induction p as [| c r IH]; [exact Q |].
  specialize (IH (spaced_tail _ _ P)).
  destruct r as [| d r'].
  - cbn [String.append]. destruct q as [| e q']; [reflexivity |].
    rewrite spaced_cons, Q. simpl in H. rewrite H.
    now rewrite andb_false_r.
  - change ((String c (String d r') ++ q)%string)
      with (String c (String d (r' ++ q)%string)).
    rewrite spaced_cons. rewrite spaced_cons in P.
    apply andb_true_iff in P. destruct P as [P1 _]. rewrite P1. exact IH.
Qed.

Lemma endsWithComma_app p c q :
  endsWithComma (p ++ String c q)%string = endsWithComma (String c q).
Proof.
  induction p as [| a r IH]; [reflexivity |].
  destruct r as [| b r'].
  - cbn [String.append]. apply endsWithComma_cons.
  - change ((String a (String b r') ++ String c q)%string)
      with (String a (String b (r' ++ String c q)%string)).
    rewrite endsWithComma_cons. exact IH.
Qed.

Lemma ellipsis_tidy p :
  spaced p = true -> startsWithComma p = false ->
  tidy (p ++ "...")%string.
Proof.
  intros S H. repeat split.
  - now apply spaced_app.
  - destruct p; [reflexivity | exact H].
  - now rewrite endsWithComma_app.
Qed.

Lemma takeChars_start n s :
  startsWithComma s = false -> startsWithComma (takeChars n s) = false.
Proof. destruct n, s; auto. Qed.

(** A string without comma. *)
Lemma commaless_tidy s : containsComma s = false -> tidy s.
Proof.
  intros H. repeat split.
  - induction s as [| c r IH]; [reflexivity |].
    cbn [containsComma] in H. apply orb_false_iff in H. destruct H as [C H].
    destruct r as [| d r']; [reflexivity |].
    now rewrite spaced_cons, C, (IH H).
  - destruct s as [| c r]; [reflexivity |].
    cbn [containsComma] in H. now apply orb_false_iff in H.
  - induction s as [| c r IH]; [reflexivity |].
    cbn [containsComma] in H. apply orb_false_iff in H. destruct H as [C H].
    destruct r as [| d r']; [now rewrite endsWithComma_one |].
    rewrite endsWithComma_cons. now apply IH.
Qed.

Lemma splitComma_commaless s part :
  In part (splitComma s) -> containsComma part = false.
Proof.
  revert part. induction s as [| c r IH]; intros part; cbn [splitComma].
  - intros [<- | []]. reflexivity.
  - destruct (isComma c) eqn:C.
    + intros [<- | H]; [reflexivity | now apply IH].
    + destruct (splitComma r) as [| h t] eqn:E.
      * intros [<- | []]. cbn [containsComma]. now rewrite C.
      * intros [<- | H].
        -- cbn [containsComma]. rewrite C. apply IH. now left.
        -- apply IH. now right.
Qed.

Lemma trimStart_commaless s :
  containsComma s = false -> containsComma (trimStart s) = false.
Proof.
  induction s as [| c r IH]; [reflexivity |]. intros H.
  cbn [trimStart]. destruct (isWhiteSpace c); [| exact H].
  cbn [containsComma] in H. apply orb_false_iff in H. now apply IH.
Qed.

Lemma trimEnd_commaless s :
  containsComma s = false -> containsComma (trimEnd s) = false.
Proof.
  induction s as [| c r IH]; [reflexivity |]. intros H.
  cbn [containsComma] in H. apply orb_false_iff in H. destruct H as [C H].
  cbn [trimEnd]. specialize (IH H).
  destruct (isWhiteSpace c).
  - destruct (trimEnd r); [reflexivity |].
    cbn [containsComma] in *. now rewrite C.
  - cbn [containsComma]. now rewrite C.
Qed.

Lemma trim_commaless s :
  containsComma s = false -> containsComma (trim s) = false.
Proof.
  intros H. unfold trim. now apply trimEnd_commaless, trimStart_commaless.
Qed.

(** X18.  Cleaning the commas of a result of [cleanString] again changes
    nothing: it has no run of commas, none in front and none at the end. *)
Theorem cleanString_commas_in_normal_form value maxLength :
  stripEdgeCommas (collapseCommas (cleanString value maxLength))
  = cleanString value maxLength.
Proof.
  apply tidy_fixed. unfold cleanString.
  destruct (isEmpty value); [repeat split |].
  pose proof (cleaned_tidy value) as [S [H T]].
  set (c := stripEdgeCommas (collapseCommas value)) in *.
  destruct (gt (lengthOf c) maxLength && includes c ",").
  - apply commaless_tidy. rewrite firstMeaningful_find.
    destruct (find (qualifies maxLength) (splitComma c)) as [part |] eqn:F;
      cbn [option_map]; apply trim_commaless.
    + apply find_some in F. apply (splitComma_commaless c), F.
    + destruct (splitComma c) as [| h t] eqn:E; [reflexivity |].
      apply (splitComma_commaless c). rewrite E. now left.
  - destruct (gt (lengthOf c) maxLength).
    + apply ellipsis_tidy; [now apply takeChars_spaced | now apply takeChars_start].
    + repeat split; assumption.
Qed.

End CleanerProperties.

Module CleaningProperties.

Import JS Dashboard Spec.
Local Open Scope string_scope.
Local Open Scope list_scope.

Lemma assign_entries (A : Type) (P : string -> A -> Prop) (o : obj A) k v :
  (forall k' v', In (k', v') o -> P k' v') -> P k v ->
  forall k' v', In (k', v') (assign o k v) -> P k' v'.
Proof.
  induction o as [| [k0 v0] t IH]; simpl; intros H Hkv k' v'.
  - intros [E | []]. now injection E as <- <-.
  - destruct (String.eqb k0 k) eqn:E.
    + apply String.eqb_eq in E. subst k0. intros [E | I].
      * now injection E as <- <-.
      * apply H. now right.
    + intros [E' | I].
      * apply H. now left.
      * apply IH; auto.
Qed.

Lemma fold_putAny_entries (K : Type) (P : string -> value -> Prop)
      (f : K -> string) (g : K -> value) keys (state : obj value * bool) :
  (forall k' v', In (k', v') (fst state) -> P k' v') ->
  (forall k, In k keys -> P (f k) (g k)) ->
  forall k' v',
    In (k', v') (fst (fold_left (fun acc k => putAny acc (f k) (g k))
                                keys state)) ->
    P k' v'.
Proof.
  revert state. induction keys as [| k rest IH]; intros [o plain] Ho Hk; simpl;
    [exact Ho |].
  apply IH.
  - unfold putAny. destruct (plain && String.eqb (f k) "__proto__");
      [exact Ho |].
    cbn [fst]. apply assign_entries; [exact Ho | apply Hk; now left].
  - intros k0 H0. apply Hk. now right.
Qed.

(** X19.  In a cleaned row keys and string cells are trimmed, and a cell
    that is still a string was not a number in text form. *)
Theorem cleaned_rows_are_trimmed row key v :
  In (key, v) (Files.cleanRow row) ->
  trim key = key
  /\ (forall s, v = VStr s ->
                trim s = s
                /\ (isNaN (parseFloat (Files.stripDollarComma s)) = true
                    \/ Files.looksNumeric s = false)).
Proof.
  unfold Files.cleanRow.
  apply (fold_putAny_entries string
           (fun key v =>
              trim key = key
              /\ (forall s, v = VStr s ->
                            trim s = s
                            /\ (isNaN (parseFloat (Files.stripDollarComma s))
                                = true
                                \/ Files.looksNumeric s = false)))).
  - intros k' v' [].
  - intros k _. split; [apply ResolverProperties.trim_idempotent |].
    intros s E. destruct (get row k) as [| | b | x | u | t]; simpl in E;
      try discriminate.
    destruct (isNaN (parseFloat (Files.stripDollarComma (trim u)))) eqn:N;
      simpl in E.
    + injection E as <-. split; [apply ResolverProperties.trim_idempotent |].
      now left.
    + destruct (Files.looksNumeric (trim u)) eqn:L; [discriminate |].
      injection E as <-. split; [apply ResolverProperties.trim_idempotent |].
      now right.
Qed.

Lemma cleaned_rows_are_trimmed_witness : trim "Status" = "Status".
Proof.
  assert (H : In ("Status", VStr "ok")
                 (Files.cleanRow
                    [(" Status ", VStr " ok "); ("Jumlah", VStr "$1,234.50")]))
    by (vm_compute; left; reflexivity).
  exact (proj1 (cleaned_rows_are_trimmed _ _ _ H)).
Defined.


End CleaningProperties.
